(** * Wallet reputability scoring and fund-flow graph construction

    A shallow embedding of the scoring endpoint (reputability-score route),
    the fund-flow analysis endpoint (app/api/fund-flow-analysis/route.ts),
    the developer-network and fund-sources endpoints, the graph builder of
    the deployer-network endpoint and the colour helpers of the dashboard,
    followed by the properties stated about them.

    Conventions of the embedding:
    - JavaScript numbers that hold counts, lamport amounts and timestamps are
      integers ([Z]); numbers obtained by division (ratios, months, rates)
      are exact rationals ([Q]).  Binary floating-point rounding of those
      quotients, and of their products in the scorer, is not modelled.  The
      product with 0.8 in the wash-trading test of the fund-flow route is
      computed in binary64.
    - A JavaScript [Map] is an association list in insertion order, which is
      the order [Map.prototype.forEach] visits it in.
    - Template literals are kept as a list of pieces (literal text and the
      interpolated numbers) instead of being rendered to one string.
    - Upstream services (the chain-data provider, the text generator, the
      clock) are an explicit world that every call threads through.  Their
      replies have the documented shape, with these exceptions: the [result]
      of a signatures reply may be a string, or another value that is not an
      array; the transaction history and the token accounts of the scoring
      route may be null, or a value that [analyzeWalletData] cannot read. *)

From Stdlib Require Import ZArith QArith Qround Qminmax.
From Stdlib Require Import List String Ascii Bool Lia.
From Stdlib Require SpecFloat.
Import ListNotations.

Local Open Scope string_scope.
Local Open Scope Z_scope.

(** ** JavaScript primitives used by the routes *)

Module JS.

(** [Math.round]: the nearest integer, ties towards +infinity. *)
Definition Math_round (x : Q) : Z := Qfloor (x + (1 # 2))%Q.

Definition Math_min (a b : Z) : Z := Z.min a b.
Definition Math_max (a b : Z) : Z := Z.max a b.

(** [x > y] and [x < y] on non-integer numbers. *)
Definition Qgtb (x y : Q) : bool := negb (Qle_bool x y).
Definition Qltb (x y : Q) : bool := negb (Qle_bool y x).

(** A product with a fraction is a binary64 number in the source; it is
    computed here by the Standard Library's specification of IEEE 754
    arithmetic, rounding to nearest, ties to even.  An integer is a double
    as it is up to 2^53, and is rounded beyond. *)
Definition double : Type := SpecFloat.spec_float.

Definition double_of_Z (z : Z) : double :=
  SpecFloat.binary_normalize 53 1024 z 0 false.

(** The literal [0.8]: the double nearest to 8/10, 0x1.999999999999ap-1. *)
Definition double_0_8 : double :=
  SpecFloat.S754_finite false 7205759403792794 (-53).

Definition double_mul (x y : double) : double := SpecFloat.SFmul 53 1024 x y.

(** [x > y] on doubles. *)
Definition double_gtb (x y : double) : bool := SpecFloat.SFltb y x.

(** [s.startsWith(p)] *)
Definition startsWith (p s : string) : bool := String.prefix p s.

(** [s.includes(p)] *)
Fixpoint includes (p s : string) : bool :=
  String.prefix p s ||
  match s with
  | EmptyString => false
  | String _ rest => includes p rest
  end.

(** [xs.slice(0, n)] *)
Definition slice0 {A} (n : nat) (xs : list A) : list A := firstn n xs.
Arguments slice0 : simpl never.

(** [xs.includes(x)] / [set.has(x)] on strings. *)
Definition has (xs : list string) (x : string) : bool :=
  existsb (String.eqb x) xs.

(** [xs.push(x)] *)
Definition push {A} (xs : list A) (x : A) : list A := (xs ++ [x])%list.

(** [set.add(x)] on an insertion-ordered [Set<string>]. *)
Definition set_add (x : string) (xs : list string) : list string :=
  if has xs x then xs else push xs x.

(** The pieces of a template literal. [Fixed d q] stands for
    [q.toFixed(d)]. *)
Inductive piece : Type :=
| Lit (s : string)
| Num (n : Z)
| Fixed (digits : nat) (q : Q).

(** The character class [1-9A-HJ-NP-Za-km-z]. *)
Definition base58_char (c : ascii) : bool :=
  let n := nat_of_ascii c in
  ((49 <=? n) && (n <=? 57) ||
   (65 <=? n) && (n <=? 72) ||
   (74 <=? n) && (n <=? 78) ||
   (80 <=? n) && (n <=? 90) ||
   (97 <=? n) && (n <=? 107) ||
   (109 <=? n) && (n <=? 122))%nat.

(** [/^[1-9A-HJ-NP-Za-km-z]{32,44}$/.test(s)] *)
Definition address_regex_test (s : string) : bool :=
  forallb base58_char (list_ascii_of_string s) &&
  ((32 <=? String.length s) && (String.length s <=? 44))%nat.

(** Truthiness of a string value; a missing field is the empty string. *)
Definition truthy (s : string) : bool :=
  match s with EmptyString => false | _ => true end.

End JS.

(** ** Effects: upstream calls, exceptions, try/catch

    A computation reads and advances the world (the upstream services and
    the clock), records every request that leaves the process, and either
    returns a value or throws. *)

Module Effects.

(** The requests a route can send to the chain-data provider or to the
    text-generation service. *)
Inductive Call : Type :=
| HeliusTransactions (address : string) (limit : Z)
| HeliusTokenAccounts (address : string)
| HeliusAccountInfo (address : string)
| RpcGetSignaturesForAddress (address : string) (limit : Z)
| RpcGetTransaction (signature : string)
| GenerateText.

Definition to_chain_data_provider (c : Call) : bool :=
  match c with GenerateText => false | _ => true end.

Record State (W : Type) : Type := {
  world : W;
  calls : list Call
}.
Arguments world {W} _.
Arguments calls {W} _.

(** A computation returns, or throws an error with a message. *)
Inductive Outcome (A : Type) : Type :=
| Returned (a : A)
| Thrown (message : string).
Arguments Returned {A} _.
Arguments Thrown {A} _.

(** What an upstream service answers: a payload, or a failure (network
    error, non-OK status, error payload) with its message. *)
Inductive Reply (A : Type) : Type :=
| Ok (a : A)
| Failed (message : string).
Arguments Ok {A} _.
Arguments Failed {A} _.

Definition M (W A : Type) : Type := State W -> Outcome A * State W.

Definition ret {W A} (a : A) : M W A := fun st => (Returned a, st).

Definition bind {W A B} (c : M W A) (k : A -> M W B) : M W B :=
  fun st =>
    match c st with
    | (Returned a, st') => k a st'
    | (Thrown e, st') => (Thrown e, st')
    end.

Definition throw {W A} (message : string) : M W A :=
  fun st => (Thrown message, st).

(** [try { body } catch (error) { handler }] *)
Definition try_catch {W A} (body : M W A) (handler : string -> M W A) : M W A :=
  fun st =>
    match body st with
    | (Returned a, st') => (Returned a, st')
    | (Thrown e, st') => handler e st'
    end.

(** Read the world without sending anything. *)
Definition observe {W A} (f : W -> A) : M W A :=
  fun st => (Returned (f (world st)), st).

(** Send request [c]; the service answers with [f]. *)
Definition request {W A} (c : Call) (f : W -> Reply A * W) : M W A :=
  fun st =>
    let (r, w') := f (world st) in
    let st' := {| world := w'; calls := JS.push (calls st) c |} in
    match r with
    | Ok a => (Returned a, st')
    | Failed e => (Thrown e, st')
    end.

(** A [for ... of] loop with [await] in its body. *)
Fixpoint for_each {W A S} (xs : list A) (body : S -> A -> M W S) (s : S) : M W S :=
  match xs with
  | [] => ret s
  | x :: rest => bind (body s x) (for_each rest body)
  end.

Definition start {W} (w : W) : State W := {| world := w; calls := [] |}.

Declare Scope effect_scope.
Delimit Scope effect_scope with effect.
Notation "x <- c ;; k" := (bind c (fun x => k))
  (at level 100, c at next level, right associativity) : effect_scope.

End Effects.

(** ** Risk levels, shared by both routes *)

Inductive RiskLevel : Type := low | medium | high.

(** ** The reputability-score route *)

Module Reputability.
Import JS.

Definition SCAM_ADDRESSES : list string :=
  [ "9hFtS2YFdEYjLzuM1jMjqTADVPT3R7RLLxd3nJyHzLh1";
    "8JzMwDj9N5LNUKRuCJz2PGwHwwMqZHNBVHLvFVGZnNcJ";
    "7YttLkHDoNj9wyDur5pM1ejNaAvUTZQEUzprmjpeyNX1";
    "ScamProgram111111111111111111111111111111111";
    "FakeToken22222222222222222222222222222222222" ].

Definition BLACKLISTED_PROGRAMS : list string :=
  [ "ScamProgram111111111111111111111111111111111";
    "FakeToken22222222222222222222222222222222222";
    "MaliciousDEX1111111111111111111111111111111" ].

Definition LEGITIMATE_PROGRAMS : list string :=
  [ "JUP6LkbZbjS1jKKwapdHNy74zcZ3tLUZoi5QNyVTaV4";
    "9WzDXwBbmkg8ZTbNMqUxvQRAyrZzDsGYdLVL9zYtAWWM";
    "MarBmsSgKXdrN1egZf5sqe1TMai9K1rChYNDJgjq7aD";
    "whirLbMiicVdio4qvUfM5KAg6Ct8VwpYzGff3uctyCc" ].

(** Upstream records.  A missing array is the empty list, a missing string
    the empty string. *)
Record NativeTransfer : Type := {
  fromUserAccount : string;
  toUserAccount : string;
  amount : Z
}.

Record TokenTransfer : Type := {
  tokenFrom : string;
  tokenTo : string
}.

Record Instruction : Type := {
  programId : string;
  data : string
}.

Record HeliusTransaction : Type := {
  timestamp : Z;
  nativeTransfers : list NativeTransfer;
  tokenTransfers : list TokenTransfer;
  instructions : list Instruction
}.

(** [token.account?.data?.parsed?.info] of a token balance entry. *)
Record TokenBalance : Type := {
  state : string;
  delegatedAmount : Z
}.

(** The mutable locals of [analyzeWalletData]. *)
Record Counters : Type := {
  c_flagged : Z;
  c_blacklisted : Z;
  c_legitimate : Z;
  c_large : Z;
  c_volume : Z;
  c_counterparties : list string;
  c_programs : list string;
  c_staking : Z;
  c_oldest : Z
}.

Definition add_counterparties (walletAddress from to : string)
    (cps : list string) : list string :=
  let cps := if String.eqb from walletAddress then cps else set_add from cps in
  if String.eqb to walletAddress then cps else set_add to cps.

Definition visit_native (walletAddress : string) (c : Counters)
    (t : NativeTransfer) : Counters :=
  {| c_flagged :=
       if has SCAM_ADDRESSES (fromUserAccount t) || has SCAM_ADDRESSES (toUserAccount t)
       then c_flagged c + 1 else c_flagged c;
     c_blacklisted := c_blacklisted c;
     c_legitimate := c_legitimate c;
     c_large := if amount t >? 10 * 1000000000 then c_large c + 1 else c_large c;
     c_volume := c_volume c + amount t;
     c_counterparties :=
       add_counterparties walletAddress (fromUserAccount t) (toUserAccount t)
         (c_counterparties c);
     c_programs := c_programs c;
     c_staking := c_staking c;
     c_oldest := c_oldest c |}.

Definition visit_token (walletAddress : string) (c : Counters)
    (t : TokenTransfer) : Counters :=
  {| c_flagged := c_flagged c;
     c_blacklisted := c_blacklisted c;
     c_legitimate := c_legitimate c;
     c_large := c_large c;
     c_volume := c_volume c;
     c_counterparties :=
       add_counterparties walletAddress (tokenFrom t) (tokenTo t)
         (c_counterparties c);
     c_programs := c_programs c;
     c_staking := c_staking c;
     c_oldest := c_oldest c |}.

Definition is_staking (i : Instruction) : bool :=
  String.eqb (programId i) "Stake11111111111111111111111111111111111111" ||
  (truthy (data i) && includes "stake" (data i)) ||
  (truthy (data i) && includes "delegate" (data i)).

Definition visit_instruction (c : Counters) (i : Instruction) : Counters :=
  if truthy (programId i) then
    {| c_flagged := c_flagged c;
       c_blacklisted :=
         if has BLACKLISTED_PROGRAMS (programId i)
         then c_blacklisted c + 1 else c_blacklisted c;
       c_legitimate :=
         if has LEGITIMATE_PROGRAMS (programId i)
         then c_legitimate c + 1 else c_legitimate c;
       c_large := c_large c;
       c_volume := c_volume c;
       c_counterparties := c_counterparties c;
       c_programs := set_add (programId i) (c_programs c);
       c_staking := if is_staking i then c_staking c + 1 else c_staking c;
       c_oldest := c_oldest c |}
  else c.

Definition visit_tx (walletAddress : string) (c : Counters)
    (tx : HeliusTransaction) : Counters :=
  let txTime := timestamp tx * 1000 in
  let c :=
    {| c_flagged := c_flagged c;
       c_blacklisted := c_blacklisted c;
       c_legitimate := c_legitimate c;
       c_large := c_large c;
       c_volume := c_volume c;
       c_counterparties := c_counterparties c;
       c_programs := c_programs c;
       c_staking := c_staking c;
       c_oldest := if txTime <? c_oldest c then txTime else c_oldest c |} in
  let c := fold_left (visit_native walletAddress) (nativeTransfers tx) c in
  let c := fold_left (visit_token walletAddress) (tokenTransfers tx) c in
  fold_left visit_instruction (instructions tx) c.

Record Analysis : Type := {
  flaggedInteractions : Z;
  blacklistedProgramUsage : Z;
  legitimateProgramUsage : Z;
  largeTransfers : Z;
  totalVolume : Z;
  counterpartyCount : Z;
  counterpartyDiversity : Q;
  walletAgeMonths : Q;
  transactionCount : Z;
  recentTransactions : Z;
  transactionFrequency : Q;
  stakingTransactions : Z;
  stakingActivityRatio : Q;
  tokenCount : Z;
  hasStakedTokens : bool;
  programsUsed : list string;
  uniquePrograms : Z
}.

Definition month_ms : Z := 30 * 24 * 60 * 60 * 1000.

Definition len {A} (xs : list A) : Z := Z.of_nat (List.length xs).

(** The account-info payload, which the analysis receives and ignores. *)
Definition AccountInfo : Type := string.

(** [analyzeWalletData]; [now] is the value [Date.now()] returned. *)
Definition analyzeWalletData (now : Z) (transactions : list HeliusTransaction)
    (tokenBalances : list TokenBalance) (accountInfo : option AccountInfo)
    (walletAddress : string) : Analysis :=
  let oneMonthAgo := now - month_ms in
  let c0 :=
    {| c_flagged := 0; c_blacklisted := 0; c_legitimate := 0; c_large := 0;
       c_volume := 0; c_counterparties := []; c_programs := [];
       c_staking := 0; c_oldest := now |} in
  let c := fold_left (visit_tx walletAddress) transactions c0 in
  let walletAgeMs := now - c_oldest c in
  let walletAgeMonths :=
    if len transactions >? 0
    then Qmax (1 # 10) (inject_Z walletAgeMs / inject_Z month_ms)
    else (1 # 10)%Q in
  let recentTransactions :=
    len (filter (fun tx => timestamp tx * 1000 >? oneMonthAgo) transactions) in
  let transactionFrequency := (inject_Z recentTransactions / 30)%Q in
  let counterpartyDiversity :=
    if len transactions >? 0
    then Qmin 1 (inject_Z (len (c_counterparties c)) /
                 Qmax 1 (inject_Z (len transactions) * (5 # 10)))
    else 0%Q in
  let stakingActivityRatio :=
    if len transactions >? 0
    then (inject_Z (c_staking c) / inject_Z (len transactions))%Q
    else 0%Q in
  {| flaggedInteractions := c_flagged c;
     blacklistedProgramUsage := c_blacklisted c;
     legitimateProgramUsage := c_legitimate c;
     largeTransfers := c_large c;
     totalVolume := c_volume c;
     counterpartyCount := len (c_counterparties c);
     counterpartyDiversity := counterpartyDiversity;
     walletAgeMonths := walletAgeMonths;
     transactionCount := len transactions;
     recentTransactions := recentTransactions;
     transactionFrequency := transactionFrequency;
     stakingTransactions := c_staking c;
     stakingActivityRatio := stakingActivityRatio;
     tokenCount := len tokenBalances;
     hasStakedTokens :=
       existsb (fun t => String.eqb (state t) "staked" || (delegatedAmount t >? 0))
               tokenBalances;
     programsUsed := c_programs c;
     uniquePrograms := len (c_programs c) |}.

Inductive Polarity : Type := positive | negative | neutral.

Record Factor : Type := {
  name : string;
  impact : Z;
  description : list piece;
  type : Polarity
}.

(** [calculateReputabilityScore].  The ratios of the analysis and their
    products with 20, 25, 2 and 5 are exact rationals here, and [Math_round]
    rounds the exact product.  The source computes them in binary64, whose
    product can fall just short of a half that the exact one reaches: a
    staking ratio of 0.58 gives 14.499999999999998 and a bonus of 14 there,
    14.5 and a bonus of 15 here.  The score of the model equals that of the
    source wherever no product lies within a rounding error of a half. *)
Definition calculateReputabilityScore (analysis : Analysis) : Z * list Factor :=
  let score := 50 in
  let flaggedPenalty := flaggedInteractions analysis * 15 in
  let score := score - flaggedPenalty in
  let f1 :=
    {| name := "Flagged Address Interactions";
       impact := - flaggedPenalty;
       description :=
         [Num (flaggedInteractions analysis);
          Lit " interactions with known scam/malicious addresses"];
       type := if flaggedInteractions analysis >? 0 then negative else positive |} in
  let blacklistedPenalty := blacklistedProgramUsage analysis * 20 in
  let score := score - blacklistedPenalty in
  let f2 :=
    {| name := "Blacklisted Program Usage";
       impact := - blacklistedPenalty;
       description :=
         [Num (blacklistedProgramUsage analysis);
          Lit " interactions with blacklisted programs"];
       type := if blacklistedProgramUsage analysis >? 0 then negative else positive |} in
  let largeTransferPenalty := Math_min (largeTransfers analysis * 3) 30 in
  let score := score - largeTransferPenalty in
  let f3 :=
    {| name := "Large Transfer Activity";
       impact := - largeTransferPenalty;
       description :=
         [Num (largeTransfers analysis); Lit " large transfers (>10 SOL) detected"];
       type := if largeTransfers analysis >? 5 then negative else neutral |} in
  let diversityBonus := Math_round (counterpartyDiversity analysis * 20) in
  let score := score + diversityBonus in
  let f4 :=
    {| name := "Counterparty Diversity";
       impact := diversityBonus;
       description :=
         [Num (counterpartyCount analysis); Lit " unique counterparties (";
          Fixed 1 (counterpartyDiversity analysis * 100); Lit "% diversity)"];
       type := if Qgtb (counterpartyDiversity analysis) (3 # 10)
               then positive else neutral |} in
  let stakingBonus := Math_round (stakingActivityRatio analysis * 25) in
  let score := score + stakingBonus in
  let f5 :=
    {| name := "Staking Activity";
       impact := stakingBonus;
       description :=
         [Num (stakingTransactions analysis); Lit " staking transactions (";
          Fixed 1 (stakingActivityRatio analysis * 100); Lit "% of activity)"];
       type := if Qgtb (stakingActivityRatio analysis) (1 # 10)
               then positive else neutral |} in
  let ageBonus := Math_min (Math_round (walletAgeMonths analysis * 2)) 24 in
  let score := score + ageBonus in
  let f6 :=
    {| name := "Wallet Age";
       impact := ageBonus;
       description :=
         [Fixed 1 (walletAgeMonths analysis); Lit " months of on-chain history"];
       type := if Qgtb (walletAgeMonths analysis) 3 then positive else neutral |} in
  let legitimateBonus := Math_min (legitimateProgramUsage analysis * 2) 20 in
  let score := score + legitimateBonus in
  let f7 :=
    {| name := "Legitimate Program Usage";
       impact := legitimateBonus;
       description :=
         [Num (legitimateProgramUsage analysis);
          Lit " interactions with verified DeFi protocols"];
       type := if legitimateProgramUsage analysis >? 0 then positive else neutral |} in
  let activityBonus := Math_min (Math_round (transactionFrequency analysis * 5)) 15 in
  let score := score + activityBonus in
  let f8 :=
    {| name := "Transaction Activity";
       impact := activityBonus;
       description :=
         [Fixed 2 (transactionFrequency analysis);
          Lit " transactions per day (recent activity)"];
       type := if Qgtb (transactionFrequency analysis) (1 # 10) &&
                  Qltb (transactionFrequency analysis) 10
               then positive else neutral |} in
  let score := Math_max 0 (Math_min 100 (Math_round (inject_Z score))) in
  (score, [f1; f2; f3; f4; f5; f6; f7; f8]).

(** The risk level the route derives from the score. *)
Definition riskLevelOf (score : Z) : RiskLevel :=
  if score >=? 80 then low else if score >=? 60 then medium else high.

(** [generateRecommendations] *)
Definition generateRecommendations (analysis : Analysis) (score : Z) : list string :=
  let r : list string := [] in
  let r := if flaggedInteractions analysis >? 0
           then push r "Avoid future interactions with flagged or suspicious addresses to improve reputation"
           else r in
  let r := if blacklistedProgramUsage analysis >? 0
           then push r "Cease using blacklisted programs and stick to verified DeFi protocols"
           else r in
  let r := if Qltb (stakingActivityRatio analysis) (1 # 10)
           then push r "Consider staking SOL or tokens to demonstrate long-term commitment to the ecosystem"
           else r in
  let r := if Qltb (counterpartyDiversity analysis) (3 # 10)
           then push r "Diversify transaction counterparties to show legitimate usage patterns"
           else r in
  let r := if legitimateProgramUsage analysis <? 3
           then push r "Increase usage of verified DeFi protocols like Jupiter, Raydium, or Marinade"
           else r in
  let r := if Qltb (walletAgeMonths analysis) 3
           then push r "Continue building transaction history over time to establish credibility"
           else r in
  let r := if largeTransfers analysis >? 10
           then push r "Reduce frequency of large transfers to avoid triggering risk algorithms"
           else r in
  match r with
  | [] =>
      ["Maintain current positive behavior patterns and continue regular DeFi participation";
       "Consider increasing staking activity to further improve reputation score"]
  | _ => r
  end.

(** *** The HeliusAPI client and the route handler *)

Import Effects.
Local Open Scope effect_scope.

(** What the body of a reply parses to, as the route reads it.

    [Records]: an array of records of the documented shape.

    [Null]: null; for the token accounts, where the client returns
    [data.result?.value || []], any falsy or missing value.

    [Unreadable]: a value on which [analyzeWalletData] throws a TypeError.
    For the transaction history: a value other than null that is not an
    array (an object, a number, a string, a boolean), which has no
    [forEach] or no [filter]; an array with a null entry, or with a record
    that holds a null transfer or instruction, which fails at the first
    property read.  For the token accounts: a non-empty string or an object
    with a positive [length], which have no [some]; an array in which a
    null entry comes before any staked one, where [some] fails on that
    entry.

    Outside the model: an array whose entries are not of the documented
    shape and yet are read without error (numbers, records with fields of
    another type); a truthy token-accounts value that is not an array and
    has no positive [length] (a number, true, an object), which is read
    without error and leaves [tokenCount] undefined.  The route answers
    such a value as it answers an array of records: with a result, after
    the same four requests. *)
Inductive Payload (A : Type) : Type :=
| Records (records : list A)
| Null
| Unreadable.
Arguments Records {A} _.
Arguments Null {A}.
Arguments Unreadable {A}.

Record Upstream (W : Type) : Type := {
  date_now : W -> Z;
  helius_transactions : string -> Z -> W -> Reply (Payload HeliusTransaction) * W;
  helius_token_accounts : string -> W -> Reply (Payload TokenBalance) * W;
  helius_account_info : string -> W -> Reply AccountInfo * W;
  generate_text : list piece -> W -> Reply string * W
}.
Arguments date_now {W} _.
Arguments helius_transactions {W} _.
Arguments helius_token_accounts {W} _.
Arguments helius_account_info {W} _.
Arguments generate_text {W} _.

(** [address.trim() === ""] *)
Definition blank (s : string) : bool :=
  forallb (fun c => let n := nat_of_ascii c in
                    ((9 <=? n) && (n <=? 13) || (n =? 32))%nat)
          (list_ascii_of_string s).

(** The guard every HeliusAPI method starts with. *)
Definition invalid_address (address : string) : bool :=
  negb (truthy address) || blank address || negb (address_regex_test address).

Section Route.
Context {W : Type} (up : Upstream W).

(** [getTransactionHistory]; [limit] is an integer, which [Math.floor]
    leaves as it is. *)
Definition getTransactionHistory (address : string) (limit : Z)
    : M W (Payload HeliusTransaction) :=
  if invalid_address address then throw "Invalid wallet address format"
  else
    let validLimit := Math_min (Math_max 1 limit) 100 in
    request (HeliusTransactions address validLimit)
            (helius_transactions up address validLimit).

(** [getTokenBalances]; it returns [data.result?.value || []]. *)
Definition getTokenBalances (address : string) : M W (Payload TokenBalance) :=
  if invalid_address address then throw "Invalid wallet address format"
  else
    value <- request (HeliusTokenAccounts address)
               (helius_token_accounts up address) ;;
    ret (match value with Null => Records [] | _ => value end).

Definition getAccountInfo (address : string) : M W AccountInfo :=
  if invalid_address address then throw "Invalid wallet address format"
  else request (HeliusAccountInfo address) (helius_account_info up address).

(** The prompt of [generateAIExplanation]; each run of line breaks and
    indentation of the template is written as one space. *)
Definition explanation_prompt (analysis : Analysis) (score : Z) : list piece :=
  [Lit "Analyze this Solana wallet's reputability based on real blockchain data: Wallet Metrics: - Flagged address interactions: ";
   Num (flaggedInteractions analysis);
   Lit " - Blacklisted program usage: "; Num (blacklistedProgramUsage analysis);
   Lit " - Large transfers (>10 SOL): "; Num (largeTransfers analysis);
   Lit " - Counterparty diversity: "; Fixed 1 (counterpartyDiversity analysis * 100);
   Lit "% - Staking activity ratio: "; Fixed 1 (stakingActivityRatio analysis * 100);
   Lit "% - Wallet age: "; Fixed 1 (walletAgeMonths analysis);
   Lit " months - Total transactions: "; Num (transactionCount analysis);
   Lit " - Recent activity: "; Num (recentTransactions analysis);
   Lit " transactions in last 30 days - Legitimate DeFi usage: ";
   Num (legitimateProgramUsage analysis);
   Lit " interactions - Unique programs used: "; Num (uniquePrograms analysis);
   Lit " Calculated reputability score: "; Num score;
   Lit "/100 Provide a clear, professional explanation (2-3 sentences) of this wallet's trustworthiness. Focus on the most significant factors that influenced the score, both positive and negative. Be specific about what the data reveals about the wallet's behavior patterns."].

Definition fallback_explanation (analysis : Analysis) (score : Z) : list piece :=
  if score >=? 80 then
    [Lit "This wallet demonstrates excellent reputability with a score of ";
     Num score;
     Lit "/100. The analysis shows no interactions with flagged addresses, consistent staking activity, and healthy transaction patterns across ";
     Num (counterpartyCount analysis); Lit " unique counterparties. The ";
     Fixed 1 (walletAgeMonths analysis); Lit "-month history and ";
     Num (legitimateProgramUsage analysis);
     Lit " verified DeFi interactions support its trustworthiness."]
  else if score >=? 60 then
    [Lit "This wallet shows good reputability with a score of "; Num score;
     Lit "/100. While there are "; Num (flaggedInteractions analysis);
     Lit " flagged interactions and "; Num (largeTransfers analysis);
     Lit " large transfers, the "; Num (stakingTransactions analysis);
     Lit " staking transactions and diverse counterparty interactions indicate legitimate usage patterns over ";
     Fixed 1 (walletAgeMonths analysis); Lit " months."]
  else
    [Lit "This wallet has concerning reputability indicators with a score of ";
     Num score; Lit "/100. The analysis reveals ";
     Num (flaggedInteractions analysis); Lit " flagged address interactions, ";
     Num (blacklistedProgramUsage analysis); Lit " blacklisted program usage, and ";
     Num (largeTransfers analysis);
     Lit " large transfers. The limited staking activity and ";
     Fixed 1 (walletAgeMonths analysis); Lit "-month age suggest elevated risk."].

(** [generateAIExplanation] *)
Definition generateAIExplanation (analysis : Analysis) (score : Z)
    : M W (list piece) :=
  try_catch
    (text <- request GenerateText
               (generate_text up (explanation_prompt analysis score)) ;;
     ret [Lit text])
    (fun _ => ret (fallback_explanation analysis score)).

(** The request body: unparsable, or an object whose [walletAddress]
    field is the given string (empty when absent). *)
Inductive Request : Type :=
| Unparsable (message : string)
| Body (walletAddress : string).

Record ScoreResult : Type := {
  score : Z;
  explanation : list piece;
  factors : list Factor;
  riskLevel : RiskLevel;
  recommendations : list string;
  walletAnalysis : Analysis
}.

Inductive Response : Type :=
| Json (body : ScoreResult)
| JsonError (status : Z) (error : string).

Definition request_json (req : Request) : M W string :=
  match req with
  | Unparsable message => throw message
  | Body walletAddress => ret walletAddress
  end.

(** [transactions.length] inside the first [try] block of [POST]. *)
Definition read_length {A} (payload : Payload A) : M W (Payload A) :=
  match payload with
  | Null => throw "Cannot read properties of null (reading 'length')"
  | _ => ret payload
  end.

(** The call of [analyzeWalletData] in [POST]: it throws on what it cannot
    read, and is [analyzeWalletData] on arrays of records. *)
Definition read_wallet_data (transactions : Payload HeliusTransaction)
    (tokenBalances : Payload TokenBalance) (accountInfo : option AccountInfo)
    (walletAddress : string) : M W Analysis :=
  now <- observe (date_now up) ;;
  match transactions, tokenBalances with
  | Records transactions, Records tokenBalances =>
      ret (analyzeWalletData now transactions tokenBalances accountInfo
             walletAddress)
  | _, _ => throw "TypeError"
  end.

(** [POST] *)
Definition POST (req : Request) : M W Response :=
  try_catch
    (walletAddress <- request_json req ;;
     if negb (truthy walletAddress) then
       ret (JsonError 400 "Wallet address is required")
     else if negb (address_regex_test walletAddress) then
       ret (JsonError 400 "Invalid wallet address format")
     else
       transactions <-
         try_catch (transactions <- getTransactionHistory walletAddress 100 ;;
                    read_length transactions)
                   (fun _ => ret (Records [])) ;;
       tokenBalances <-
         try_catch (getTokenBalances walletAddress) (fun _ => ret (Records [])) ;;
       accountInfo <-
         try_catch (info <- getAccountInfo walletAddress ;; ret (Some info))
                   (fun _ => ret None) ;;
       walletAnalysis <-
         read_wallet_data transactions tokenBalances accountInfo walletAddress ;;
       let '(score, factors) := calculateReputabilityScore walletAnalysis in
       explanation <- generateAIExplanation walletAnalysis score ;;
       let riskLevel := riskLevelOf score in
       let recommendations := generateRecommendations walletAnalysis score in
       ret (Json {| score := score;
                    explanation := explanation;
                    factors := factors;
                    riskLevel := riskLevel;
                    recommendations := recommendations;
                    walletAnalysis := walletAnalysis |}))
    (fun _ =>
       ret (JsonError 500 "Failed to generate reputability score. Please try again.")).

End Route.

End Reputability.

(** ** The fund-flow-analysis route *)

Module FundFlow.
Import JS Effects.
Local Open Scope effect_scope.

Inductive NodeType : Type :=
| developer | fund_source | exchange | whale | contract | unknown.

Inductive Direction : Type := incoming | outgoing | both.

(** The strings [determineFundFlowType] returns. *)
Inductive FlowType : Type :=
| flow_transfer | flow_token_transfer | flow_dex_trade | flow_staking
| flow_unknown.

Inductive LinkType : Type :=
| funding | withdrawal | link_exchange | contract_interaction.

Inductive LinkDirection : Type := to_developer | from_developer.

Definition NodeType_eqb (a b : NodeType) : bool :=
  match a, b with
  | developer, developer | fund_source, fund_source | exchange, exchange
  | whale, whale | contract, contract | unknown, unknown => true
  | _, _ => false
  end.

Definition Direction_eqb (a b : Direction) : bool :=
  match a, b with
  | incoming, incoming | outgoing, outgoing | both, both => true
  | _, _ => false
  end.

Definition FlowType_eqb (a b : FlowType) : bool :=
  match a, b with
  | flow_transfer, flow_transfer | flow_token_transfer, flow_token_transfer
  | flow_dex_trade, flow_dex_trade | flow_staking, flow_staking
  | flow_unknown, flow_unknown => true
  | _, _ => false
  end.

Definition RiskLevel_eqb (a b : RiskLevel) : bool :=
  match a, b with
  | low, low | medium, medium | high, high => true
  | _, _ => false
  end.

Record FundFlowNode : Type := {
  id : string;
  group : Z;
  value : Z;
  label : string;
  type : NodeType;
  amount : Z;
  transactionCount : Z;
  fundDirection : Direction;
  riskLevel : RiskLevel
}.

Record FundFlowLink : Type := {
  source : string;
  target : string;
  l_value : Z;
  l_amount : Z;
  l_type : LinkType;
  frequency : Z;
  direction : LinkDirection
}.

Record FundFlowData : Type := {
  nodes : list FundFlowNode;
  links : list FundFlowLink;
  totalFundsReceived : Z;
  totalFundsSent : Z;
  fundingSources : Z;
  riskScore : Z;
  suspiciousPatterns : list string
}.

(** *** Upstream transaction records *)

(** An account key is a string or an object with a [pubkey]. *)
Inductive AccountKey : Type :=
| KeyString (key : string)
| KeyObject (pubkey : string).

Definition key_address (key : AccountKey) : string :=
  match key with KeyString s => s | KeyObject p => p end.

Record RpcInstruction : Type := {
  programId : string;
  program : string
}.

Record Transaction : Type := {
  preBalances : list Z;
  postBalances : list Z;
  accountKeys : list AccountKey;
  instructions : list RpcInstruction
}.

Record SignatureInfo : Type := {
  signature : string;
  blockTime : Z
}.

(** *** The balance-delta extractor *)

Record Flow : Type := {
  f_address : string;
  f_amount : Z;
  f_type : FlowType;
  f_direction : Direction
}.

(** [balances[i] || 0] *)
Definition balance_at (balances : list Z) (i : nat) : Z := nth i balances 0.

(** [keys.findIndex(pred)], [None] for -1. *)
Fixpoint findIndex {A} (pred : A -> bool) (xs : list A) : option nat :=
  match xs with
  | [] => None
  | x :: rest =>
      if pred x then Some O
      else match findIndex pred rest with
           | Some i => Some (S i)
           | None => None
           end
  end.

(** [determineFundFlowType]: the first instruction that matches decides. *)
Fixpoint determineFundFlowType_loop (instrs : list RpcInstruction) : FlowType :=
  match instrs with
  | [] => flow_unknown
  | instruction :: rest =>
      let pid := if truthy (programId instruction)
                 then programId instruction else program instruction in
      if String.eqb pid "11111111111111111111111111111111" then flow_transfer
      else if String.eqb pid "TokenkegQfeZyiNwAJbNbGKPFXCWuBvf9Ss623VQ5DA"
      then flow_token_transfer
      else if String.eqb pid "9xQeWvG816bUx9EPjHmaT23yvVM2ZWbrrpZb9PusVFin"
      then flow_dex_trade
      else if includes "Stake" pid then flow_staking
      else determineFundFlowType_loop rest
  end.

Definition determineFundFlowType (tx : Transaction) (address : string) : FlowType :=
  determineFundFlowType_loop (instructions tx).

(** One iteration of the loop over the account keys. *)
Definition analyzeFundFlow_step (tx : Transaction) (developerIndex : nat)
    (developerBalanceChange : Z) (flows : list Flow) (i : nat) : list Flow :=
  if negb (Nat.eqb i developerIndex) then
    let address := key_address (nth i (accountKeys tx) (KeyString "")) in
    let balanceChange :=
      balance_at (postBalances tx) i - balance_at (preBalances tx) i in
    if Z.abs balanceChange >? 10000 then
      let direction := if developerBalanceChange >? 0 then incoming else outgoing in
      push flows {| f_address := address;
                    f_amount := Z.abs balanceChange;
                    f_type := determineFundFlowType tx address;
                    f_direction := direction |}
    else flows
  else flows.

(** [analyzeFundFlow]; on records of this shape nothing inside its
    [try] block throws. *)
Definition analyzeFundFlow (tx : Transaction) (developerAddress : string)
    : list Flow :=
  match findIndex (fun key => String.eqb (key_address key) developerAddress)
                  (accountKeys tx) with
  | None => []
  | Some developerIndex =>
      let developerBalanceChange :=
        balance_at (postBalances tx) developerIndex -
        balance_at (preBalances tx) developerIndex in
      fold_left (analyzeFundFlow_step tx developerIndex developerBalanceChange)
                (seq 0 (List.length (accountKeys tx))) []
  end.

(** *** Classification *)

Definition exchanges : list string :=
  [ "5Q544fKrFoe6tsEbD7S8EmxGTJYAKtTVhAW5Q5pge4j1";
    "9WzDXwBbmkg8ZTbNMqUxvQRAyrZzDsGYdLVL9zYtAWWM";
    "2ojv9BAiHUrvsm9gxDe7fJSzbNZSJcxZvf8dqmWGHG8S" ].

Definition SOL : Z := 1000000000.

(** [classifyFundSource] *)
Definition classifyFundSource (address : string) (flowType : FlowType)
    (amount : Z) : NodeType :=
  if has exchanges address then exchange
  else if amount >? 10 * SOL then whale
  else if FlowType_eqb flowType flow_dex_trade then exchange
  else if FlowType_eqb flowType flow_staking then contract
  else if FlowType_eqb flowType flow_token_transfer then contract
  else if (String.length address =? 44)%nat &&
          (includes "1111" address || startsWith "So1" address) then contract
  else fund_source.

(** [classifyFlowType] *)
Definition classifyFlowType (type : FlowType) : LinkType :=
  match type with
  | flow_transfer => funding
  | flow_dex_trade => link_exchange
  | flow_token_transfer => contract_interaction
  | flow_staking => contract_interaction
  | flow_unknown => funding
  end.

Definition safeAddresses : list string := exchanges.

(** [assessAddressRisk] *)
Definition assessAddressRisk (address : string) (amount : Z) (type : FlowType)
    : RiskLevel :=
  if has safeAddresses address then low
  else if (amount >? 100 * SOL) && FlowType_eqb type flow_unknown then high
  else if amount >? 10 * SOL then medium
  else low.

Definition labels : list (string * string) :=
  [ ("5Q544fKrFoe6tsEbD7S8EmxGTJYAKtTVhAW5Q5pge4j1", "Binance");
    ("9WzDXwBbmkg8ZTbNMqUxvQRAyrZzDsGYdLVL9zYtAWWM", "FTX");
    ("2ojv9BAiHUrvsm9gxDe7fJSzbNZSJcxZvf8dqmWGHG8S", "Coinbase");
    ("So11111111111111111111111111111111111111112", "Wrapped SOL");
    ("11111111111111111111111111111111", "System Program");
    ("9xQeWvG816bUx9EPjHmaT23yvVM2ZWbrrpZb9PusVFin", "Serum DEX");
    ("TokenkegQfeZyiNwAJbNbGKPFXCWuBvf9Ss623VQ5DA", "Token Program") ].

(** [getAddressLabel] *)
Definition getAddressLabel (address : string) : option string :=
  match find (fun entry => String.eqb (fst entry) address) labels with
  | Some entry => Some (snd entry)
  | None => None
  end.

(** [nodeType.toUpperCase()] *)
Definition toUpperCase (t : NodeType) : string :=
  match t with
  | developer => "DEVELOPER"
  | fund_source => "FUND_SOURCE"
  | exchange => "EXCHANGE"
  | whale => "WHALE"
  | contract => "CONTRACT"
  | unknown => "UNKNOWN"
  end.

(** [a || b] on an optional string. *)
Definition or_else (a : option string) (b : string) : string :=
  match a with
  | Some s => if truthy s then s else b
  | None => b
  end.

(** *** The flow aggregator *)

Record SourceData : Type := {
  s_amount : Z;
  s_count : Z;
  s_type : FlowType;
  s_lastSeen : Z;
  s_direction : Direction;
  s_riskLevel : RiskLevel
}.

(** [Map<string, SourceData>], in insertion order. *)
Definition SourceMap : Type := list (string * SourceData).

Fixpoint map_get (key : string) (m : SourceMap) : option SourceData :=
  match m with
  | [] => None
  | (k, v) :: rest => if String.eqb k key then Some v else map_get key rest
  end.

(** Mutating the object stored under [key] in place. *)
Fixpoint map_modify (key : string) (f : SourceData -> SourceData)
    (m : SourceMap) : SourceMap :=
  match m with
  | [] => []
  | (k, v) :: rest =>
      if String.eqb k key then (k, f v) :: rest
      else (k, v) :: map_modify key f rest
  end.

(** [m.set(key, v)]: an existing key keeps its place, a new one goes last. *)
Definition map_set (key : string) (v : SourceData) (m : SourceMap) : SourceMap :=
  match map_get key m with
  | Some _ => map_modify key (fun _ => v) m
  | None => push m (key, v)
  end.

Record Tally : Type := {
  fundSources : SourceMap;
  t_received : Z;
  t_sent : Z
}.

(** The body of [fundFlow.flows.forEach] in [analyzeFundFlows]. *)
Definition record_flow (sigBlockTime : Z) (t : Tally) (flow : Flow) : Tally :=
  let sources :=
    match map_get (f_address flow) (fundSources t) with
    | Some _ =>
        map_modify (f_address flow)
          (fun existing =>
             {| s_amount := s_amount existing + f_amount flow;
                s_count := s_count existing + 1;
                s_type := s_type existing;
                s_lastSeen := Math_max (s_lastSeen existing) sigBlockTime;
                s_direction :=
                  if negb (Direction_eqb (s_direction existing) (f_direction flow))
                  then both else s_direction existing;
                s_riskLevel := s_riskLevel existing |})
          (fundSources t)
    | None =>
        map_set (f_address flow)
          {| s_amount := f_amount flow;
             s_count := 1;
             s_type := f_type flow;
             s_lastSeen := sigBlockTime;
             s_direction := f_direction flow;
             s_riskLevel :=
               assessAddressRisk (f_address flow) (f_amount flow) (f_type flow) |}
          (fundSources t)
    end in
  if Direction_eqb (f_direction flow) incoming then
    {| fundSources := sources;
       t_received := t_received t + f_amount flow;
       t_sent := t_sent t |}
  else
    {| fundSources := sources;
       t_received := t_received t;
       t_sent := t_sent t + f_amount flow |}.

Record Graph : Type := {
  g_nodes : list FundFlowNode;
  g_links : list FundFlowLink;
  g_nodeIndex : Z;
  g_fundingSources : Z
}.

(** Whether an aggregated counterparty is emitted as a node. *)
Definition material (developerAddress : string) (entry : string * SourceData)
    : bool :=
  (s_amount (snd entry) >? 1000000) &&
  negb (String.eqb (fst entry) developerAddress).

(** The body of [fundSources.forEach] in [analyzeFundFlows]. *)
Definition emit_source (developerAddress : string) (g : Graph)
    (entry : string * SourceData) : Graph :=
  let address := fst entry in
  let data := snd entry in
  if material developerAddress entry then
    let nodeType := classifyFundSource address (s_type data) (s_amount data) in
    let is_in := Direction_eqb (s_direction data) incoming in
    {| g_nodes :=
         push (g_nodes g)
           {| id := address;
              group := g_nodeIndex g;
              value := s_count data;
              label := or_else (getAddressLabel address) (toUpperCase nodeType);
              type := nodeType;
              amount := s_amount data;
              transactionCount := s_count data;
              fundDirection := s_direction data;
              riskLevel := s_riskLevel data |};
       g_links :=
         push (g_links g)
           {| source := if is_in then address else developerAddress;
              target := if is_in then developerAddress else address;
              l_value := s_count data;
              l_amount := s_amount data;
              l_type := classifyFlowType (s_type data);
              frequency := s_count data;
              direction := if is_in then to_developer else from_developer |};
       g_nodeIndex := g_nodeIndex g + 1;
       g_fundingSources :=
         if is_in then g_fundingSources g + 1 else g_fundingSources g |}
  else g.

Definition developer_node (developerAddress : string) : FundFlowNode :=
  {| id := developerAddress;
     group := 0;
     value := 0;
     label := "Developer";
     type := developer;
     amount := 0;
     transactionCount := 0;
     fundDirection := both;
     riskLevel := medium |}.

(** Mutating the first node [nodes.find] returns, if there is one. *)
Fixpoint update_found (pred : FundFlowNode -> bool)
    (f : FundFlowNode -> FundFlowNode) (ns : list FundFlowNode)
    : list FundFlowNode :=
  match ns with
  | [] => []
  | n :: rest => if pred n then f n :: rest else n :: update_found pred f rest
  end.

(** *** The pattern detector and the fund-flow risk score *)

(** [detectSuspiciousPatterns] *)
Definition detectSuspiciousPatterns (nodes : list FundFlowNode)
    (links : list FundFlowLink) (totalReceived totalSent : Z) : list string :=
  let patterns : list string := [] in
  let incomingNodes :=
    filter (fun n => Direction_eqb (fundDirection n) incoming &&
                     negb (NodeType_eqb (type n) developer)) nodes in
  let outgoingNodes :=
    filter (fun n => Direction_eqb (fundDirection n) outgoing &&
                     negb (NodeType_eqb (type n) developer)) nodes in
  let commonAddresses :=
    filter (fun incoming =>
              existsb (fun outgoing => String.eqb (id outgoing) (id incoming))
                      outgoingNodes)
           incomingNodes in
  let patterns :=
    if (0 <? List.length commonAddresses)%nat
    then push patterns "Circular funding detected" else patterns in
  let patterns :=
    if double_gtb (double_of_Z totalSent)
                  (double_mul (double_of_Z totalReceived) double_0_8) &&
       (totalSent >? 5 * SOL)
    then push patterns "Potential wash trading" else patterns in
  let unknownSources :=
    filter (fun n => NodeType_eqb (type n) unknown && (amount n >? 1 * SOL)) nodes in
  let patterns :=
    if (3 <? List.length unknownSources)%nat
    then push patterns "Multiple unknown funding sources" else patterns in
  let highFrequencyLinks := filter (fun l => frequency l >? 20) links in
  let patterns :=
    if (2 <? List.length highFrequencyLinks)%nat
    then push patterns "High frequency transactions" else patterns in
  let exchangeNodes := filter (fun n => NodeType_eqb (type n) exchange) nodes in
  let patterns :=
    if (List.length exchangeNodes =? 0)%nat && (totalReceived >? 10 * SOL)
    then push patterns "No exchange funding detected" else patterns in
  patterns.

Definition count {A} (pred : A -> bool) (xs : list A) : Z :=
  Z.of_nat (List.length (filter pred xs)).

(** [calculateFundFlowRiskScore] *)
Definition calculateFundFlowRiskScore (nodes : list FundFlowNode)
    (links : list FundFlowLink) (totalReceived totalSent : Z)
    (suspiciousPatterns : list string) : Z :=
  let score := 30 in
  let score := score + Z.of_nat (List.length suspiciousPatterns) * 15 in
  let exchangeNodes := count (fun n => NodeType_eqb (type n) exchange) nodes in
  let score :=
    if (exchangeNodes =? 0) && (totalReceived >? 10 * SOL)
    then score + 20 else score in
  let unknownSources := count (fun n => NodeType_eqb (type n) unknown) nodes in
  let score := score + unknownSources * 5 in
  let highRiskNodes := count (fun n => RiskLevel_eqb (riskLevel n) high) nodes in
  let score := score + highRiskNodes * 10 in
  let whaleNodes := count (fun n => NodeType_eqb (type n) whale) nodes in
  let score := if whaleNodes >? 2 then score + 10 else score in
  let score := score - exchangeNodes * 8 in
  let contractNodes := count (fun n => NodeType_eqb (type n) contract) nodes in
  let score :=
    if (contractNodes >? 0) && (contractNodes <? 5) then score - 5 else score in
  Math_max 0 (Math_min 100 score).

(** *** Upstream RPC helpers *)

(** The value of [data.result || []] after a signatures request: an array
    of signature records; a non-empty string, which has [slice] and
    [length] as an array has; or some other truthy value (a number, true,
    an object), which has no [slice] method.  An array with an entry that
    is not a record (null, for one, on which reading [signature] throws
    inside the loop's own [try]) is outside the model. *)
Inductive Signatures : Type :=
| SigArray (sigs : list SignatureInfo)
| SigString (text : string)
| SigOther.

(** What a [for ... of] loop over a string yields: one item for each
    character, a string of length one, which has neither a [signature] nor
    a [blockTime]; the model writes the missing signature as the empty
    string and the missing block time, read as [sig.blockTime || 0], as 0.
    The characters of the model's strings are single UTF-16 code units, so
    that [slice], which counts code units, and the loop, which reads code
    points, agree; a string with surrogate pairs is outside the model. *)
Definition string_items (text : string) : list SignatureInfo :=
  map (fun _ => {| signature := ""; blockTime := 0 |}) (list_ascii_of_string text).

(** The RPC endpoint.  A signatures reply carries [data.result], [None]
    when it is missing or falsy; a transaction reply carries [data.result],
    [None] when it is null. *)
Record Upstream (W : Type) : Type := {
  rpc_signatures : string -> Z -> W -> Reply (option Signatures) * W;
  rpc_transaction : string -> W -> Reply (option Transaction) * W
}.
Arguments rpc_signatures {W} _.
Arguments rpc_transaction {W} _.

Record SecondaryFlow : Type := {
  sf_address : string;
  sf_amount : Z;
  sf_count : Z;
  sf_type : FlowType;
  sf_direction : Direction
}.

(** The body of [analysis.flows.forEach] in [getSecondaryFundFlows]. *)
Fixpoint merge_secondary (flows : list SecondaryFlow) (flow : Flow)
    : list SecondaryFlow :=
  match flows with
  | [] =>
      [ {| sf_address := f_address flow;
           sf_amount := f_amount flow;
           sf_count := 1;
           sf_type := f_type flow;
           sf_direction := f_direction flow |} ]
  | existing :: rest =>
      if String.eqb (sf_address existing) (f_address flow) then
        {| sf_address := sf_address existing;
           sf_amount := sf_amount existing + f_amount flow;
           sf_count := sf_count existing + 1;
           sf_type := sf_type existing;
           sf_direction :=
             if negb (Direction_eqb (sf_direction existing) (f_direction flow))
             then both else sf_direction existing |} :: rest
      else existing :: merge_secondary rest flow
  end.

(** The body of [secondaryFlows.forEach] in [analyzeFundFlows]; [acc] is
    the node and link arrays together with the running index. *)
Definition add_secondary (sourceId : string)
    (acc : list FundFlowNode * list FundFlowLink * nat) (flow : SecondaryFlow)
    : list FundFlowNode * list FundFlowLink * nat :=
  let '(nodes, links, index) := acc in
  if negb (existsb (fun n => String.eqb (id n) (sf_address flow)) nodes) &&
     (index <? 2)%nat
  then
    let is_in := Direction_eqb (sf_direction flow) incoming in
    (push nodes
       {| id := sf_address flow;
          group := 200 + Z.of_nat index;
          value := sf_count flow;
          label := or_else (getAddressLabel (sf_address flow)) "Secondary";
          type := classifyFundSource (sf_address flow) (sf_type flow) (sf_amount flow);
          amount := sf_amount flow;
          transactionCount := sf_count flow;
          fundDirection := sf_direction flow;
          riskLevel :=
            assessAddressRisk (sf_address flow) (sf_amount flow) (sf_type flow) |},
     push links
       {| source := if is_in then sf_address flow else sourceId;
          target := if is_in then sourceId else sf_address flow;
          l_value := sf_count flow;
          l_amount := sf_amount flow;
          l_type := funding;
          frequency := sf_count flow;
          direction := if is_in then to_developer else from_developer |},
     S index)
  else (nodes, links, S index).

Definition tally0 : Tally :=
  {| fundSources := []; t_received := 0; t_sent := 0 |}.

(** What [analyzeFundFlows] holds once the aggregation map has been turned
    into nodes and links, the developer node updated, and the patterns and
    the risk score computed; the secondary connections come after. *)
Record Primary : Type := {
  p_nodes : list FundFlowNode;
  p_links : list FundFlowLink;
  p_fundingSources : Z;
  p_suspiciousPatterns : list string;
  p_riskScore : Z
}.

Definition primary_graph (developerAddress : string) (signaturesLength : Z)
    (tally : Tally) : Primary :=
  let totalFundsReceived := t_received tally in
  let totalFundsSent := t_sent tally in
  let g :=
    fold_left (emit_source developerAddress) (fundSources tally)
      {| g_nodes := [developer_node developerAddress]; g_links := [];
         g_nodeIndex := 1; g_fundingSources := 0 |} in
  let fundingSources := g_fundingSources g in
  let nodes :=
    update_found (fun n => String.eqb (id n) developerAddress)
      (fun n =>
         {| id := id n; group := group n; value := fundingSources;
            label := label n; type := type n;
            amount := totalFundsReceived + totalFundsSent;
            transactionCount := signaturesLength;
            fundDirection := fundDirection n; riskLevel := riskLevel n |})
      (g_nodes g) in
  let links := g_links g in
  let suspiciousPatterns :=
    detectSuspiciousPatterns nodes links totalFundsReceived totalFundsSent in
  {| p_nodes := nodes;
     p_links := links;
     p_fundingSources := fundingSources;
     p_suspiciousPatterns := suspiciousPatterns;
     p_riskScore :=
       calculateFundFlowRiskScore nodes links totalFundsReceived totalFundsSent
         suspiciousPatterns |}.

(** The response built in the [catch] block of [analyzeFundFlows]. *)
Definition minimal_data (developerAddress : string) : FundFlowData :=
  {| nodes := [developer_node developerAddress];
     links := [];
     totalFundsReceived := 0;
     totalFundsSent := 0;
     fundingSources := 0;
     riskScore := 50;
     suspiciousPatterns := ["Unable to analyze fund flows"] |}.

Section Route.
Context {W : Type} (up : Upstream W).

(** [getSignaturesForAddress] *)
Definition getSignaturesForAddress (address : string) (limit : Z)
    : M W Signatures :=
  try_catch
    (result <- request (RpcGetSignaturesForAddress address limit)
                 (rpc_signatures up address limit) ;;
     ret (match result with
          | Some signatures => signatures
          | None => SigArray []
          end))
    (fun _ => ret (SigArray [])).

(** [getTransaction] *)
Definition getTransaction (signature : string) : M W (option Transaction) :=
  try_catch
    (request (RpcGetTransaction signature) (rpc_transaction up signature))
    (fun _ => ret None).

(** [signatures.slice(0, n)] *)
Definition slice_signatures (n : nat) (signatures : Signatures)
    : M W (list SignatureInfo) :=
  match signatures with
  | SigArray sigs => ret (slice0 n sigs)
  | SigString text => ret (slice0 n (string_items text))
  | SigOther => throw "signatures.slice is not a function"
  end.

(** [signatures.length] of an array or a string. *)
Definition signatures_length (signatures : Signatures) : Z :=
  match signatures with
  | SigArray sigs => Z.of_nat (List.length sigs)
  | SigString text => Z.of_nat (String.length text)
  | SigOther => 0
  end.

(** [getSecondaryFundFlows] *)
Definition getSecondaryFundFlows (address : string) (limit : Z)
    : M W (list SecondaryFlow) :=
  try_catch
    (signatures <- getSignaturesForAddress address limit ;;
     sigs <- slice_signatures 3 signatures ;;
     flows <-
       for_each sigs
         (fun flows sig =>
            try_catch
              (tx <- getTransaction (signature sig) ;;
               match tx with
               | None => ret flows
               | Some tx =>
                   ret (fold_left merge_secondary (analyzeFundFlow tx address) flows)
               end)
              (fun _ => ret flows))
         [] ;;
     ret (slice0 2 (filter (fun f => sf_amount f >? 100000000) flows)))
    (fun _ => ret []).

(** The loop over [signatures.slice(0, 100)] that fills [fundSources]
    and the two totals. *)
Definition aggregate (developerAddress : string) (sigs : list SignatureInfo)
    : M W Tally :=
  for_each sigs
    (fun tally sig =>
       try_catch
         (tx <- getTransaction (signature sig) ;;
          match tx with
          | None => ret tally
          | Some tx =>
              ret (fold_left (record_flow (blockTime sig))
                             (analyzeFundFlow tx developerAddress) tally)
          end)
         (fun _ => ret tally))
    tally0.

(** The loop over [majorSources] that adds secondary connections. *)
Definition expand_secondary (nodes : list FundFlowNode)
    (links : list FundFlowLink)
    : M W (list FundFlowNode * list FundFlowLink) :=
  let majorSources :=
    slice0 3 (filter (fun n => negb (NodeType_eqb (type n) developer) &&
                               (amount n >? 1 * SOL)) nodes) in
  for_each majorSources
    (fun graph source =>
       try_catch
         (secondaryFlows <- getSecondaryFundFlows (id source) 5 ;;
          let '(nodes, links, _) :=
            fold_left (add_secondary (id source)) secondaryFlows
                      (fst graph, snd graph, O) in
          ret (nodes, links))
         (fun _ => ret graph))
    (nodes, links).

(** The [try] block of [analyzeFundFlows]. *)
Definition analyzeFundFlows_body (developerAddress : string) : M W FundFlowData :=
  signatures <- getSignaturesForAddress developerAddress 200 ;;
  sigs <- slice_signatures 100 signatures ;;
  tally <- aggregate developerAddress sigs ;;
  let p := primary_graph developerAddress (signatures_length signatures) tally in
  graph <- expand_secondary (p_nodes p) (p_links p) ;;
  ret {| nodes := slice0 30 (fst graph);
         links := slice0 50 (snd graph);
         totalFundsReceived := t_received tally;
         totalFundsSent := t_sent tally;
         fundingSources := p_fundingSources p;
         riskScore := p_riskScore p;
         suspiciousPatterns := slice0 5 (p_suspiciousPatterns p) |}.

(** [analyzeFundFlows] *)
Definition analyzeFundFlows (developerAddress : string) : M W FundFlowData :=
  try_catch (analyzeFundFlows_body developerAddress)
            (fun _ => ret (minimal_data developerAddress)).

Inductive Request : Type :=
| Unparsable (message : string)
| Body (developerAddress : string).

Inductive Response : Type :=
| Json (body : FundFlowData)
| JsonError (status : Z) (error : string).

Definition request_json (req : Request) : M W string :=
  match req with
  | Unparsable message => throw message
  | Body developerAddress => ret developerAddress
  end.

(** [POST] *)
Definition POST (req : Request) : M W Response :=
  try_catch
    (developerAddress <- request_json req ;;
     if negb (truthy developerAddress) then
       ret (JsonError 400 "Developer address is required")
     else
       fundFlowData <- analyzeFundFlows developerAddress ;;
       ret (Json fundFlowData))
    (fun message => ret (JsonError 500 message)).

End Route.

End FundFlow.

(** ** The developer-network route

    The route has its own copies of [getSignaturesForAddress] and
    [getTransaction], with the same bodies as those of the fund-flow route;
    the embedding shares them. *)

Module DeveloperNetwork.
Import JS Effects.
Local Open Scope effect_scope.

Inductive NodeType : Type := developer | wallet | exchange | contract.

Record DeveloperNode : Type := {
  id : string;
  group : Z;
  value : Z;
  label : list piece;
  type : NodeType;
  amount : Z
}.

Inductive LinkType : Type := funding | deployment | transfer | creation.

Record DeveloperLink : Type := {
  source : string;
  target : string;
  l_value : Z;
  l_amount : Z;
  l_type : LinkType
}.

Record DeveloperFlowData : Type := {
  nodes : list DeveloperNode;
  links : list DeveloperLink;
  totalFunding : Z;
  fundingSources : Z
}.

Record Connection : Type := {
  c_source : string;
  c_amount : Z
}.

(** The search for the connected address in [analyzeConnectionTransaction]. *)
Fixpoint first_changed (tx : FundFlow.Transaction) (targetIndex : nat)
    (indices : list nat) : option string :=
  match indices with
  | [] => None
  | i :: rest =>
      if negb (Nat.eqb i targetIndex) &&
         (Z.abs (FundFlow.balance_at (FundFlow.preBalances tx) i -
                 FundFlow.balance_at (FundFlow.postBalances tx) i) >? 0)
      then Some (FundFlow.key_address
                   (nth i (FundFlow.accountKeys tx) (FundFlow.KeyString "")))
      else first_changed tx targetIndex rest
  end.

(** [analyzeConnectionTransaction] *)
Definition analyzeConnectionTransaction (tx : FundFlow.Transaction)
    (targetAddress : string) : Connection :=
  let none := {| c_source := ""; c_amount := 0 |} in
  match FundFlow.findIndex
          (fun key => String.eqb (FundFlow.key_address key) targetAddress)
          (FundFlow.accountKeys tx) with
  | None => none
  | Some targetIndex =>
      let balanceChange :=
        Z.abs (FundFlow.balance_at (FundFlow.postBalances tx) targetIndex -
               FundFlow.balance_at (FundFlow.preBalances tx) targetIndex) in
      if balanceChange >? 0 then
        match first_changed tx targetIndex
                (seq 0 (List.length (FundFlow.accountKeys tx))) with
        | Some sourceAddress =>
            {| c_source := sourceAddress; c_amount := balanceChange |}
        | None => none
        end
      else none
  end.

(** [classifyAddress] *)
Definition classifyAddress (address : string) : NodeType :=
  if has FundFlow.exchanges address then exchange
  else if (String.length address =? 44)%nat && includes "1111" address then contract
  else if startsWith "So1" address then contract
  else if startsWith "11111" address then contract
  else wallet.

Definition labels : list (string * string) :=
  [ ("5Q544fKrFoe6tsEbD7S8EmxGTJYAKtTVhAW5Q5pge4j1", "Binance");
    ("9WzDXwBbmkg8ZTbNMqUxvQRAyrZzDsGYdLVL9zYtAWWM", "FTX");
    ("2ojv9BAiHUrvsm9gxDe7fJSzbNZSJcxZvf8dqmWGHG8S", "Coinbase");
    ("So11111111111111111111111111111111111111112", "Wrapped SOL");
    ("11111111111111111111111111111111", "System Program") ].

(** [getAddressLabel] *)
Definition getAddressLabel (address : string) : option string :=
  match find (fun entry => String.eqb (fst entry) address) labels with
  | Some entry => Some (snd entry)
  | None => None
  end.

Record ConnectionSource : Type := {
  cs_address : string;
  cs_amount : Z;
  cs_transactionCount : Z;
  cs_type : NodeType;
  cs_label : option string
}.

(** Adding one connection to [sources] in [getDeveloperConnections]. *)
Fixpoint add_connection (sources : list ConnectionSource) (info : Connection)
    : list ConnectionSource :=
  match sources with
  | [] =>
      [ {| cs_address := c_source info;
           cs_amount := c_amount info;
           cs_transactionCount := 1;
           cs_type := classifyAddress (c_source info);
           cs_label := getAddressLabel (c_source info) |} ]
  | existingSource :: rest =>
      if String.eqb (cs_address existingSource) (c_source info) then
        {| cs_address := cs_address existingSource;
           cs_amount := cs_amount existingSource + c_amount info;
           cs_transactionCount := cs_transactionCount existingSource + 1;
           cs_type := cs_type existingSource;
           cs_label := cs_label existingSource |} :: rest
      else existingSource :: add_connection rest info
  end.

Record Connections : Type := {
  sources : list ConnectionSource;
  totalActivity : Z
}.

Definition developer_node (developerAddress : string) : DeveloperNode :=
  {| id := developerAddress;
     group := 0;
     value := 0;
     label := [Lit "Developer"];
     type := developer;
     amount := 0 |}.

(** The body of [developerConnections.sources.forEach]. *)
Definition add_source (developerAddress : string) (acc : DeveloperFlowData * Z)
    (source : ConnectionSource) : DeveloperFlowData * Z :=
  let (d, index) := acc in
  ({| nodes :=
        push (nodes d)
          {| id := cs_address source;
             group := 1 + index;
             value := cs_transactionCount source;
             label :=
               match cs_label source with
               | Some l => if truthy l then [Lit l]
                           else [Lit "Connection "; Num (index + 1)]
               | None => [Lit "Connection "; Num (index + 1)]
               end;
             type := cs_type source;
             amount := cs_amount source |};
      links :=
        push (links d)
          {| source := cs_address source;
             target := developerAddress;
             l_value := cs_transactionCount source;
             l_amount := cs_amount source;
             l_type := funding |};
      totalFunding := totalFunding d + cs_amount source;
      fundingSources := fundingSources d + 1 |},
   index + 1).

(** Mutating the first node [nodes.find] returns, if there is one. *)
Fixpoint update_found (pred : DeveloperNode -> bool)
    (f : DeveloperNode -> DeveloperNode) (ns : list DeveloperNode)
    : list DeveloperNode :=
  match ns with
  | [] => []
  | n :: rest => if pred n then f n :: rest else n :: update_found pred f rest
  end.

(** The response built in the [catch] block of [analyzeDeveloperNetwork]. *)
Definition minimal_data (developerAddress : string) : DeveloperFlowData :=
  {| nodes := [developer_node developerAddress];
     links := [];
     totalFunding := 0;
     fundingSources := 0 |}.

Section Route.
Context {W : Type} (up : FundFlow.Upstream W).

(** [getDeveloperConnections] *)
Definition getDeveloperConnections (developerAddress : string)
    : M W Connections :=
  try_catch
    (signatures <- FundFlow.getSignaturesForAddress up developerAddress 50 ;;
     sigs <- FundFlow.slice_signatures 20 signatures ;;
     found <-
       for_each sigs
         (fun found sig =>
            try_catch
              (tx <- FundFlow.getTransaction up (FundFlow.signature sig) ;;
               match tx with
               | None => ret found
               | Some tx =>
                   let connectionInfo :=
                     analyzeConnectionTransaction tx developerAddress in
                   if c_amount connectionInfo >? 0 then
                     ret {| sources := add_connection (sources found) connectionInfo;
                            totalActivity :=
                              totalActivity found + c_amount connectionInfo |}
                   else ret found
               end)
              (fun _ => ret found))
         {| sources := []; totalActivity := 0 |} ;;
     ret {| sources := slice0 10 (sources found);
            totalActivity := totalActivity found |})
    (fun _ => ret {| sources := []; totalActivity := 0 |}).

(** The [try] block of [analyzeDeveloperNetwork]. *)
Definition analyzeDeveloperNetwork_body (developerAddress : string)
    : M W DeveloperFlowData :=
  developerConnections <- getDeveloperConnections developerAddress ;;
  let (d, _) :=
    fold_left (add_source developerAddress) (sources developerConnections)
      ({| nodes := [developer_node developerAddress];
          links := [];
          totalFunding := 0;
          fundingSources := 0 |}, 0) in
  ret {| nodes :=
           update_found (fun n => String.eqb (id n) developerAddress)
             (fun n =>
                {| id := id n; group := group n;
                   value := Z.of_nat (List.length (sources developerConnections));
                   label := label n; type := type n;
                   amount := totalActivity developerConnections |})
             (nodes d);
         links := links d;
         totalFunding := totalFunding d;
         fundingSources := fundingSources d |}.

(** [analyzeDeveloperNetwork] *)
Definition analyzeDeveloperNetwork (developerAddress : string)
    : M W DeveloperFlowData :=
  try_catch (analyzeDeveloperNetwork_body developerAddress)
            (fun _ => ret (minimal_data developerAddress)).

End Route.

End DeveloperNetwork.

(** ** The fund-sources route

    The route has its own copies of [getSignaturesForAddress] and
    [getTransaction], with the same bodies as those of the fund-flow route;
    the embedding shares them.  A missing or null [deployerAddress] is the
    empty string. *)

Module FundSources.
Import JS Effects.
Local Open Scope effect_scope.

(** The node types; [funder] stands for the string "source". *)
Inductive NodeType : Type := mint | deployer | funder | exchange | whale | contract.

Record FundNode : Type := {
  id : string;
  group : Z;
  value : Z;
  label : list piece;
  type : NodeType;
  amount : Z
}.

Inductive LinkType : Type := funding | deployment | transfer | creation.


Record FundLink : Type := {
  source : string;
  target : string;
  l_value : Z;
  l_amount : Z;
  l_type : LinkType
}.

Record FundFlowData : Type := {
  nodes : list FundNode;
  links : list FundLink;
  totalFunding : Z;
  fundingSources : Z
}.

Record FundingInfo : Type := {
  fi_source : string;
  fi_amount : Z
}.

(** The search for the funding account in [analyzeFundingTransaction]:
    the first other account whose balance fell by the target's gain, up to
    a fee of less than 1000 lamports. *)
Fixpoint first_payer (tx : FundFlow.Transaction) (targetIndex : nat)
    (balanceChange : Z) (indices : list nat) : option string :=
  match indices with
  | [] => None
  | i :: rest =>
      let sourceChange :=
        FundFlow.balance_at (FundFlow.preBalances tx) i -
        FundFlow.balance_at (FundFlow.postBalances tx) i in
      if negb (Nat.eqb i targetIndex) &&
         ((sourceChange >? 0) && (Z.abs (sourceChange - balanceChange) <? 1000))
      then Some (FundFlow.key_address
                   (nth i (FundFlow.accountKeys tx) (FundFlow.KeyString "")))
      else first_payer tx targetIndex balanceChange rest
  end.

(** [analyzeFundingTransaction] *)
Definition analyzeFundingTransaction (tx : FundFlow.Transaction)
    (targetAddress : string) : FundingInfo :=
  let none := {| fi_source := ""; fi_amount := 0 |} in
  match FundFlow.findIndex
          (fun key => String.eqb (FundFlow.key_address key) targetAddress)
          (FundFlow.accountKeys tx) with
  | None => none
  | Some targetIndex =>
      let balanceChange :=
        FundFlow.balance_at (FundFlow.postBalances tx) targetIndex -
        FundFlow.balance_at (FundFlow.preBalances tx) targetIndex in
      if balanceChange >? 0 then
        match first_payer tx targetIndex balanceChange
                (seq 0 (List.length (FundFlow.accountKeys tx))) with
        | Some sourceAddress =>
            {| fi_source := sourceAddress; fi_amount := balanceChange |}
        | None => none
        end
      else none
  end.

Definition exchanges : list string :=
  [ "5Q544fKrFoe6tsEbD7S8EmxGTJYAKtTVhAW5Q5pge4j1";
    "9WzDXwBbmkg8ZTbNMqUxvQRAyrZzDsGYdLVL9zYtAWWM";
    "2ojv9BAiHUrvsm9gxDe7fJSzbNZSJcxZvf8dqmWGHG8S" ].

(** [classifyAddress] *)
Definition classifyAddress (address : string) : NodeType :=
  if has exchanges address then exchange
  else if (String.length address =? 44)%nat && includes "1111" address then contract
  else if startsWith "So1" address then contract
  else if startsWith "11111" address then contract
  else funder.

Definition labels : list (string * string) :=
  [ ("5Q544fKrFoe6tsEbD7S8EmxGTJYAKtTVhAW5Q5pge4j1", "Binance");
    ("9WzDXwBbmkg8ZTbNMqUxvQRAyrZzDsGYdLVL9zYtAWWM", "FTX");
    ("2ojv9BAiHUrvsm9gxDe7fJSzbNZSJcxZvf8dqmWGHG8S", "Coinbase");
    ("So11111111111111111111111111111111111111112", "Wrapped SOL");
    ("11111111111111111111111111111111", "System Program") ].

(** [getAddressLabel] *)
Definition getAddressLabel (address : string) : option string :=
  match find (fun entry => String.eqb (fst entry) address) labels with
  | Some entry => Some (snd entry)
  | None => None
  end.

Record FundingSource : Type := {
  s_address : string;
  s_amount : Z;
  s_transactionCount : Z;
  s_type : NodeType;
  s_label : option string
}.

(** Adding one funding to [sources]: the first entry with the address is
    updated, or a new entry is pushed. *)
Fixpoint add_funding (sources : list FundingSource) (info : FundingInfo)
    : list FundingSource :=
  match sources with
  | [] =>
      [ {| s_address := fi_source info;
           s_amount := fi_amount info;
           s_transactionCount := 1;
           s_type := classifyAddress (fi_source info);
           s_label := getAddressLabel (fi_source info) |} ]
  | existingSource :: rest =>
      if String.eqb (s_address existingSource) (fi_source info) then
        {| s_address := s_address existingSource;
           s_amount := s_amount existingSource + fi_amount info;
           s_transactionCount := s_transactionCount existingSource + 1;
           s_type := s_type existingSource;
           s_label := s_label existingSource |} :: rest
      else existingSource :: add_funding rest info
  end.

(** The variables [sources] and [totalReceived] of the two collecting
    loops. *)
Record Found : Type := {
  f_sources : list FundingSource;
  f_totalReceived : Z
}.

Record DeployerFunding : Type := {
  d_sources : list FundingSource;
  d_totalReceived : Z;
  d_deploymentCost : Z
}.

Record MintFunding : Type := {
  m_sources : list FundingSource;
  m_totalReceived : Z
}.

(** [xs.slice(-n)]: the last [n] elements. *)
Definition slice_last {A} (n : nat) (xs : list A) : list A :=
  skipn (List.length xs - n) xs.

Definition mint_node (mintAddress : string) : FundNode :=
  {| id := mintAddress;
     group := 0;
     value := 0;
     label := [Lit "Mint Address"];
     type := mint;
     amount := 0 |}.

Definition deployer_node (deployerAddress : string) : FundNode :=
  {| id := deployerAddress;
     group := 1;
     value := 0;
     label := [Lit "Deployer"];
     type := deployer;
     amount := 0 |}.

(** [source.label || `prefix${index + 1}`] *)
Definition label_or (l : option string) (prefix : string) (index : Z)
    : list piece :=
  match l with
  | Some l => if truthy l then [Lit l] else [Lit prefix; Num (index + 1)]
  | None => [Lit prefix; Num (index + 1)]
  end.

(** The body of [deployerFunding.sources.forEach]; the accumulator holds
    the arrays, the two counters and the index. *)
Definition add_deployer_source (deployerAddress : string)
    (acc : FundFlowData * Z) (source : FundingSource) : FundFlowData * Z :=
  let (d, index) := acc in
  ({| nodes :=
        push (nodes d)
          {| id := s_address source;
             group := 2 + index;
             value := s_transactionCount source;
             label := label_or (s_label source) "Source " index;
             type := s_type source;
             amount := s_amount source |};
      links :=
        push (links d)
          {| source := s_address source;
             target := deployerAddress;
             l_value := s_transactionCount source;
             l_amount := s_amount source;
             l_type := funding |};
      totalFunding := totalFunding d + s_amount source;
      fundingSources := fundingSources d + 1 |},
   index + 1).

(** The body of [mintFunding.sources.forEach]. *)
Definition add_mint_source (mintAddress : string)
    (acc : FundFlowData * Z) (source : FundingSource) : FundFlowData * Z :=
  let (d, index) := acc in
  ({| nodes :=
        if existsb (fun n => String.eqb (id n) (s_address source)) (nodes d)
        then nodes d
        else
          push (nodes d)
            {| id := s_address source;
               group := 100 + index;
               value := s_transactionCount source;
               label := label_or (s_label source) "Direct Source " index;
               type := s_type source;
               amount := s_amount source |};
      links :=
        push (links d)
          {| source := s_address source;
             target := mintAddress;
             l_value := s_transactionCount source;
             l_amount := s_amount source;
             l_type := creation |};
      totalFunding := totalFunding d + s_amount source;
      fundingSources := fundingSources d + 1 |},
   index + 1).

(** Mutating the first node [nodes.find] returns, if there is one. *)
Fixpoint update_found (pred : FundNode -> bool) (f : FundNode -> FundNode)
    (ns : list FundNode) : list FundNode :=
  match ns with
  | [] => []
  | n :: rest => if pred n then f n :: rest else n :: update_found pred f rest
  end.

(** Setting [amount] and [value] of the first node with the given id. *)
Definition set_totals (address : string) (received : Z) (count : Z)
    (ns : list FundNode) : list FundNode :=
  update_found (fun n => String.eqb (id n) address)
    (fun n =>
       {| id := id n; group := group n; value := count;
          label := label n; type := type n; amount := received |})
    ns.

(** The part of [analyzeFundSources] guarded by [if (deployerAddress)],
    once the deployer's funding is known. *)
Definition with_deployer (mintAddress deployerAddress : string)
    (deployerFunding : DeployerFunding) (d : FundFlowData) : FundFlowData :=
  let d :=
    {| nodes := push (nodes d) (deployer_node deployerAddress);
       links := links d;
       totalFunding := totalFunding d;
       fundingSources := fundingSources d |} in
  let (d, _) :=
    fold_left (add_deployer_source deployerAddress) (d_sources deployerFunding)
      (d, 0) in
  {| nodes :=
       set_totals deployerAddress (d_totalReceived deployerFunding)
         (Z.of_nat (List.length (d_sources deployerFunding))) (nodes d);
     links :=
       push (links d)
         {| source := deployerAddress;
            target := mintAddress;
            l_value := 1;
            l_amount := d_deploymentCost deployerFunding;
            l_type := deployment |};
     totalFunding := totalFunding d;
     fundingSources := fundingSources d |}.

(** The part of [analyzeFundSources] after the mint's funding is known. *)
Definition with_mint (mintAddress : string) (mintFunding : MintFunding)
    (d : FundFlowData) : FundFlowData :=
  let (d, _) :=
    fold_left (add_mint_source mintAddress) (m_sources mintFunding) (d, 0) in
  {| nodes :=
       set_totals mintAddress (m_totalReceived mintFunding)
         (Z.of_nat (List.length (m_sources mintFunding))) (nodes d);
     links := links d;
     totalFunding := totalFunding d;
     fundingSources := fundingSources d |}.

(** The response built in the [catch] block of [analyzeFundSources]. *)
Definition minimal_data (mintAddress : string) : FundFlowData :=
  {| nodes := [mint_node mintAddress];
     links := [];
     totalFunding := 0;
     fundingSources := 0 |}.

Section Route.
Context {W : Type} (up : FundFlow.Upstream W).

(** The loop over the signatures in [getDeployerFunding] and in
    [getMintFunding]; the two loops have the same body. *)
Definition collect_funding (targetAddress : string)
    (sigs : list FundFlow.SignatureInfo) : M W Found :=
  for_each sigs
    (fun found sig =>
       try_catch
         (tx <- FundFlow.getTransaction up (FundFlow.signature sig) ;;
          match tx with
          | None => ret found
          | Some tx =>
              let fundingInfo := analyzeFundingTransaction tx targetAddress in
              if fi_amount fundingInfo >? 0 then
                ret {| f_sources := add_funding (f_sources found) fundingInfo;
                       f_totalReceived :=
                         f_totalReceived found + fi_amount fundingInfo |}
              else ret found
          end)
         (fun _ => ret found))
    {| f_sources := []; f_totalReceived := 0 |}.

(** [signatures.slice(-n)] *)
Definition slice_last_signatures (n : nat) (signatures : FundFlow.Signatures)
    : M W (list FundFlow.SignatureInfo) :=
  match signatures with
  | FundFlow.SigArray sigs => ret (slice_last n sigs)
  | FundFlow.SigString text => ret (slice_last n (FundFlow.string_items text))
  | FundFlow.SigOther => throw "signatures.slice is not a function"
  end.

(** [getDeployerFunding]; the deployment cost is [0.01 * 1e9]. *)
Definition getDeployerFunding (deployerAddress : string) : M W DeployerFunding :=
  try_catch
    (signatures <- FundFlow.getSignaturesForAddress up deployerAddress 50 ;;
     sigs <- FundFlow.slice_signatures 20 signatures ;;
     found <- collect_funding deployerAddress sigs ;;
     ret {| d_sources := slice0 10 (f_sources found);
            d_totalReceived := f_totalReceived found;
            d_deploymentCost := 10000000 |})
    (fun _ => ret {| d_sources := []; d_totalReceived := 0; d_deploymentCost := 0 |}).

(** [getMintFunding] *)
Definition getMintFunding (mintAddress : string) : M W MintFunding :=
  try_catch
    (signatures <- FundFlow.getSignaturesForAddress up mintAddress 20 ;;
     sigs <- slice_last_signatures 10 signatures ;;
     found <- collect_funding mintAddress sigs ;;
     ret {| m_sources := slice0 5 (f_sources found);
            m_totalReceived := f_totalReceived found |})
    (fun _ => ret {| m_sources := []; m_totalReceived := 0 |}).

(** The [try] block of [analyzeFundSources]. *)
Definition analyzeFundSources_body (mintAddress deployerAddress : string)
    : M W FundFlowData :=
  let d := minimal_data mintAddress in
  d <- (if truthy deployerAddress then
          deployerFunding <- getDeployerFunding deployerAddress ;;
          ret (with_deployer mintAddress deployerAddress deployerFunding d)
        else ret d) ;;
  mintFunding <- getMintFunding mintAddress ;;
  ret (with_mint mintAddress mintFunding d).

(** [analyzeFundSources] *)
Definition analyzeFundSources (mintAddress deployerAddress : string)
    : M W FundFlowData :=
  try_catch (analyzeFundSources_body mintAddress deployerAddress)
            (fun _ => ret (minimal_data mintAddress)).

Inductive Request : Type :=
| Unparsable (message : string)
| Body (mintAddress deployerAddress : string).

Inductive Response : Type :=
| Json (body : FundFlowData)
| JsonError (status : Z) (error : string).

Definition request_json (req : Request) : M W (string * string) :=
  match req with
  | Unparsable message => throw message
  | Body mintAddress deployerAddress => ret (mintAddress, deployerAddress)
  end.

(** [POST] *)
Definition POST (req : Request) : M W Response :=
  try_catch
    (body <- request_json req ;;
     let (mintAddress, deployerAddress) := body in
     if negb (truthy mintAddress) then
       ret (JsonError 400 "Mint address is required")
     else
       fundFlowData <- analyzeFundSources mintAddress deployerAddress ;;
       ret (Json fundFlowData))
    (fun message => ret (JsonError 500 message)).

End Route.

End FundSources.

(** ** The deployer-network graph

    [buildNetworkGraph] takes the transactions of the batch reply as they
    come.  A transaction is [None] when it is null or has no
    [transaction.message]; the fields of an account are [None] when they
    are missing, as they all are when the account key is a bare string.
    The two [Map]s are association lists in insertion order. *)

Module DeployerNetwork.
Import JS.

Record Node : Type := {
  id : option string;
  group : Z;
  value : Z;
  label : option string
}.

Record Link : Type := {
  source : string;
  target : option string;
  l_value : Z
}.

Record GraphData : Type := {
  nodes : list Node;
  links : list Link
}.

Record Account : Type := {
  pubkey : option string;
  signer : option bool;
  writable : option bool
}.

Definition Transaction : Type := option (list Account).

(** Equality of [Map] keys that are strings or undefined. *)
Definition key_eqb (a b : option string) : bool :=
  match a, b with
  | Some x, Some y => String.eqb x y
  | None, None => true
  | _, _ => false
  end.

(** [x === false] *)
Definition is_false (x : option bool) : bool :=
  match x with Some false => true | _ => false end.

(** A value inside a template literal. *)
Definition render (x : option string) : string :=
  match x with Some s => s | None => "undefined" end.

(** [`${deployerAddress}-${address}`] *)
Definition linkId (deployerAddress : string) (address : option string) : string :=
  deployerAddress ++ "-" ++ render address.

Section Maps.
Context {K V : Type} (eqb : K -> K -> bool).

(** [m.get(k)] *)
Fixpoint map_get (k : K) (m : list (K * V)) : option V :=
  match m with
  | [] => None
  | (k', v) :: rest => if eqb k' k then Some v else map_get k rest
  end.

(** [m.has(k)] *)
Definition map_has (k : K) (m : list (K * V)) : bool :=
  match map_get k m with Some _ => true | None => false end.

(** [m.set(k, v)]: an existing key keeps its place. *)
Fixpoint map_set (k : K) (v : V) (m : list (K * V)) : list (K * V) :=
  match m with
  | [] => [(k, v)]
  | (k', v') :: rest =>
      if eqb k' k then (k', v) :: rest else (k', v') :: map_set k v rest
  end.

End Maps.

(** The two maps of [buildNetworkGraph]. *)
Record Maps : Type := {
  m_nodes : list (option string * Node);
  m_links : list (string * Link)
}.

(** The body of the first [accounts.forEach]. *)
Definition add_account (deployerAddress : string) (g : Maps) (account : Account)
    : Maps :=
  let address := pubkey account in
  if key_eqb address (Some deployerAddress) || map_has key_eqb address (m_nodes g)
  then g
  else
    let isProgram := is_false (signer account) && is_false (writable account) in
    let group := if isProgram then 3 else 2 in
    {| m_nodes :=
         map_set key_eqb address
           {| id := address; group := group;
              value := if isProgram then 5 else 3; label := None |}
           (m_nodes g);
       m_links :=
         if negb (map_has String.eqb (linkId deployerAddress address) (m_links g))
         then map_set String.eqb (linkId deployerAddress address)
                {| source := deployerAddress; target := address; l_value := 1 |}
                (m_links g)
         else m_links g |}.

(** The body of the inner [for] loop over [j]; [source] is the deployer's
    address there. *)
Definition link_pair (deployerAddress : string) (links : list (string * Link))
    (account : Account) : list (string * Link) :=
  let target := pubkey account in
  if negb (key_eqb target (Some deployerAddress)) then
    match map_get String.eqb (linkId deployerAddress target) links with
    | None =>
        map_set String.eqb (linkId deployerAddress target)
          {| source := deployerAddress; target := target; l_value := 1 |} links
    | Some link =>
        map_set String.eqb (linkId deployerAddress target)
          {| source := source link; target := DeployerNetwork.target link;
             l_value := l_value link + 1 |} links
    end
  else links.

(** The outer [for] loop over [i]: each position that holds the deployer
    is paired with every later position. *)
Fixpoint link_pairs (deployerAddress : string) (accounts : list Account)
    (links : list (string * Link)) : list (string * Link) :=
  match accounts with
  | [] => links
  | account :: rest =>
      let links :=
        if key_eqb (pubkey account) (Some deployerAddress)
        then fold_left (link_pair deployerAddress) rest links
        else links in
      link_pairs deployerAddress rest links
  end.

(** The body of [transactions.forEach]. *)
Definition visit_transaction (deployerAddress : string) (g : Maps)
    (tx : Transaction) : Maps :=
  match tx with
  | None => g
  | Some accounts =>
      let g := fold_left (add_account deployerAddress) accounts g in
      {| m_nodes := m_nodes g;
         m_links := link_pairs deployerAddress accounts (m_links g) |}
  end.

Definition deployer_node (deployerAddress : string) : Node :=
  {| id := Some deployerAddress; group := 1; value := 10;
     label := Some "Deployer" |}.

(** [buildNetworkGraph] *)
Definition buildNetworkGraph (deployerAddress : string)
    (transactions : list Transaction) : GraphData :=
  let g :=
    fold_left (visit_transaction deployerAddress) transactions
      {| m_nodes :=
           map_set key_eqb (Some deployerAddress) (deployer_node deployerAddress) [];
         m_links := [] |} in
  {| nodes := map snd (m_nodes g);
     links := map snd (m_links g) |}.

End DeployerNetwork.

(** ** The reputability dashboard

    The colour helpers of the component that shows the answer of the
    scoring route: it colours the score with [getScoreColor(data.score)] and
    the risk badge with [getRiskBadgeColor(data.riskLevel)]. *)

Module Dashboard.
Import JS.

(** The [riskLevel] field of the answer, as the component reads it. *)
Definition riskLevel_text (r : RiskLevel) : string :=
  match r with
  | low => "low"
  | medium => "medium"
  | high => "high"
  end.

(** [getScoreColor] *)
Definition getScoreColor (score : Z) : string :=
  if score >=? 80 then "text-green-400"
  else if score >=? 60 then "text-yellow-400"
  else "text-red-400".

(** [getRiskBadgeColor]; [None] is undefined. *)
Definition getRiskBadgeColor (risk : option string) : string :=
  let gray := "bg-gray-500/20 text-gray-400 border-gray-500/30" in
  match risk with
  | None => gray
  | Some risk =>
      if negb (truthy risk) then gray
      else if String.eqb risk "low"
      then "bg-green-500/20 text-green-400 border-green-500/30"
      else if String.eqb risk "medium"
      then "bg-yellow-500/20 text-yellow-400 border-yellow-500/30"
      else if String.eqb risk "high"
      then "bg-red-500/20 text-red-400 border-red-500/30"
      else gray
  end.

End Dashboard.

(** * Properties *)

(** ** Reasoning about computations *)

Module EffectsFacts.
Import Effects.

Lemma bind_returned {W A B} (c : M W A) (k : A -> M W B) st b st' :
  bind c k st = (Returned b, st') ->
  exists a st1, c st = (Returned a, st1) /\ k a st1 = (Returned b, st').
Proof.
  unfold bind. destruct (c st) as [[a | e] st1]; intro H.
  - exists a, st1. split; [reflexivity | exact H].
  - discriminate H.
Qed.

Lemma try_catch_outcome {W A} (body : M W A) (handler : string -> M W A) st :
  (exists a st', body st = (Returned a, st') /\
                 try_catch body handler st = (Returned a, st')) \/
  (exists e st', body st = (Thrown e, st') /\
                 try_catch body handler st = handler e st').
Proof.
  unfold try_catch. destruct (body st) as [[a | e] st'].
  - left. exists a, st'. split; reflexivity.
  - right. exists e, st'. split; reflexivity.
Qed.

(** A handler that returns makes the whole [try]/[catch] return. *)
Lemma try_catch_total {W A} (body : M W A) (handler : string -> M W A) :
  (forall e st, exists a st', handler e st = (Returned a, st')) ->
  forall st, exists a st', try_catch body handler st = (Returned a, st').
Proof.
  intros Hh st. unfold try_catch. destruct (body st) as [[a | e] st1].
  - exists a, st1. reflexivity.
  - apply Hh.
Qed.

(** A loop whose body always returns, returns; an invariant of the body
    is an invariant of the loop. *)
Lemma for_each_invariant {W A S} (P : S -> Prop) (body : S -> A -> M W S) :
  (forall s x st, P s -> exists s' st', body s x st = (Returned s', st') /\ P s') ->
  forall xs s st, P s ->
    exists s' st', for_each xs body s st = (Returned s', st') /\ P s'.
Proof.
  intros Hbody xs. induction xs as [| x rest IH]; intros s st Hs.
  - exists s, st. split; [reflexivity | exact Hs].
  - simpl. unfold bind.
    destruct (Hbody s x st Hs) as (s1 & st1 & E & Hs1).
    rewrite E. apply IH. exact Hs1.
Qed.

End EffectsFacts.

(** ** The reputability scorer *)

Module ReputabilityFacts.
Import JS Effects Reputability.

Lemma clamp_bounds (x : Z) : 0 <= Math_max 0 (Math_min 100 x) <= 100.
Proof. unfold Math_max, Math_min. lia. Qed.

Lemma score_in_range (analysis : Analysis) :
  0 <= fst (calculateReputabilityScore analysis) <= 100.
Proof. unfold calculateReputabilityScore. cbn [fst]. apply clamp_bounds. Qed.

Lemma riskLevelOf_low (s : Z) : riskLevelOf s = low <-> 80 <= s.
Proof.
  unfold riskLevelOf.
  destruct (Z.geb_spec s 80); destruct (Z.geb_spec s 60);
    split; intro; try discriminate; try lia; reflexivity.
Qed.

Lemma riskLevelOf_medium (s : Z) : riskLevelOf s = medium <-> 60 <= s < 80.
Proof.
  unfold riskLevelOf.
  destruct (Z.geb_spec s 80); destruct (Z.geb_spec s 60);
    split; intro; try discriminate; try lia; reflexivity.
Qed.

Lemma riskLevelOf_high (s : Z) : riskLevelOf s = high <-> s < 60.
Proof.
  unfold riskLevelOf.
  destruct (Z.geb_spec s 80); destruct (Z.geb_spec s 60);
    split; intro; try discriminate; try lia; reflexivity.
Qed.

(** The handler answers with a body only after scoring an analysis. *)
Lemma POST_json {W} (up : Upstream W) req st body st' :
  POST up req st = (Returned (Json body), st') ->
  exists analysis,
    walletAnalysis body = analysis /\
    score body = fst (calculateReputabilityScore analysis) /\
    factors body = snd (calculateReputabilityScore analysis) /\
    riskLevel body = riskLevelOf (score body) /\
    recommendations body = generateRecommendations analysis (score body).
Proof.
  unfold POST. intro H.
  match type of H with
  | try_catch ?b ?h ?s = _ =>
      destruct (EffectsFacts.try_catch_outcome b h s)
        as [(a & st1 & Hb & Ht) | (e & st1 & Hb & Ht)]
  end; rewrite Ht in H; [| discriminate H].
  injection H as -> ->. clear Ht.
  apply EffectsFacts.bind_returned in Hb as (addr & st2 & _ & Hb).
  destruct (negb (truthy addr)); [discriminate Hb |].
  destruct (negb (address_regex_test addr)); [discriminate Hb |].
  apply EffectsFacts.bind_returned in Hb as (txs & st3 & _ & Hb).
  apply EffectsFacts.bind_returned in Hb as (tbs & st4 & _ & Hb).
  apply EffectsFacts.bind_returned in Hb as (ai & st5 & _ & Hb).
  apply EffectsFacts.bind_returned in Hb as (analysis & st6 & _ & Hb).
  exists analysis.
  destruct (calculateReputabilityScore analysis) as [sc fs].
  apply EffectsFacts.bind_returned in Hb as (expl & st7 & _ & Hb).
  injection Hb as Hbody _. subst body. cbn. repeat split; reflexivity.
Qed.

(** A provider with no history for any wallet and a text generator that
    is down; the clock stands at a fixed instant. *)
Definition quiet_upstream : Upstream unit :=
  {| date_now := fun _ => 1700000000000;
     helius_transactions := fun _ _ w => (Ok (Records []), w);
     helius_token_accounts := fun _ w => (Ok (Records []), w);
     helius_account_info := fun _ w => (Failed "not found", w);
     generate_text := fun _ w => (Failed "service unavailable", w) |}.

Definition some_wallet : string := "JUP6LkbZbjS1jKKwapdHNy74zcZ3tLUZoi5QNyVTaV4".

(** C1. Whenever the scoring endpoint answers with a result, its score is
    an integer between 0 and 100, and its risk level is [low] exactly when
    the score is at least 80, [medium] exactly when it is at least 60 and
    below 80, and [high] exactly when it is below 60. *)
Theorem score_bounded_and_risk_level_by_thresholds
    {W} (up : Upstream W) (req : Request) (st st' : State W) (body : ScoreResult) :
  POST up req st = (Returned (Json body), st') ->
  0 <= score body <= 100 /\
  (riskLevel body = low <-> 80 <= score body) /\
  (riskLevel body = medium <-> 60 <= score body < 80) /\
  (riskLevel body = high <-> score body < 60).
Proof.
  intro H. apply POST_json in H as (analysis & _ & Hs & _ & Hr & _).
  rewrite Hr, Hs. split.
  - apply score_in_range.
  - split; [apply riskLevelOf_low |].
    split; [apply riskLevelOf_medium | apply riskLevelOf_high].
Qed.

Lemma score_bounded_and_risk_level_by_thresholds_witness :
  exists body st',
    POST quiet_upstream (Body some_wallet) (start tt) = (Returned (Json body), st') /\
    0 <= score body <= 100 /\
    (riskLevel body = low <-> 80 <= score body) /\
    (riskLevel body = medium <-> 60 <= score body < 80) /\
    (riskLevel body = high <-> score body < 60).
Proof.
  eexists. eexists. split.
  - vm_compute. reflexivity.
  - eapply (score_bounded_and_risk_level_by_thresholds
              quiet_upstream (Body some_wallet) (start tt)).
    vm_compute. reflexivity.
Defined.

Lemma Math_round_comp (x y : Q) : (x == y)%Q -> Math_round x = Math_round y.
Proof. intro H. unfold Math_round. rewrite H. reflexivity. Qed.

(** An analysis with the figures of the documented example; the fields the
    scorer only prints are filled with figures that agree with them. *)
Definition example_analysis : Analysis :=
  {| flaggedInteractions := 0;
     blacklistedProgramUsage := 0;
     legitimateProgramUsage := 4;
     largeTransfers := 5;
     totalVolume := 120 * 1000000000;
     counterpartyCount := 6;
     counterpartyDiversity := 4 # 10;
     walletAgeMonths := 6;
     transactionCount := 30;
     recentTransactions := 15;
     transactionFrequency := 5 # 10;
     stakingTransactions := 6;
     stakingActivityRatio := 2 # 10;
     tokenCount := 0;
     hasStakedTokens := false;
     programsUsed := [];
     uniquePrograms := 0 |}.

(** C9. An analysis with 0 flagged interactions, 0 blacklisted-program
    uses, 5 large transfers, diversity 0.4, staking ratio 0.2, age 6 months,
    4 legitimate-program interactions and 0.5 transactions per day is scored
    exactly 71, and 71 is risk level [medium]. *)
Theorem example_wallet_scores_71_medium (analysis : Analysis) :
  flaggedInteractions analysis = 0 ->
  blacklistedProgramUsage analysis = 0 ->
  largeTransfers analysis = 5 ->
  (counterpartyDiversity analysis == 4 # 10)%Q ->
  (stakingActivityRatio analysis == 2 # 10)%Q ->
  (walletAgeMonths analysis == 6)%Q ->
  legitimateProgramUsage analysis = 4 ->
  (transactionFrequency analysis == 5 # 10)%Q ->
  fst (calculateReputabilityScore analysis) = 71 /\
  riskLevelOf (fst (calculateReputabilityScore analysis)) = medium.
Proof.
  intros Hf Hb Hl Hd Hs Ha Hg Hq.
  assert (E : fst (calculateReputabilityScore analysis) = 71).
  { unfold calculateReputabilityScore. cbn [fst].
    rewrite Hf, Hb, Hl, Hg.
    rewrite (Math_round_comp (counterpartyDiversity analysis * 20) ((4 # 10) * 20))
      by (rewrite Hd; reflexivity).
    rewrite (Math_round_comp (stakingActivityRatio analysis * 25) ((2 # 10) * 25))
      by (rewrite Hs; reflexivity).
    rewrite (Math_round_comp (walletAgeMonths analysis * 2) (6 * 2))
      by (rewrite Ha; reflexivity).
    rewrite (Math_round_comp (transactionFrequency analysis * 5) ((5 # 10) * 5))
      by (rewrite Hq; reflexivity).
    reflexivity. }
  rewrite E. split; reflexivity.
Qed.

Lemma example_wallet_scores_71_medium_witness :
  fst (calculateReputabilityScore example_analysis) = 71 /\
  riskLevelOf (fst (calculateReputabilityScore example_analysis)) = medium.
Proof.
  apply (example_wallet_scores_71_medium example_analysis); reflexivity.
Defined.

(** *** Two runs over the same transaction list *)

(** What one run of the analysis and scoring yields: score, factors and
    recommendations.  [now] is the instant [Date.now()] returns inside
    [analyzeWalletData]. *)
Definition scoring_outputs (now : Z) (transactions : list HeliusTransaction)
    (tokenBalances : list TokenBalance) (accountInfo : option AccountInfo)
    (walletAddress : string) : Z * list Factor * list string :=
  let analysis :=
    analyzeWalletData now transactions tokenBalances accountInfo walletAddress in
  let (score, factors) := calculateReputabilityScore analysis in
  (score, factors, generateRecommendations analysis score).

(** What the handler does between the last fetch and the explanation. *)
Lemma POST_json_outputs {W} (up : Upstream W) req st body st' :
  POST up req st = (Returned (Json body), st') ->
  exists now transactions tokenBalances accountInfo walletAddress,
    req = Body walletAddress /\
    (score body, factors body, recommendations body) =
    scoring_outputs now transactions tokenBalances accountInfo walletAddress.
Proof.
  unfold POST. intro H.
  match type of H with
  | try_catch ?b ?h ?s = _ =>
      destruct (EffectsFacts.try_catch_outcome b h s)
        as [(a & st1 & Hb & Ht) | (e & st1 & Hb & Ht)]
  end; rewrite Ht in H; [| discriminate H].
  injection H as -> ->. clear Ht.
  apply EffectsFacts.bind_returned in Hb as (addr & st2 & Hreq & Hb).
  destruct req as [m | w]; [discriminate Hreq |].
  injection Hreq as -> _.
  destruct (negb (truthy addr)); [discriminate Hb |].
  destruct (negb (address_regex_test addr)); [discriminate Hb |].
  apply EffectsFacts.bind_returned in Hb as (txs & st3 & _ & Hb).
  apply EffectsFacts.bind_returned in Hb as (tbs & st4 & _ & Hb).
  apply EffectsFacts.bind_returned in Hb as (ai & st5 & _ & Hb).
  apply EffectsFacts.bind_returned in Hb as (analysis & st6 & Hread & Hb).
  unfold read_wallet_data, bind, observe in Hread.
  destruct txs as [txs | |], tbs as [tbs | |]; try discriminate Hread.
  injection Hread as <- _.
  exists (date_now up (world st5)), txs, tbs, ai, addr. split; [reflexivity |].
  unfold scoring_outputs.
  destruct (calculateReputabilityScore
              (analyzeWalletData (date_now up (world st5)) txs tbs ai addr))
    as [sc fs].
  apply EffectsFacts.bind_returned in Hb as (expl & st7 & _ & Hb).
  injection Hb as Hbody _. subst body. reflexivity.
Qed.

(** The documented property, as written: the transaction list (with the
    token balances and the account info) alone determines the outputs of a
    run. *)
Definition determined_by_transactions_alone : Prop :=
  forall transactions tokenBalances accountInfo walletAddress now1 now2,
    scoring_outputs now1 transactions tokenBalances accountInfo walletAddress =
    scoring_outputs now2 transactions tokenBalances accountInfo walletAddress.

(** One transaction without transfers, at second 1700000000. *)
Definition lone_transaction : HeliusTransaction :=
  {| timestamp := 1700000000; nativeTransfers := []; tokenTransfers := [];
     instructions := [] |}.

(** The clock 30 days and 60 days after that transaction, in
    milliseconds. *)
Definition first_run : Z := 1700000000 * 1000 + 1 * month_ms.
Definition second_run : Z := 1700000000 * 1000 + 2 * month_ms.

(** Scored 30 days after its only transaction a wallet gets 52, scored 60
    days after it the same wallet gets 54. *)
Lemma later_run_scores_differently :
  fst (fst (scoring_outputs first_run [lone_transaction] [] None some_wallet)) = 52 /\
  fst (fst (scoring_outputs second_run [lone_transaction] [] None some_wallet)) = 54 /\
  ~ determined_by_transactions_alone.
Proof.
  split; [vm_compute; reflexivity |].
  split; [vm_compute; reflexivity |].
  intro H.
  specialize (H [lone_transaction] [] None some_wallet first_run second_run).
  apply (f_equal (fun r => fst (fst r))) in H.
  vm_compute in H. discriminate H.
Qed.

(** C6, amended. With the clock reading fixed as well, two runs over the
    same transaction list for the same wallet give the same score, the same
    factors and the same recommendations, whatever the token balances and
    the account info of either run. *)
Theorem same_transactions_same_clock_same_outputs
    (now : Z) (transactions : list HeliusTransaction) (walletAddress : string)
    (tokenBalances1 tokenBalances2 : list TokenBalance)
    (accountInfo1 accountInfo2 : option AccountInfo) :
  scoring_outputs now transactions tokenBalances1 accountInfo1 walletAddress =
  scoring_outputs now transactions tokenBalances2 accountInfo2 walletAddress.
Proof.
  unfold scoring_outputs, calculateReputabilityScore, generateRecommendations.
  reflexivity.
Qed.

End ReputabilityFacts.

(** ** The balance-delta extractor *)

Module ExtractorFacts.
Import JS FundFlow.

(** A loop that pushes [f i] for the indices that pass [keep] builds the
    list a filter followed by a map builds. *)
Lemma fold_left_push {A B} (keep : A -> bool) (f : A -> B) (xs : list A) :
  forall acc,
    fold_left (fun acc x => if keep x then push acc (f x) else acc) xs acc =
    (acc ++ map f (filter keep xs))%list.
Proof.
  induction xs as [| x rest IH]; intro acc; simpl.
  - symmetry. apply app_nil_r.
  - rewrite IH. destruct (keep x); simpl; [| reflexivity].
    unfold push. rewrite <- app_assoc. reflexivity.
Qed.

Lemma fold_left_ext {A B} (f g : B -> A -> B) (xs : list A) :
  (forall acc x, f acc x = g acc x) ->
  forall acc, fold_left f xs acc = fold_left g xs acc.
Proof.
  intro H. induction xs as [| x rest IH]; intro acc; simpl.
  - reflexivity.
  - rewrite H. apply IH.
Qed.

(** The balance change of the account at position [i]. *)
Definition own_change (tx : Transaction) (i : nat) : Z :=
  balance_at (postBalances tx) i - balance_at (preBalances tx) i.

(** Whether position [i] holds a counterparty whose own balance change
    clears the noise threshold. *)
Definition moves_funds (tx : Transaction) (developerIndex i : nat) : bool :=
  negb (Nat.eqb i developerIndex) && (Z.abs (own_change tx i) >? 10000).

(** The flow recorded for the counterparty at position [i]. *)
Definition flow_at (tx : Transaction) (developerIndex i : nat) : Flow :=
  let address := key_address (nth i (accountKeys tx) (KeyString "")) in
  {| f_address := address;
     f_amount := Z.abs (own_change tx i);
     f_type := determineFundFlowType tx address;
     f_direction :=
       if own_change tx developerIndex >? 0 then incoming else outgoing |}.

(** The documented property, as written: every recorded flow carries the
    absolute value of the target's own balance change. *)
Definition amounts_are_target_change (tx : Transaction) (target : string) : Prop :=
  forall targetIndex flow,
    findIndex (fun key => String.eqb (key_address key) target) (accountKeys tx)
      = Some targetIndex ->
    In flow (analyzeFundFlow tx target) ->
    f_amount flow = Z.abs (own_change tx targetIndex).

(** The target receives 50000 lamports, 30000 from one counterparty and
    20000 from another. *)
Definition two_payers : Transaction :=
  {| preBalances := [100000; 500000; 300000];
     postBalances := [150000; 470000; 280000];
     accountKeys := [KeyString "Target"; KeyString "PayerA"; KeyObject "PayerB"];
     instructions := [ {| programId := "11111111111111111111111111111111";
                          program := "" |} ] |}.

(** The two flows carry 30000 and 20000, the payers' own changes, and not
    the target's 50000. *)
Lemma two_payers_amounts :
  own_change two_payers 0 = 50000 /\
  map (fun flow => (f_address flow, f_amount flow)) (analyzeFundFlow two_payers "Target")
    = [("PayerA", 30000); ("PayerB", 20000)] /\
  ~ amounts_are_target_change two_payers "Target".
Proof.
  split; [reflexivity |]. split; [reflexivity |].
  intro H.
  specialize (H 0%nat (flow_at two_payers 0 1) eq_refl).
  assert (Hin : In (flow_at two_payers 0 1) (analyzeFundFlow two_payers "Target")).
  { vm_compute. left. reflexivity. }
  specialize (H Hin). vm_compute in H. discriminate H.
Qed.

(** C2, amended. When the target appears in the transaction, the extractor
    records one flow per other account whose own balance change exceeds
    10000 in absolute value, in account order; each flow carries the
    absolute value of that counterparty's own balance change, and all of
    them share the direction given by the sign of the target's change. *)
Theorem flows_carry_counterparty_change
    (tx : Transaction) (target : string) (targetIndex : nat) :
  findIndex (fun key => String.eqb (key_address key) target) (accountKeys tx)
    = Some targetIndex ->
  analyzeFundFlow tx target =
  map (flow_at tx targetIndex)
      (filter (moves_funds tx targetIndex) (seq 0 (List.length (accountKeys tx)))).
Proof.
  intro Hfind. unfold analyzeFundFlow. rewrite Hfind.
  rewrite (fold_left_ext _
             (fun acc i => if moves_funds tx targetIndex i
                           then push acc (flow_at tx targetIndex i) else acc)).
  - rewrite fold_left_push. reflexivity.
  - intros acc i. unfold analyzeFundFlow_step, moves_funds, flow_at, own_change.
    destruct (negb (Nat.eqb i targetIndex)); [| reflexivity].
    cbn [andb].
    destruct (Z.abs _ >? 10000); reflexivity.
Qed.

Lemma flows_carry_counterparty_change_witness :
  analyzeFundFlow two_payers "Target" =
  map (flow_at two_payers 0)
      (filter (moves_funds two_payers 0)
              (seq 0 (List.length (accountKeys two_payers)))).
Proof.
  apply (flows_carry_counterparty_change two_payers "Target" 0). reflexivity.
Defined.

End ExtractorFacts.

(** ** The pattern detector *)

Module DetectorFacts.
Import JS FundFlow.

Definition circular : string := "Circular funding detected".

(** The test the detector performs on the node set. *)
Definition overlap_found (nodes : list FundFlowNode) : bool :=
  existsb
    (fun n1 =>
       Direction_eqb (fundDirection n1) incoming &&
       negb (NodeType_eqb (type n1) developer) &&
       existsb
         (fun n2 =>
            Direction_eqb (fundDirection n2) outgoing &&
            negb (NodeType_eqb (type n2) developer) &&
            String.eqb (id n2) (id n1))
         nodes)
    nodes.

Lemma filter_nonempty {A} (p : A -> bool) (xs : list A) :
  (0 <? List.length (filter p xs))%nat = existsb p xs.
Proof.
  induction xs as [| x rest IH]; simpl; [reflexivity |].
  destruct (p x); simpl; [reflexivity | exact IH].
Qed.

Lemma existsb_filter {A} (p q : A -> bool) (xs : list A) :
  existsb q (filter p xs) = existsb (fun x => p x && q x) xs.
Proof.
  induction xs as [| x rest IH]; simpl; [reflexivity |].
  destruct (p x); simpl; rewrite IH; reflexivity.
Qed.

Lemma existsb_pointwise {A} (p q : A -> bool) (xs : list A) :
  (forall x, p x = q x) -> existsb p xs = existsb q xs.
Proof.
  intro H. induction xs as [| x rest IH]; simpl; [reflexivity |].
  rewrite H, IH. reflexivity.
Qed.

Lemma Direction_eqb_eq (a b : Direction) : Direction_eqb a b = true <-> a = b.
Proof. destruct a, b; simpl; split; intro H; try reflexivity; discriminate H. Qed.

Lemma NodeType_eqb_eq (a b : NodeType) : NodeType_eqb a b = true <-> a = b.
Proof. destruct a, b; simpl; split; intro H; try reflexivity; discriminate H. Qed.

(** The first pattern is pushed exactly when the overlap test succeeds;
    the other four pushes add other strings. *)
Lemma circular_reported_iff_test nodes links totalReceived totalSent :
  In circular (detectSuspiciousPatterns nodes links totalReceived totalSent) <->
  overlap_found nodes = true.
Proof.
  unfold detectSuspiciousPatterns.
  rewrite filter_nonempty, existsb_filter.
  replace (existsb _ nodes) with (overlap_found nodes).
  2:{ unfold overlap_found. apply existsb_pointwise. intro n1.
      rewrite existsb_filter. reflexivity. }
  destruct (overlap_found nodes);
    destruct (double_gtb _ _ && _); destruct (_ <? _)%nat; destruct (_ <? _)%nat;
    destruct (_ && _); cbn; unfold circular;
    split; intro H; try reflexivity; try discriminate H; auto;
    repeat (destruct H as [H | H]; [discriminate H |]); try contradiction.
Qed.

(** The documented trigger: some address is the id of an
    incoming-direction node and of an outgoing-direction node. *)
Definition overlap (nodes : list FundFlowNode) : Prop :=
  exists n1 n2,
    In n1 nodes /\ In n2 nodes /\
    fundDirection n1 = incoming /\ fundDirection n2 = outgoing /\
    id n1 = id n2.

(** The same overlap between nodes that are not of type [developer]. *)
Definition overlap_outside_developer (nodes : list FundFlowNode) : Prop :=
  exists n1 n2,
    In n1 nodes /\ In n2 nodes /\
    fundDirection n1 = incoming /\ type n1 <> developer /\
    fundDirection n2 = outgoing /\ type n2 <> developer /\
    id n1 = id n2.

Lemma overlap_found_iff (nodes : list FundFlowNode) :
  overlap_found nodes = true <-> overlap_outside_developer nodes.
Proof.
  unfold overlap_found, overlap_outside_developer. rewrite existsb_exists. split.
  - intros (n1 & Hin1 & H).
    apply andb_prop in H as [H Hex]. apply andb_prop in H as [Hd1 Ht1].
    apply existsb_exists in Hex as (n2 & Hin2 & H).
    apply andb_prop in H as [H Hid]. apply andb_prop in H as [Hd2 Ht2].
    exists n1, n2.
    apply Direction_eqb_eq in Hd1. apply Direction_eqb_eq in Hd2.
    apply String.eqb_eq in Hid.
    repeat split; auto.
    + intro E. apply NodeType_eqb_eq in E. rewrite E in Ht1. discriminate Ht1.
    + intro E. apply NodeType_eqb_eq in E. rewrite E in Ht2. discriminate Ht2.
  - intros (n1 & n2 & Hin1 & Hin2 & Hd1 & Ht1 & Hd2 & Ht2 & Hid).
    exists n1. split; [exact Hin1 |].
    apply andb_true_intro. split.
    + apply andb_true_intro. split; [apply Direction_eqb_eq; exact Hd1 |].
      destruct (NodeType_eqb (type n1) developer) eqn:E; [| reflexivity].
      apply NodeType_eqb_eq in E. contradiction.
    + apply existsb_exists. exists n2. split; [exact Hin2 |].
      apply andb_true_intro. split.
      * apply andb_true_intro. split; [apply Direction_eqb_eq; exact Hd2 |].
        destruct (NodeType_eqb (type n2) developer) eqn:E; [| reflexivity].
        apply NodeType_eqb_eq in E. contradiction.
      * apply String.eqb_eq. symmetry. exact Hid.
Qed.

(** The documented property, as written: the pattern is reported exactly
    when that overlap is there. *)
Definition reported_iff_overlap : Prop :=
  forall nodes links totalReceived totalSent,
    In circular (detectSuspiciousPatterns nodes links totalReceived totalSent) <->
    overlap nodes.

(** One address as an incoming node of type [developer] and as an outgoing
    funding source. *)
Definition developer_overlap : list FundFlowNode :=
  [ {| id := "Addr"; group := 0; value := 1; label := "Developer";
       type := developer; amount := 2 * SOL; transactionCount := 1;
       fundDirection := incoming; riskLevel := medium |};
    {| id := "Addr"; group := 1; value := 1; label := "FUND_SOURCE";
       type := fund_source; amount := 2 * SOL; transactionCount := 1;
       fundDirection := outgoing; riskLevel := low |} ].

(** The overlap is there and the detector reports nothing. *)
Lemma developer_overlap_not_reported :
  overlap developer_overlap /\
  detectSuspiciousPatterns developer_overlap [] 0 0 = [] /\
  ~ reported_iff_overlap.
Proof.
  assert (Ho : overlap developer_overlap).
  { unfold overlap, developer_overlap.
    eexists. eexists. split; [left; reflexivity |].
    split; [right; left; reflexivity |].
    repeat split; reflexivity. }
  split; [exact Ho |]. split; [reflexivity |].
  intro H. apply (H developer_overlap [] 0 0) in Ho.
  vm_compute in Ho. exact Ho.
Qed.

(** C5, amended. The detector reports the circular-funding pattern if and
    only if some address is the id both of an incoming-direction node and of
    an outgoing-direction node, neither of them of type [developer]. *)
Theorem circular_reported_iff_overlap_outside_developer
    (nodes : list FundFlowNode) (links : list FundFlowLink)
    (totalReceived totalSent : Z) :
  In "Circular funding detected"
     (detectSuspiciousPatterns nodes links totalReceived totalSent) <->
  overlap_outside_developer nodes.
Proof.
  rewrite <- overlap_found_iff.
  apply (circular_reported_iff_test nodes links totalReceived totalSent).
Qed.

End DetectorFacts.

(** ** The flow aggregator and the emitted graph *)

Module AggregatorFacts.
Import JS Effects FundFlow.

Definition keys (m : SourceMap) : list string := map fst m.

Lemma map_get_none (key : string) (m : SourceMap) :
  map_get key m = None <-> ~ In key (keys m).
Proof.
  induction m as [| [k v] rest IH]; simpl.
  - split; [intros _ H; exact H | reflexivity].
  - destruct (String.eqb_spec k key) as [E | N].
    + split; [discriminate | intro H; exfalso; apply H; left; exact E].
    + rewrite IH. split.
      * intros H [E | Hin]; [exact (N E) | exact (H Hin)].
      * intros H Hin. apply H. right. exact Hin.
Qed.

Lemma map_modify_keys key f (m : SourceMap) : keys (map_modify key f m) = keys m.
Proof.
  induction m as [| [k v] rest IH]; simpl; [reflexivity |].
  destruct (String.eqb k key); simpl; [reflexivity |].
  f_equal. exact IH.
Qed.

Lemma map_set_keys key v (m : SourceMap) :
  keys (map_set key v m) =
  match map_get key m with Some _ => keys m | None => (keys m ++ [key])%list end.
Proof.
  unfold map_set. destruct (map_get key m).
  - apply map_modify_keys.
  - unfold keys, push. rewrite map_app. reflexivity.
Qed.

Lemma upsert_keys_NoDup key f v (m : SourceMap) :
  NoDup (keys m) ->
  NoDup (keys match map_get key m with
              | Some _ => map_modify key f m
              | None => map_set key v m
              end).
Proof.
  intro H. destruct (map_get key m) eqn:E.
  - rewrite map_modify_keys. exact H.
  - rewrite map_set_keys, E. apply NoDup_app.
    + exact H.
    + constructor; [intros [] | constructor].
    + intros a Ha [<- | []]. apply map_get_none in E. exact (E Ha).
Qed.

(** Keys of the aggregation map are never repeated. *)
Lemma record_flow_keys_NoDup blockTime (t : Tally) (flow : Flow) :
  NoDup (keys (fundSources t)) ->
  NoDup (keys (fundSources (record_flow blockTime t flow))).
Proof.
  intro H. unfold record_flow.
  destruct (Direction_eqb (f_direction flow) incoming); cbn [fundSources];
    apply upsert_keys_NoDup; exact H.
Qed.

Lemma record_flows_keys_NoDup blockTime (flows : list Flow) :
  forall t, NoDup (keys (fundSources t)) ->
            NoDup (keys (fundSources (fold_left (record_flow blockTime) flows t))).
Proof.
  induction flows as [| flow rest IH]; intros t H; simpl; [exact H |].
  apply IH. apply record_flow_keys_NoDup. exact H.
Qed.

Section Run.
Context {W : Type} (up : Upstream W).

(** The aggregation loop returns, whatever the provider answers, and the
    keys of its map are pairwise different. *)
Lemma aggregate_returns dev sigs st :
  exists tally st',
    aggregate up dev sigs st = (Returned tally, st') /\
    NoDup (keys (fundSources tally)).
Proof.
  unfold aggregate.
  apply (EffectsFacts.for_each_invariant
           (fun t => NoDup (keys (fundSources t)))).
  - intros t sig st0 Ht. unfold try_catch, bind.
    destruct (getTransaction up (signature sig) st0) as [[[tx |] | e] st1]; cbn.
    + eexists. eexists. split; [reflexivity |].
      apply record_flows_keys_NoDup. exact Ht.
    + eexists. eexists. split; [reflexivity | exact Ht].
    + eexists. eexists. split; [reflexivity | exact Ht].
  - constructor.
Qed.

(** [tally] is what the aggregation loop of the run started in [st] holds
    when it ends. *)
Definition aggregated (dev : string) (st : State W) (tally : Tally) : Prop :=
  exists signatures st1 sigs st2 st3,
    getSignaturesForAddress up dev 200 st = (Returned signatures, st1) /\
    slice_signatures 100 signatures st1 = (Returned sigs, st2) /\
    aggregate up dev sigs st2 = (Returned tally, st3).

Lemma aggregated_keys_NoDup dev st tally :
  aggregated dev st tally -> NoDup (keys (fundSources tally)).
Proof.
  intros (signatures & st1 & sigs & st2 & st3 & _ & _ & Hagg).
  destruct (aggregate_returns dev sigs st2) as (t & st' & E & Hnd).
  rewrite E in Hagg. injection Hagg as -> _. exact Hnd.
Qed.

End Run.

(** *** The nodes built from the aggregation map *)

Lemma emit_sources_ids dev (entries : SourceMap) :
  forall g,
    map id (g_nodes (fold_left (emit_source dev) entries g)) =
    (map id (g_nodes g) ++ map fst (filter (material dev) entries))%list.
Proof.
  induction entries as [| entry rest IH]; intro g; simpl.
  - symmetry. apply app_nil_r.
  - rewrite IH. unfold emit_source.
    destruct (material dev entry); cbn [g_nodes]; [| reflexivity].
    unfold push. rewrite map_app, <- app_assoc. reflexivity.
Qed.

Lemma update_found_ids pred f (ns : list FundFlowNode) :
  (forall n, id (f n) = id n) ->
  map id (update_found pred f ns) = map id ns.
Proof.
  intro Hf. induction ns as [| n rest IH]; simpl; [reflexivity |].
  destruct (pred n); simpl; [rewrite Hf; reflexivity | rewrite IH; reflexivity].
Qed.

(** The material counterparties, in the order the run first saw them. *)
Definition material_counterparties (dev : string) (tally : Tally) : list string :=
  map fst (filter (material dev) (fundSources tally)).

Lemma primary_ids dev n (tally : Tally) :
  map id (p_nodes (primary_graph dev n tally)) =
  dev :: material_counterparties dev tally.
Proof.
  unfold primary_graph. cbn [p_nodes].
  rewrite update_found_ids by reflexivity.
  rewrite emit_sources_ids. reflexivity.
Qed.

Lemma filter_keys_NoDup (p : string * SourceData -> bool) (m : SourceMap) :
  NoDup (keys m) -> NoDup (keys (filter p m)).
Proof.
  induction m as [| [k v] rest IH]; simpl; intro H; [constructor |].
  inversion H as [| ? ? Hnotin Hrest]; subst.
  destruct (p (k, v)); simpl; [| apply IH; exact Hrest].
  constructor; [| apply IH; exact Hrest].
  intro Hin. apply Hnotin. unfold keys in *.
  apply in_map_iff in Hin as (e & He & Hine).
  apply in_map_iff. exists e. split; [exact He |].
  apply filter_In in Hine. tauto.
Qed.

(** Before the secondary connections are added, node ids are pairwise
    different. *)
Lemma primary_ids_NoDup dev n (tally : Tally) :
  NoDup (keys (fundSources tally)) ->
  NoDup (map id (p_nodes (primary_graph dev n tally))).
Proof.
  intro H. rewrite primary_ids. constructor.
  - unfold material_counterparties. intro Hin.
    apply in_map_iff in Hin as (e & He & Hine).
    apply filter_In in Hine as [_ Hm]. unfold material in Hm.
    apply andb_prop in Hm as [_ Hne]. rewrite He, String.eqb_refl in Hne.
    discriminate Hne.
  - apply (filter_keys_NoDup (material dev)). exact H.
Qed.

Lemma NoDup_map_injective {A B} (f : A -> B) (xs : list A) :
  NoDup (map f xs) ->
  forall x y, In x xs -> In y xs -> f x = f y -> x = y.
Proof.
  induction xs as [| a rest IH]; simpl; intros H x y Hx Hy E; [contradiction |].
  inversion H as [| ? ? Hnotin Hrest]; subst.
  destruct Hx as [<- | Hx]; destruct Hy as [<- | Hy].
  - reflexivity.
  - exfalso. apply Hnotin. rewrite E. apply in_map. exact Hy.
  - exfalso. apply Hnotin. rewrite <- E. apply in_map. exact Hx.
  - apply IH; assumption.
Qed.

(** A node set with pairwise different ids has no overlap to report. *)
Lemma unique_ids_not_circular nodes links totalReceived totalSent :
  NoDup (map id nodes) ->
  ~ In "Circular funding detected"
       (detectSuspiciousPatterns nodes links totalReceived totalSent).
Proof.
  intros Hnd Hin.
  apply DetectorFacts.circular_reported_iff_test in Hin.
  apply DetectorFacts.overlap_found_iff in Hin.
  destruct Hin as (n1 & n2 & Hin1 & Hin2 & Hd1 & _ & Hd2 & _ & Hid).
  assert (E : n1 = n2) by (apply (NoDup_map_injective id nodes); assumption).
  subst n2. rewrite Hd1 in Hd2. discriminate Hd2.
Qed.

(** *** The secondary connections *)

(** What adding secondary connections may do to the node array: append,
    and keep ids pairwise different. *)
Definition extends (nodes0 nodes : list FundFlowNode) : Prop :=
  (exists extra, nodes = (nodes0 ++ extra)%list) /\
  (NoDup (map id nodes0) -> NoDup (map id nodes)).

Lemma extends_refl nodes : extends nodes nodes.
Proof.
  split; [exists []; symmetry; apply app_nil_r | intro H; exact H].
Qed.

Lemma extends_trans a b c : extends a b -> extends b c -> extends a c.
Proof.
  intros [[e1 E1] N1] [[e2 E2] N2]. split.
  - exists (e1 ++ e2)%list. rewrite E2, E1, app_assoc. reflexivity.
  - intro H. apply N2, N1, H.
Qed.

Lemma existsb_id_false (address : string) (nodes : list FundFlowNode) :
  existsb (fun n => String.eqb (id n) address) nodes = false ->
  ~ In address (map id nodes).
Proof.
  intros H Hin. apply in_map_iff in Hin as (n & E & Hn).
  assert (T : existsb (fun n => String.eqb (id n) address) nodes = true).
  { apply existsb_exists. exists n. split; [exact Hn |].
    rewrite E. apply String.eqb_refl. }
  rewrite T in H. discriminate H.
Qed.

Lemma add_secondary_extends sourceId acc flow :
  extends (fst (fst acc)) (fst (fst (add_secondary sourceId acc flow))).
Proof.
  destruct acc as [[nodes links] index]. unfold add_secondary.
  destruct (existsb _ nodes) eqn:E; cbn [negb andb fst];
    [apply extends_refl |].
  destruct (index <? 2)%nat; cbn [fst]; [| apply extends_refl].
  split.
  - eexists. reflexivity.
  - intro H. unfold push. rewrite map_app. apply NoDup_app.
    + exact H.
    + constructor; [intros [] | constructor].
    + intros a Ha [<- | []]. cbn [id] in Ha.
      exact (existsb_id_false _ _ E Ha).
Qed.

Definition appends {A} (xs0 xs : list A) : Prop :=
  exists extra, xs = (xs0 ++ extra)%list.

Lemma appends_refl {A} (xs : list A) : appends xs xs.
Proof. exists []. symmetry. apply app_nil_r. Qed.

Lemma appends_trans {A} (a b c : list A) : appends a b -> appends b c -> appends a c.
Proof.
  intros [e1 E1] [e2 E2]. exists (e1 ++ e2)%list.
  rewrite E2, E1, app_assoc. reflexivity.
Qed.

Lemma add_secondary_appends_link sourceId acc flow :
  appends (snd (fst acc)) (snd (fst (add_secondary sourceId acc flow))).
Proof.
  destruct acc as [[nodes links] index]. unfold add_secondary.
  destruct (negb _ && _); cbn [fst snd]; [| apply appends_refl].
  eexists. reflexivity.
Qed.

Lemma add_secondaries_append_links sourceId flows :
  forall acc,
    appends (snd (fst acc))
            (snd (fst (fold_left (add_secondary sourceId) flows acc))).
Proof.
  induction flows as [| flow rest IH]; intro acc; simpl.
  - apply appends_refl.
  - eapply appends_trans; [apply add_secondary_appends_link | apply IH].
Qed.

Lemma add_secondaries_extend sourceId flows :
  forall acc,
    extends (fst (fst acc)) (fst (fst (fold_left (add_secondary sourceId) flows acc))).
Proof.
  induction flows as [| flow rest IH]; intro acc; simpl.
  - apply extends_refl.
  - eapply extends_trans; [apply add_secondary_extends | apply IH].
Qed.

Section Secondary.
Context {W : Type} (up : Upstream W).

(** The secondary pass returns, whatever the provider answers, and only
    appends nodes and links. *)
Lemma expand_secondary_returns nodes links st :
  exists graph st',
    expand_secondary up nodes links st = (Returned graph, st') /\
    extends nodes (fst graph) /\ appends links (snd graph).
Proof.
  unfold expand_secondary.
  apply (EffectsFacts.for_each_invariant
           (fun graph => extends nodes (fst graph) /\ appends links (snd graph))).
  - intros graph source st0 [Hg Hl]. unfold try_catch, bind.
    destruct (getSecondaryFundFlows up (id source) 5 st0) as [[flows | e] st1].
    + pose proof (add_secondaries_extend (id source) flows
                    (fst graph, snd graph, O)) as Hext.
      pose proof (add_secondaries_append_links (id source) flows
                    (fst graph, snd graph, O)) as Happ.
      destruct (fold_left (add_secondary (id source)) flows
                          (fst graph, snd graph, O)) as [[ns ls] k].
      cbn in *. eexists. eexists. split; [reflexivity |].
      cbn. split.
      * eapply extends_trans; [exact Hg | exact Hext].
      * eapply appends_trans; [exact Hl | exact Happ].
    + cbn. eexists. eexists. split; [reflexivity | split; assumption].
  - split; [apply extends_refl | apply appends_refl].
Qed.

(** What the [try] block has done when it returns. *)
Lemma body_returned dev st d st' :
  analyzeFundFlows_body up dev st = (Returned d, st') ->
  exists signatures tally extra,
    aggregated up dev st tally /\
    let p := primary_graph dev (signatures_length signatures) tally in
    extends (p_nodes p) (p_nodes p ++ extra)%list /\
    nodes d = slice0 30 (p_nodes p ++ extra)%list /\
    totalFundsReceived d = t_received tally /\
    totalFundsSent d = t_sent tally /\
    fundingSources d = p_fundingSources p /\
    riskScore d = p_riskScore p /\
    suspiciousPatterns d = slice0 5 (p_suspiciousPatterns p).
Proof.
  unfold analyzeFundFlows_body. intro H.
  apply EffectsFacts.bind_returned in H as (signatures & st1 & Hsig & H).
  apply EffectsFacts.bind_returned in H as (sigs & st2 & Hslice & H).
  apply EffectsFacts.bind_returned in H as (tally & st3 & Hagg & H).
  apply EffectsFacts.bind_returned in H as (graph & st4 & Hsec & H).
  injection H as <- _.
  destruct (expand_secondary_returns
              (p_nodes (primary_graph dev (signatures_length signatures) tally))
              (p_links (primary_graph dev (signatures_length signatures) tally))
              st3) as (graph' & st4' & E & Hext & _).
  rewrite E in Hsec. injection Hsec as -> _.
  destruct Hext as [[extra Hextra] Hnd].
  exists signatures, tally, extra. split.
  - exists signatures, st1, sigs, st2, st3. repeat split; assumption.
  - cbv zeta. rewrite <- Hextra.
    cbn [nodes totalFundsReceived totalFundsSent fundingSources riskScore
         suspiciousPatterns].
    repeat split; try reflexivity.
    + exists extra. exact Hextra.
    + exact Hnd.
Qed.

(** The fund-flow analysis never throws. *)
Lemma analyzeFundFlows_returns dev st :
  exists d st', analyzeFundFlows up dev st = (Returned d, st').
Proof.
  unfold analyzeFundFlows. apply EffectsFacts.try_catch_total.
  intros e st0. eexists. eexists. reflexivity.
Qed.

(** Either the [try] block returned the result, or it threw and the result
    is the minimal one. *)
Lemma analyzeFundFlows_cases dev st d st' :
  analyzeFundFlows up dev st = (Returned d, st') ->
  analyzeFundFlows_body up dev st = (Returned d, st') \/
  (exists e, analyzeFundFlows_body up dev st = (Thrown e, st') /\
             d = minimal_data dev).
Proof.
  unfold analyzeFundFlows, try_catch.
  destruct (analyzeFundFlows_body up dev st) as [[d0 | e] st0]; intro H.
  - left. exact H.
  - right. exists e. injection H as <- <-. split; reflexivity.
Qed.

End Secondary.

End AggregatorFacts.

(** ** The fund-flow pipeline as a whole *)

Module PipelineFacts.
Import JS Effects FundFlow AggregatorFacts.

Lemma In_slice0 {A} (n : nat) (x : A) (xs : list A) :
  In x (slice0 n xs) -> In x xs.
Proof.
  unfold slice0. revert xs. induction n as [| n IH]; intros [| y ys]; simpl;
    try contradiction.
  intros [E | H]; [left; exact E | right; apply IH; exact H].
Qed.

Lemma NoDup_slice0 {A} (n : nat) (xs : list A) : NoDup xs -> NoDup (slice0 n xs).
Proof.
  unfold slice0. revert xs. induction n as [| n IH]; intros [| y ys] H; simpl;
    try constructor.
  - inversion H as [| ? ? Hnotin Hrest]; subst.
    intro Hin. apply Hnotin. apply (In_slice0 n). exact Hin.
  - inversion H; subst. apply IH. assumption.
Qed.

Lemma map_slice0 {A B} (f : A -> B) (n : nat) (xs : list A) :
  map f (slice0 n xs) = slice0 n (map f xs).
Proof.
  unfold slice0. revert xs. induction n as [| n IH]; intros [| y ys]; simpl;
    try reflexivity.
  rewrite IH. reflexivity.
Qed.

Section Pipeline.
Context {W : Type} (up : Upstream W).

(** In every result, node ids are pairwise different. *)
Lemma result_node_ids_unique dev st d st' :
  analyzeFundFlows up dev st = (Returned d, st') ->
  NoDup (map id (nodes d)).
Proof.
  intro H. apply analyzeFundFlows_cases in H as [H | (e & _ & ->)].
  - apply body_returned in H
      as (signatures & tally & extra & Hagg & Hext & Hnodes & _).
    rewrite Hnodes, map_slice0. apply NoDup_slice0.
    apply Hext. apply primary_ids_NoDup.
    apply (aggregated_keys_NoDup up dev st). exact Hagg.
  - cbn. constructor; [intros [] | constructor].
Qed.

(** C10. For every behaviour of the provider, the fund-flow analysis
    returns a result, and the list of suspicious patterns of that result
    does not contain the circular-funding pattern: the detector runs on
    nodes keyed by the aggregation map, whose ids are pairwise different, so
    no id belongs to both an incoming and an outgoing node. *)
Theorem pipeline_never_reports_circular_funding (dev : string) (st : State W) :
  exists d st',
    analyzeFundFlows up dev st = (Returned d, st') /\
    ~ In "Circular funding detected" (suspiciousPatterns d).
Proof.
  destruct (analyzeFundFlows_returns up dev st) as (d & st' & E).
  exists d, st'. split; [exact E |].
  apply analyzeFundFlows_cases in E as [H | (e & _ & ->)].
  - apply body_returned in H
      as (signatures & tally & extra & Hagg & _ & _ & _ & _ & _ & _ & Hpat).
    rewrite Hpat. intro Hin. apply In_slice0 in Hin.
    revert Hin.
    apply (unique_ids_not_circular
             (p_nodes (primary_graph dev (signatures_length signatures) tally))
             (p_links (primary_graph dev (signatures_length signatures) tally))
             (t_received tally) (t_sent tally)).
    apply primary_ids_NoDup.
    apply (aggregated_keys_NoDup up dev st). exact Hagg.
  - cbn. intros [H | []]. discriminate H.
Qed.

End Pipeline.

(** *** Truncation *)





(** **** A run with 31 material counterparties

    The developer's history holds 31 transactions, each a transfer to
    another wallet: thirty of 0.002 SOL and the last one of 0.009 SOL. *)

Definition digit (n : nat) : ascii := ascii_of_nat (48 + n).

(** [Wallet00], [Wallet01], ... *)
Definition wallet (i : nat) : string :=
  "Wallet" ++ String (digit (i / 10)) (String (digit (i mod 10)) "").

(** A system-program transfer of [lamports] from the developer to
    [recipient], with a fee of 5000 lamports. *)
Definition payment (recipient : string) (lamports : Z) : Transaction :=
  {| preBalances := [1000000000; 0; 1];
     postBalances := [1000000000 - lamports - 5000; lamports; 1];
     accountKeys := [KeyString "Dev"; KeyString recipient;
                     KeyString "11111111111111111111111111111111"];
     instructions := [ {| programId := "11111111111111111111111111111111";
                          program := "" |} ] |}.

(** The signature of the transfer to a wallet is named after the wallet. *)
Definition crowded_signatures : list SignatureInfo :=
  map (fun i => {| signature := wallet i; blockTime := 1700000000 + Z.of_nat i |})
      (seq 0 31).

Definition crowded_upstream : Upstream unit :=
  {| rpc_signatures := fun _ _ w => (Ok (Some (SigArray crowded_signatures)), w);
     rpc_transaction :=
       fun sig w =>
         (Ok (Some (payment sig (if String.eqb sig (wallet 30)
                                 then 9000000 else 2000000))), w) |}.


Definition crowded_result : FundFlowData :=
  Eval vm_compute in
    match fst (analyzeFundFlows crowded_upstream "Dev" (start tt)) with
    | Returned d => d
    | Thrown _ => minimal_data "Dev"
    end.





(** *** The order of the aggregation map *)










Section FirstSeen.
Context {W : Type} (up : Upstream W).







End FirstSeen.


(** *** Links whose node was cut off *)

(** Whether both ends of every link are ids of nodes of the result. *)
Definition links_resolve (d : FundFlowData) : bool :=
  forallb (fun l => has (map id (nodes d)) (source l) &&
                    has (map id (nodes d)) (target l))
          (links d).

(** C3, at the run with 31 material counterparties: the result holds 30
    nodes and all 31 links, and the last link points at a wallet that is
    not among the nodes. *)
Theorem crowded_run_leaves_dangling_link :
  fst (analyzeFundFlows crowded_upstream "Dev" (start tt)) = Returned crowded_result /\
  List.length (nodes crowded_result) = 30%nat /\
  List.length (links crowded_result) = 31%nat /\
  links_resolve crowded_result = false /\
  exists l, In l (links crowded_result) /\
            ~ In (target l) (map id (nodes crowded_result)).
Proof.
  split; [vm_compute; reflexivity |].
  split; [reflexivity |]. split; [reflexivity |]. split; [vm_compute; reflexivity |].
  pose (none := {| source := ""; target := ""; l_value := 0; l_amount := 0;
                   l_type := funding; frequency := 0; direction := to_developer |}).
  exists (nth 30 (links crowded_result) none). split.
  - apply nth_In. vm_compute. lia.
  - vm_compute. intro Hin.
    repeat (destruct Hin as [Hin | Hin]; [discriminate Hin |]). exact Hin.
Qed.

End PipelineFacts.

(** ** Internal errors and the minimal result *)

Module DegradedFacts.
Import JS Effects.

(** *** The fund-flow route *)

Lemma emit_sources_append dev (entries : FundFlow.SourceMap) :
  forall g,
    exists rest,
      FundFlow.g_nodes (fold_left (FundFlow.emit_source dev) entries g) =
      (FundFlow.g_nodes g ++ rest)%list.
Proof.
  induction entries as [| entry rest IH]; intro g; simpl.
  - exists []. symmetry. apply app_nil_r.
  - destruct (IH (FundFlow.emit_source dev g entry)) as [more E]. rewrite E.
    unfold FundFlow.emit_source.
    destruct (FundFlow.material dev entry); cbn [FundFlow.g_nodes].
    + unfold push. rewrite <- app_assoc. eexists. reflexivity.
    + exists more. reflexivity.
Qed.

(** The node list starts with the developer node before the secondary
    pass. *)
Lemma primary_head dev n (tally : FundFlow.Tally) :
  exists node rest,
    FundFlow.p_nodes (FundFlow.primary_graph dev n tally) = node :: rest /\
    FundFlow.id node = dev /\ FundFlow.type node = FundFlow.developer.
Proof.
  unfold FundFlow.primary_graph. cbn [FundFlow.p_nodes].
  destruct (emit_sources_append dev (FundFlow.fundSources tally)
              {| FundFlow.g_nodes := [FundFlow.developer_node dev];
                 FundFlow.g_links := [];
                 FundFlow.g_nodeIndex := 1;
                 FundFlow.g_fundingSources := 0 |}) as [rest E].
  rewrite E. cbn. rewrite String.eqb_refl.
  eexists. eexists. split; [reflexivity |]. split; reflexivity.
Qed.

Section FundFlowRoute.
Context {W : Type} (up : FundFlow.Upstream W).

Lemma fund_flow_central_node dev st d st' :
  FundFlow.analyzeFundFlows up dev st = (Returned d, st') ->
  exists node rest,
    FundFlow.nodes d = node :: rest /\
    FundFlow.id node = dev /\ FundFlow.type node = FundFlow.developer.
Proof.
  intro H.
  apply AggregatorFacts.analyzeFundFlows_cases in H as [H | (e & _ & ->)].
  - apply AggregatorFacts.body_returned in H
      as (signatures & tally & extra & _ & _ & Hnodes & _).
    destruct (primary_head dev (FundFlow.signatures_length signatures) tally)
      as (node & rest & E & Hid & Hty).
    rewrite Hnodes, E. cbn.
    exists node. eexists. split; [reflexivity |]. split; assumption.
  - cbn. eexists. eexists. split; [reflexivity |]. split; reflexivity.
Qed.

End FundFlowRoute.

(** *** The developer-network route *)

Import DeveloperNetwork.

Lemma add_sources_append dev (found : list ConnectionSource) :
  forall acc,
    exists rest,
      nodes (fst (fold_left (add_source dev) found acc)) =
      (nodes (fst acc) ++ rest)%list.
Proof.
  induction found as [| source rest IH]; intro acc; simpl.
  - exists []. symmetry. apply app_nil_r.
  - destruct (IH (add_source dev acc source)) as [more E]. rewrite E.
    destruct acc as [d index]. cbn. unfold push. rewrite <- app_assoc.
    eexists. reflexivity.
Qed.

Section DeveloperNetworkRoute.
Context {W : Type} (up : FundFlow.Upstream W).

Lemma getDeveloperConnections_returns dev st :
  exists found st', getDeveloperConnections up dev st = (Returned found, st').
Proof.
  unfold getDeveloperConnections. apply EffectsFacts.try_catch_total.
  intros e st0. eexists. eexists. reflexivity.
Qed.

(** The [try] block of the developer-network analysis returns, and its
    node list starts with the developer node. *)
Lemma developer_network_body_returns dev st :
  exists d st',
    analyzeDeveloperNetwork_body up dev st = (Returned d, st') /\
    exists node rest,
      nodes d = node :: rest /\ id node = dev /\ type node = developer.
Proof.
  unfold analyzeDeveloperNetwork_body, bind.
  destruct (getDeveloperConnections_returns dev st) as (found & st1 & E).
  rewrite E.
  destruct (add_sources_append dev (sources found)
              ({| nodes := [developer_node dev]; links := [];
                  totalFunding := 0; fundingSources := 0 |}, 0))
    as [rest Hrest].
  destruct (fold_left (add_source dev) (sources found) _) as [d index].
  cbn [fst nodes] in Hrest. cbn.
  eexists. eexists. split; [reflexivity |].
  cbn [nodes]. rewrite Hrest. cbn. rewrite String.eqb_refl.
  eexists. eexists. split; [reflexivity |]. split; reflexivity.
Qed.

End DeveloperNetworkRoute.

(** A provider whose signatures reply carries a [result] that is not an
    array. *)
Definition malformed_upstream : FundFlow.Upstream unit :=
  {| FundFlow.rpc_signatures := fun _ _ w => (Ok (Some FundFlow.SigOther), w);
     FundFlow.rpc_transaction := fun _ w => (Ok None, w) |}.

(** C8. Both analyses return a result whatever the provider answers, and
    the result starts with the central developer node.  When the [try]
    block of the fund-flow analysis throws, the result is the developer
    node alone, no links, zero totals, risk score 50 and the single pattern
    "Unable to analyze fund flows"; when the [try] block of the
    developer-network analysis throws, the result is the developer node
    alone, no links and zero totals. *)
Theorem internal_error_gives_minimal_result :
  (forall (W : Type) (up : FundFlow.Upstream W) (dev : string) (st : State W),
     exists d st',
       FundFlow.analyzeFundFlows up dev st = (Returned d, st') /\
       (exists node rest,
          FundFlow.nodes d = node :: rest /\
          FundFlow.id node = dev /\ FundFlow.type node = FundFlow.developer) /\
       (forall e st1,
          FundFlow.analyzeFundFlows_body up dev st = (Thrown e, st1) ->
          FundFlow.nodes d = [FundFlow.developer_node dev] /\
          FundFlow.links d = [] /\
          FundFlow.totalFundsReceived d = 0 /\
          FundFlow.totalFundsSent d = 0 /\
          FundFlow.fundingSources d = 0 /\
          FundFlow.riskScore d = 50 /\
          FundFlow.suspiciousPatterns d = ["Unable to analyze fund flows"])) /\
  (forall (W : Type) (up : FundFlow.Upstream W) (dev : string) (st : State W),
     exists d st',
       analyzeDeveloperNetwork up dev st = (Returned d, st') /\
       (exists node rest,
          nodes d = node :: rest /\ id node = dev /\ type node = developer) /\
       (forall e st1,
          analyzeDeveloperNetwork_body up dev st = (Thrown e, st1) ->
          nodes d = [developer_node dev] /\
          links d = [] /\ totalFunding d = 0 /\ fundingSources d = 0)).
Proof.
  split; intros W up dev st.
  - destruct (AggregatorFacts.analyzeFundFlows_returns up dev st) as (d & st' & E).
    exists d, st'. split; [exact E |]. split.
    + apply (fund_flow_central_node up dev st d st'). exact E.
    + intros e st1 Hthrown. revert E.
      unfold FundFlow.analyzeFundFlows, try_catch. rewrite Hthrown.
      intro E. injection E as <- _. repeat split; reflexivity.
  - destruct (developer_network_body_returns up dev st)
      as (d & st' & E & Hhead).
    exists d, st'. split; [| split].
    + unfold analyzeDeveloperNetwork, try_catch. rewrite E. reflexivity.
    + exact Hhead.
    + intros e st1 Hthrown. rewrite E in Hthrown. discriminate Hthrown.
Qed.

Lemma internal_error_gives_minimal_result_witness :
  exists d st',
    FundFlow.analyzeFundFlows malformed_upstream "Dev" (start tt) = (Returned d, st') /\
    FundFlow.nodes d = [FundFlow.developer_node "Dev"] /\
    FundFlow.links d = [] /\
    FundFlow.totalFundsReceived d = 0 /\
    FundFlow.totalFundsSent d = 0 /\
    FundFlow.fundingSources d = 0 /\
    FundFlow.riskScore d = 50 /\
    FundFlow.suspiciousPatterns d = ["Unable to analyze fund flows"].
Proof.
  destruct (proj1 internal_error_gives_minimal_result
              unit malformed_upstream "Dev" (start tt))
    as (d & st' & E & _ & Hminimal).
  exists d, st'. split; [exact E |].
  apply (Hminimal "signatures.slice is not a function"
           {| world := tt;
              calls := [RpcGetSignaturesForAddress "Dev" 200] |}).
  vm_compute. reflexivity.
Defined.

End DegradedFacts.

(** ** Address validation before upstream calls *)

Module ValidationFacts.
Import JS Effects.

(** The scoring route rejects an address that fails the format check with
    status 400 and leaves the world and the call log as they were. *)
Lemma scoring_route_rejects_locally {W} (up : Reputability.Upstream W)
    (address : string) (st : State W) :
  address_regex_test address = false ->
  exists message,
    Reputability.POST up (Reputability.Body address) st =
    (Returned (Reputability.JsonError 400 message), st).
Proof.
  intro H. unfold Reputability.POST, try_catch, bind, Reputability.request_json, ret.
  destruct (truthy address); cbn.
  - rewrite H. cbn. eexists. reflexivity.
  - eexists. reflexivity.
Qed.

(** The HeliusAPI client refuses such an address before any request. *)
Lemma helius_client_rejects_locally {W} (up : Reputability.Upstream W)
    (address : string) (limit : Z) (st : State W) :
  address_regex_test address = false ->
  Reputability.getTransactionHistory up address limit st =
  (Thrown "Invalid wallet address format", st).
Proof.
  intro H. unfold Reputability.getTransactionHistory, Reputability.invalid_address.
  rewrite H. rewrite orb_true_r. reflexivity.
Qed.

(** A provider that knows no signatures for any address. *)
Definition silent_upstream : FundFlow.Upstream unit :=
  {| FundFlow.rpc_signatures := fun _ _ w => (Ok (Some (FundFlow.SigArray [])), w);
     FundFlow.rpc_transaction := fun _ w => (Ok None, w) |}.

Definition malformed_address : string := "not-an-address!".

(** C7, at the fund-flow route with an address of 15 characters, two of
    them outside the base58 alphabet: the route answers 200 with a graph
    after asking the provider for the signatures of that address. *)
Theorem fund_flow_route_queries_provider_for_malformed_address :
  address_regex_test malformed_address = false /\
  exists body st',
    FundFlow.POST silent_upstream (FundFlow.Body malformed_address) (start tt) =
    (Returned (FundFlow.Json body), st') /\
    calls st' = [RpcGetSignaturesForAddress malformed_address 200] /\
    existsb to_chain_data_provider (calls st') = true.
Proof.
  split; [reflexivity |].
  eexists. eexists. split; [vm_compute; reflexivity |].
  split; reflexivity.
Qed.

End ValidationFacts.

(** * Further properties of the routes *)

(** ** The HeliusAPI guard and the scoring route *)

Module ScoringRouteFacts.
Import JS Effects Reputability.

Lemma base58_char_not_blank (c : ascii) (rest : string) :
  base58_char c = true -> blank (String c rest) = false.
Proof.
  destruct c as [[] [] [] [] [] [] [] []]; intro H;
    first [reflexivity | discriminate H].
Qed.

Lemma regex_test_nonempty (address : string) :
  address_regex_test address = true ->
  exists c rest, address = String c rest /\ base58_char c = true.
Proof.
  unfold address_regex_test. intro H.
  apply andb_prop in H as [Hall Hlen]. apply andb_prop in Hlen as [Hlo _].
  destruct address as [| c rest]; [discriminate Hlo |].
  cbn in Hall. apply andb_prop in Hall as [Hc _].
  exists c, rest. split; [reflexivity | exact Hc].
Qed.

Lemma valid_address_passes_guard (address : string) :
  address_regex_test address = true -> invalid_address address = false.
Proof.
  intro E. unfold invalid_address. rewrite E.
  apply regex_test_nonempty in E as (c & rest & -> & Hc).
  rewrite (base58_char_not_blank c rest Hc). reflexivity.
Qed.

(** X1. The guard of the HeliusAPI methods rejects exactly the addresses
    that fail the format test: the emptiness test and the blank test
    before it never decide. *)
Theorem helius_guard_is_the_format_test (address : string) :
  invalid_address address = negb (address_regex_test address).
Proof.
  destruct (address_regex_test address) eqn:E; cbn.
  - apply valid_address_passes_guard. exact E.
  - unfold invalid_address. rewrite E. apply orb_true_r.
Qed.

(** X2. For an address that passes the format test, the transaction
    history method sends one request whose limit lies between 1 and 100,
    and is the requested limit when that already lies in the range. *)
Theorem history_request_limit_is_clamped {W} (up : Upstream W)
    (address : string) (limit : Z) (st : State W) :
  address_regex_test address = true ->
  exists sent,
    1 <= sent <= 100 /\
    (1 <= limit <= 100 -> sent = limit) /\
    calls (snd (getTransactionHistory up address limit st)) =
    (calls st ++ [HeliusTransactions address sent])%list.
Proof.
  intro H. unfold getTransactionHistory.
  rewrite (valid_address_passes_guard address H).
  exists (Math_min (Math_max 1 limit) 100).
  split; [unfold Math_min, Math_max; lia |].
  split; [unfold Math_min, Math_max; lia |].
  unfold request.
  destruct (helius_transactions up address _ (world st)) as [[txs | e] w]; reflexivity.
Qed.

Lemma history_request_limit_is_clamped_witness :
  exists sent,
    1 <= sent <= 100 /\
    (1 <= 500 <= 100 -> sent = 500) /\
    calls (snd (getTransactionHistory ReputabilityFacts.quiet_upstream
                  ReputabilityFacts.some_wallet 500 (start tt))) =
    ([] ++ [HeliusTransactions ReputabilityFacts.some_wallet sent])%list.
Proof.
  apply (history_request_limit_is_clamped ReputabilityFacts.quiet_upstream
           ReputabilityFacts.some_wallet 500 (start tt)).
  reflexivity.
Defined.

(** A fetch inside its own [try]/[catch] with a default: the request is
    sent once, and a failure is replaced by the default. *)
Lemma guarded_request {W A} (c : Call) (f : W -> Reply A * W) (default : A)
    (st : State W) :
  try_catch (request c f) (fun _ => ret default) st =
  (Returned (match fst (f (world st)) with Ok a => a | Failed _ => default end),
   {| world := snd (f (world st)); calls := push (calls st) c |}).
Proof.
  unfold try_catch, request, ret.
  destruct (f (world st)) as [[a | e] w]; reflexivity.
Qed.

(** What the route takes a reply for: a failed request and a null payload
    count as an empty array. *)
Definition or_empty {A} (reply : Reply (Payload A)) : Payload A :=
  match reply with
  | Ok Null | Failed _ => Records []
  | Ok payload => payload
  end.

Definition readable {A} (payload : Payload A) : bool :=
  match payload with Records _ => true | _ => false end.

Lemma history_step {W} (up : Upstream W) (address : string) (st : State W) :
  address_regex_test address = true ->
  try_catch (transactions <- getTransactionHistory up address 100 ;;
             read_length transactions)%effect
            (fun _ => ret (Records [])) st =
  (Returned (or_empty (fst (helius_transactions up address 100 (world st)))),
   {| world := snd (helius_transactions up address 100 (world st));
      calls := push (calls st) (HeliusTransactions address 100) |}).
Proof.
  intro H. unfold getTransactionHistory.
  rewrite (valid_address_passes_guard address H).
  change (Math_min (Math_max 1 100) 100) with 100.
  unfold try_catch, bind, request, read_length, ret, throw.
  destruct (helius_transactions up address 100 (world st)) as [[[txs | |] | e] w];
    reflexivity.
Qed.

Lemma balances_step {W} (up : Upstream W) (address : string) (st : State W) :
  address_regex_test address = true ->
  try_catch (getTokenBalances up address) (fun _ => ret (Records [])) st =
  (Returned (or_empty (fst (helius_token_accounts up address (world st)))),
   {| world := snd (helius_token_accounts up address (world st));
      calls := push (calls st) (HeliusTokenAccounts address) |}).
Proof.
  intro H. unfold getTokenBalances.
  rewrite (valid_address_passes_guard address H).
  unfold try_catch, bind, request, ret.
  destruct (helius_token_accounts up address (world st)) as [[[tbs | |] | e] w];
    reflexivity.
Qed.

Lemma info_step {W} (up : Upstream W) (address : string) (st : State W) :
  address_regex_test address = true ->
  try_catch (info <- getAccountInfo up address ;; ret (Some info))%effect
            (fun _ => ret None) st =
  (Returned (match fst (helius_account_info up address (world st)) with
             | Ok info => Some info
             | Failed _ => None
             end),
   {| world := snd (helius_account_info up address (world st));
      calls := push (calls st) (HeliusAccountInfo address) |}).
Proof.
  intro H. unfold getAccountInfo.
  rewrite (valid_address_passes_guard address H).
  unfold try_catch, bind, request, ret.
  destruct (helius_account_info up address (world st)) as [[info | e] w];
    reflexivity.
Qed.

Section ValidAddress.
Context {W : Type} (up : Upstream W) (address : string) (st : State W).

(** The replies of the three provider requests, in the order the handler
    asks, and what the handler takes them for. *)
Definition history_reply := helius_transactions up address 100 (world st).
Definition fetched_transactions : Payload HeliusTransaction :=
  or_empty (fst history_reply).
Definition balances_reply := helius_token_accounts up address (snd history_reply).
Definition fetched_balances : Payload TokenBalance :=
  or_empty (fst balances_reply).
Definition info_reply := helius_account_info up address (snd balances_reply).
Definition fetched_info : option AccountInfo :=
  match fst info_reply with Ok info => Some info | Failed _ => None end.

Definition provider_requests : list Call :=
  [HeliusTransactions address 100; HeliusTokenAccounts address;
   HeliusAccountInfo address].

(** The analysis of what was fetched, when it can be read. *)
Definition analysis_of (transactions : list HeliusTransaction)
    (tokenBalances : list TokenBalance) : Analysis :=
  analyzeWalletData (date_now up (snd info_reply)) transactions tokenBalances
    fetched_info address.

Definition text_reply (analysis : Analysis) :=
  generate_text up
    (explanation_prompt analysis (fst (calculateReputabilityScore analysis)))
    (snd info_reply).

(** The response body for an analysis. *)
Definition answer (analysis : Analysis) : ScoreResult :=
  let score := fst (calculateReputabilityScore analysis) in
  {| score := score;
     explanation :=
       match fst (text_reply analysis) with
       | Ok text => [Lit text]
       | Failed _ => fallback_explanation analysis score
       end;
     factors := snd (calculateReputabilityScore analysis);
     riskLevel := riskLevelOf score;
     recommendations := generateRecommendations analysis score;
     walletAnalysis := analysis |}.

(** The handler from the analysis on. *)
Lemma POST_tail (analysis : Analysis) (st5 : State W) :
  world st5 = snd info_reply ->
  (let '(score, factors) := calculateReputabilityScore analysis in
   explanation <- generateAIExplanation up analysis score ;;
   ret (Json {| score := score;
                explanation := explanation;
                factors := factors;
                riskLevel := riskLevelOf score;
                recommendations := generateRecommendations analysis score;
                walletAnalysis := analysis |}))%effect st5 =
  (Returned (Json (answer analysis)),
   {| world := snd (text_reply analysis);
      calls := push (calls st5) GenerateText |}).
Proof.
  intro Hw. unfold answer, text_reply. rewrite <- Hw.
  destruct (calculateReputabilityScore analysis) as [sc fs]. cbn [fst snd].
  unfold generateAIExplanation. unfold bind, try_catch, request, ret. cbv beta.
  destruct (generate_text up (explanation_prompt analysis sc) (world st5))
    as [[text | e] w]; reflexivity.
Qed.

(** What the handler does for an address that passed the checks. *)
Lemma POST_valid_address :
  address_regex_test address = true ->
  POST up (Body address) st =
  match fetched_transactions, fetched_balances with
  | Records transactions, Records tokenBalances =>
      (Returned (Json (answer (analysis_of transactions tokenBalances))),
       {| world := snd (text_reply (analysis_of transactions tokenBalances));
          calls := (calls st ++ provider_requests ++ [GenerateText])%list |})
  | _, _ =>
      (Returned
         (JsonError 500 "Failed to generate reputability score. Please try again."),
       {| world := snd info_reply;
          calls := (calls st ++ provider_requests)%list |})
  end.
Proof.
  intro H.
  assert (Ht : truthy address = true).
  { destruct (regex_test_nonempty address H) as (c & rest & -> & _). reflexivity. }
  unfold POST, request_json. unfold try_catch at 1. unfold bind at 1.
  unfold ret at 1. cbv beta iota. rewrite Ht, H. cbv beta iota delta [negb].
  unfold bind at 1. rewrite (history_step up address st H).
  unfold bind at 1. rewrite (balances_step up address _ H). cbn [world calls].
  unfold bind at 1. rewrite (info_step up address _ H). cbn [world calls].
  fold history_reply. fold balances_reply. fold info_reply.
  fold fetched_transactions. fold fetched_balances. fold fetched_info.
  unfold bind at 1. unfold read_wallet_data at 1. unfold bind at 1, observe at 1.
  cbn [world calls].
  assert (Calls3 : push (push (push (calls st) (HeliusTransactions address 100))
                              (HeliusTokenAccounts address))
                        (HeliusAccountInfo address) =
                   (calls st ++ provider_requests)%list).
  { unfold push, provider_requests. rewrite <- !app_assoc. reflexivity. }
  rewrite Calls3.
  destruct fetched_transactions as [transactions | |];
    [| reflexivity | reflexivity].
  destruct fetched_balances as [tokenBalances | |];
    [| reflexivity | reflexivity].
  unfold ret at 1. fold (analysis_of transactions tokenBalances).
  rewrite POST_tail by reflexivity. cbn [calls].
  unfold push. rewrite <- app_assoc. reflexivity.
Qed.

End ValidAddress.

(** X3. For every address that passes the format test, and for every
    reply of the services (a failure, null, an array of records, or a value
    that [analyzeWalletData] cannot read), the scoring route sends the
    transaction-history request with limit 100, the token-accounts request
    and the account-info request, in this order.  A failed request or a
    null payload counts as an empty array.  When the history and the token
    accounts it has then are arrays of records, it sends the
    text-generation request as a fourth and answers with a result, whether
    or not that request succeeds; when one of them is a value that
    [analyzeWalletData] cannot read, it answers with status 500 after the
    three requests.  No request is repeated. *)
Theorem scoring_route_requests_in_fixed_order {W} (up : Upstream W)
    (address : string) (st : State W) :
  address_regex_test address = true ->
  exists response st',
    POST up (Body address) st = (Returned response, st') /\
    if readable (fetched_transactions up address st) &&
       readable (fetched_balances up address st)
    then
      (exists body, response = Json body) /\
      calls st' =
        (calls st ++ [HeliusTransactions address 100; HeliusTokenAccounts address;
                      HeliusAccountInfo address; GenerateText])%list
    else
      response =
        JsonError 500 "Failed to generate reputability score. Please try again." /\
      calls st' =
        (calls st ++ [HeliusTransactions address 100; HeliusTokenAccounts address;
                      HeliusAccountInfo address])%list.
Proof.
  intro H. rewrite (POST_valid_address up address st H).
  destruct (fetched_transactions up address st) as [transactions | |];
    destruct (fetched_balances up address st) as [tokenBalances | |];
    eexists; eexists; (split; [reflexivity |]); cbn [readable andb];
    split; try reflexivity.
  eexists. reflexivity.
Qed.

Lemma scoring_route_requests_in_fixed_order_witness :
  exists response st',
    POST ReputabilityFacts.quiet_upstream (Body ReputabilityFacts.some_wallet)
         (start tt) = (Returned response, st') /\
    (exists body, response = Json body) /\
    calls st' =
      ([] ++ [HeliusTransactions ReputabilityFacts.some_wallet 100;
              HeliusTokenAccounts ReputabilityFacts.some_wallet;
              HeliusAccountInfo ReputabilityFacts.some_wallet; GenerateText])%list.
Proof.
  apply (scoring_route_requests_in_fixed_order ReputabilityFacts.quiet_upstream
           ReputabilityFacts.some_wallet (start tt)).
  reflexivity.
Defined.

(** A provider whose history reply is a JSON object instead of an array. *)
Definition garbled_upstream : Upstream unit :=
  {| date_now := fun _ => 1700000000000;
     helius_transactions := fun _ _ w => (Ok Unreadable, w);
     helius_token_accounts := fun _ w => (Ok (Records []), w);
     helius_account_info := fun _ w => (Failed "not found", w);
     generate_text := fun _ w => (Ok "A fine wallet.", w) |}.

(** With that provider a well-formed address gets status 500, after three
    requests. *)
Lemma garbled_history_gives_500 :
  POST garbled_upstream (Body ReputabilityFacts.some_wallet) (start tt) =
  (Returned (JsonError 500 "Failed to generate reputability score. Please try again."),
   {| world := tt;
      calls := [HeliusTransactions ReputabilityFacts.some_wallet 100;
                HeliusTokenAccounts ReputabilityFacts.some_wallet;
                HeliusAccountInfo ReputabilityFacts.some_wallet] |}).
Proof. vm_compute. reflexivity. Qed.

(** Without transactions the analysis is the same whatever the clock, the
    balances and the wallet: base score 50 and four recommendations. *)
Lemma empty_history_outputs now tokenBalances accountInfo address :
  let analysis := analyzeWalletData now [] tokenBalances accountInfo address in
  fst (calculateReputabilityScore analysis) = 50 /\
  transactionCount analysis = 0 /\
  generateRecommendations analysis 50 =
    [ "Consider staking SOL or tokens to demonstrate long-term commitment to the ecosystem";
      "Diversify transaction counterparties to show legitimate usage patterns";
      "Increase usage of verified DeFi protocols like Jupiter, Raydium, or Marinade";
      "Continue building transaction history over time to establish credibility" ].
Proof. cbv zeta. repeat split; reflexivity. Qed.

(** X4. When the transaction-history request fails, or brings null or an
    empty array, and the token accounts the route has are an array of
    records (a failed request or a falsy payload counts as an empty one),
    the scoring route answers a well-formed address with a result: score
    50, risk level [high], zero transactions, and the four recommendations
    on staking, counterparties, verified protocols and history, whatever
    the token accounts hold and whatever the account-info and
    text-generation services answer. *)
Theorem missing_history_scores_fifty {W} (up : Upstream W)
    (address : string) (st : State W) :
  address_regex_test address = true ->
  fetched_transactions up address st = Records [] ->
  readable (fetched_balances up address st) = true ->
  exists body st',
    POST up (Body address) st = (Returned (Json body), st') /\
    score body = 50 /\
    riskLevel body = high /\
    transactionCount (walletAnalysis body) = 0 /\
    recommendations body =
      [ "Consider staking SOL or tokens to demonstrate long-term commitment to the ecosystem";
        "Diversify transaction counterparties to show legitimate usage patterns";
        "Increase usage of verified DeFi protocols like Jupiter, Raydium, or Marinade";
        "Continue building transaction history over time to establish credibility" ].
Proof.
  intros H Hempty Hread. rewrite (POST_valid_address up address st H), Hempty.
  destruct (fetched_balances up address st) as [tokenBalances | |];
    try discriminate Hread.
  eexists. eexists. split; [reflexivity |].
  unfold answer. cbn [score riskLevel recommendations walletAnalysis].
  unfold analysis_of.
  destruct (empty_history_outputs
              (date_now up (snd (info_reply up address st)))
              tokenBalances (fetched_info up address st) address)
    as (Hs & Hc & Hr).
  rewrite Hs. split; [reflexivity |]. split; [reflexivity |].
  split; [exact Hc | exact Hr].
Qed.

Lemma missing_history_scores_fifty_witness :
  exists body st',
    POST ReputabilityFacts.quiet_upstream (Body ReputabilityFacts.some_wallet)
         (start tt) = (Returned (Json body), st') /\
    score body = 50 /\
    riskLevel body = high /\
    transactionCount (walletAnalysis body) = 0 /\
    recommendations body =
      [ "Consider staking SOL or tokens to demonstrate long-term commitment to the ecosystem";
        "Diversify transaction counterparties to show legitimate usage patterns";
        "Increase usage of verified DeFi protocols like Jupiter, Raydium, or Marinade";
        "Continue building transaction history over time to establish credibility" ].
Proof.
  apply (missing_history_scores_fifty ReputabilityFacts.quiet_upstream
           ReputabilityFacts.some_wallet (start tt)); reflexivity.
Defined.

(** X20. The scoring route answers a request whose address fails the
    format test with status 400 and does nothing else: the world and the
    request log are as before.  The message says that the address is
    required when it is missing or empty, and that its format is invalid
    otherwise.  A body that cannot be parsed is answered with status 500,
    also without any request. *)
Theorem scoring_route_rejects_without_requests {W} (up : Upstream W)
    (address message : string) (st : State W) :
  address_regex_test address = false ->
  POST up (Body address) st =
    (Returned (JsonError 400 (if truthy address
                              then "Invalid wallet address format"
                              else "Wallet address is required")), st) /\
  POST up (Unparsable message) st =
    (Returned (JsonError 500 "Failed to generate reputability score. Please try again."),
     st).
Proof.
  intro H. split.
  - unfold POST, try_catch, bind, request_json, ret.
    destruct (truthy address); cbn; [rewrite H |]; reflexivity.
  - reflexivity.
Qed.

Lemma scoring_route_rejects_without_requests_witness :
  POST ReputabilityFacts.quiet_upstream (Body "not-an-address!") (start tt) =
    (Returned (JsonError 400 "Invalid wallet address format"), start tt) /\
  POST ReputabilityFacts.quiet_upstream (Unparsable "Unexpected end of JSON input")
       (start tt) =
    (Returned (JsonError 500 "Failed to generate reputability score. Please try again."),
     start tt).
Proof.
  apply (scoring_route_rejects_without_requests ReputabilityFacts.quiet_upstream
           "not-an-address!" "Unexpected end of JSON input" (start tt)).
  reflexivity.
Defined.

End ScoringRouteFacts.

(** ** The scorer and the recommendations *)

Module ScorerFacts.
Import JS Reputability.

Lemma Math_round_le (x y : Q) : (x <= y)%Q -> Math_round x <= Math_round y.
Proof.
  intro H. unfold Math_round. apply Qfloor_resp_le.
  apply Qplus_le_compat; [exact H | apply Qle_refl].
Qed.

Lemma scaled_round_le (x y k : Q) :
  (0 <= k)%Q -> (x <= y)%Q -> Math_round (x * k) <= Math_round (y * k).
Proof.
  intros Hk H. apply Math_round_le. apply Qmult_le_compat_r; assumption.
Qed.

Lemma final_score_le (s t : Z) :
  s <= t ->
  Math_max 0 (Math_min 100 (Math_round (inject_Z s))) <=
  Math_max 0 (Math_min 100 (Math_round (inject_Z t))).
Proof.
  intro H.
  assert (Hr : Math_round (inject_Z s) <= Math_round (inject_Z t)).
  { apply Math_round_le. rewrite <- Zle_Qle. exact H. }
  unfold Math_max, Math_min. lia.
Qed.

(** X5. An analysis that is no better than another on any of the eight
    inputs of the scorer (no fewer flagged interactions, blacklisted uses
    and large transfers; no more diversity, staking, age, legitimate uses
    and frequency) never gets the higher score. *)
Theorem score_is_monotone (better worse : Analysis) :
  flaggedInteractions better <= flaggedInteractions worse ->
  blacklistedProgramUsage better <= blacklistedProgramUsage worse ->
  largeTransfers better <= largeTransfers worse ->
  (counterpartyDiversity worse <= counterpartyDiversity better)%Q ->
  (stakingActivityRatio worse <= stakingActivityRatio better)%Q ->
  (walletAgeMonths worse <= walletAgeMonths better)%Q ->
  legitimateProgramUsage worse <= legitimateProgramUsage better ->
  (transactionFrequency worse <= transactionFrequency better)%Q ->
  fst (calculateReputabilityScore worse) <= fst (calculateReputabilityScore better).
Proof.
  intros Hf Hb Hl Hd Hs Ha Hg Hq.
  unfold calculateReputabilityScore. cbn [fst].
  apply final_score_le.
  pose proof (scaled_round_le _ _ 20 ltac:(discriminate) Hd) as Rd.
  pose proof (scaled_round_le _ _ 25 ltac:(discriminate) Hs) as Rs.
  pose proof (scaled_round_le _ _ 2 ltac:(discriminate) Ha) as Ra.
  pose proof (scaled_round_le _ _ 5 ltac:(discriminate) Hq) as Rq.
  unfold Math_min. lia.
Qed.

Lemma score_is_monotone_witness :
  fst (calculateReputabilityScore
         {| flaggedInteractions := 1; blacklistedProgramUsage := 0;
            legitimateProgramUsage := 4; largeTransfers := 5;
            totalVolume := 0; counterpartyCount := 6;
            counterpartyDiversity := 4 # 10; walletAgeMonths := 6;
            transactionCount := 30; recentTransactions := 15;
            transactionFrequency := 5 # 10; stakingTransactions := 6;
            stakingActivityRatio := 2 # 10; tokenCount := 0;
            hasStakedTokens := false; programsUsed := []; uniquePrograms := 0 |})
  <= fst (calculateReputabilityScore ReputabilityFacts.example_analysis).
Proof.
  apply score_is_monotone; cbn; first [lia | apply Qle_refl].
Defined.

(** X6. The large-transfer penalty stops growing at ten transfers: two
    analyses with ten or more large transfers each, equal on the other seven
    inputs of the scorer, get the same score. *)
Theorem large_transfer_penalty_is_capped (a b : Analysis) :
  10 <= largeTransfers a ->
  10 <= largeTransfers b ->
  flaggedInteractions a = flaggedInteractions b ->
  blacklistedProgramUsage a = blacklistedProgramUsage b ->
  (counterpartyDiversity a == counterpartyDiversity b)%Q ->
  (stakingActivityRatio a == stakingActivityRatio b)%Q ->
  (walletAgeMonths a == walletAgeMonths b)%Q ->
  legitimateProgramUsage a = legitimateProgramUsage b ->
  (transactionFrequency a == transactionFrequency b)%Q ->
  fst (calculateReputabilityScore a) = fst (calculateReputabilityScore b).
Proof.
  intros Ha Hb Hf Hk Hd Hs Hw Hg Hq.
  unfold calculateReputabilityScore. cbn [fst].
  rewrite Hf, Hk, Hg.
  rewrite (ReputabilityFacts.Math_round_comp (counterpartyDiversity a * 20)
             (counterpartyDiversity b * 20)) by (rewrite Hd; reflexivity).
  rewrite (ReputabilityFacts.Math_round_comp (stakingActivityRatio a * 25)
             (stakingActivityRatio b * 25)) by (rewrite Hs; reflexivity).
  rewrite (ReputabilityFacts.Math_round_comp (walletAgeMonths a * 2)
             (walletAgeMonths b * 2)) by (rewrite Hw; reflexivity).
  rewrite (ReputabilityFacts.Math_round_comp (transactionFrequency a * 5)
             (transactionFrequency b * 5)) by (rewrite Hq; reflexivity).
  replace (Math_min (largeTransfers a * 3) 30) with 30 by (unfold Math_min; lia).
  replace (Math_min (largeTransfers b * 3) 30) with 30 by (unfold Math_min; lia).
  reflexivity.
Qed.

(** The documented example with 10 and with 100 large transfers. *)
Definition example_with_large (n : Z) : Analysis :=
  {| flaggedInteractions := 0; blacklistedProgramUsage := 0;
     legitimateProgramUsage := 4; largeTransfers := n;
     totalVolume := 0; counterpartyCount := 6;
     counterpartyDiversity := 4 # 10; walletAgeMonths := 6;
     transactionCount := 30; recentTransactions := 15;
     transactionFrequency := 5 # 10; stakingTransactions := 6;
     stakingActivityRatio := 2 # 10; tokenCount := 0;
     hasStakedTokens := false; programsUsed := []; uniquePrograms := 0 |}.

Lemma large_transfer_penalty_is_capped_witness :
  fst (calculateReputabilityScore (example_with_large 10)) =
  fst (calculateReputabilityScore (example_with_large 100)).
Proof.
  apply large_transfer_penalty_is_capped; cbn; first [lia | reflexivity].
Defined.

(** *** Recommendations *)

Definition default_recommendations : list string :=
  [ "Maintain current positive behavior patterns and continue regular DeFi participation";
    "Consider increasing staking activity to further improve reputation score" ].

(** No advisory condition holds for the analysis. *)
Definition nothing_to_advise (analysis : Analysis) : Prop :=
  flaggedInteractions analysis <= 0 /\
  blacklistedProgramUsage analysis <= 0 /\
  (1 # 10 <= stakingActivityRatio analysis)%Q /\
  (3 # 10 <= counterpartyDiversity analysis)%Q /\
  3 <= legitimateProgramUsage analysis /\
  (3 <= walletAgeMonths analysis)%Q /\
  largeTransfers analysis <= 10.

Lemma Qltb_false (x y : Q) : Qltb x y = false <-> (y <= x)%Q.
Proof.
  unfold Qltb. rewrite negb_false_iff. apply Qle_bool_iff.
Qed.

Lemma gtb_false (x y : Z) : (x >? y) = false <-> x <= y.
Proof. rewrite Z.gtb_ltb. apply Z.ltb_ge. Qed.

Lemma ltb_false (x y : Z) : (x <? y) = false <-> y <= x.
Proof. apply Z.ltb_ge. Qed.

Lemma in_pushed_if {A} (b : bool) (r : list A) (x s : A) :
  In s (if b then push r x else r) -> In s r \/ s = x.
Proof.
  destruct b; [| left; assumption].
  unfold push. intro H. apply in_app_or in H as [H | [H | []]];
    [left; exact H | right; symmetry; exact H].
Qed.

(** The seven tests of [generateRecommendations], as booleans. *)
Lemma recommendations_by_tests (b1 b2 b3 b4 b5 b6 b7 : bool) (s1 s2 s3 s4 s5 s6 s7 : string) :
  let r : list string := [] in
  let r := if b1 then push r s1 else r in
  let r := if b2 then push r s2 else r in
  let r := if b3 then push r s3 else r in
  let r := if b4 then push r s4 else r in
  let r := if b5 then push r s5 else r in
  let r := if b6 then push r s6 else r in
  let r := if b7 then push r s7 else r in
  (b1 || b2 || b3 || b4 || b5 || b6 || b7 = false -> r = []) /\
  (b1 || b2 || b3 || b4 || b5 || b6 || b7 = true ->
   (1 <= List.length r <= 7)%nat) /\
  (forall s, In s r -> In s [s1; s2; s3; s4; s5; s6; s7]).
Proof.
  cbv zeta. split; [| split].
  - destruct b1, b2, b3, b4, b5, b6, b7; cbn; intro H;
      first [discriminate H | reflexivity].
  - destruct b1, b2, b3, b4, b5, b6, b7; cbn; intro H;
      first [discriminate H | lia].
  - intros s H.
    apply in_pushed_if in H as [H | ->]; [| cbn; auto 8].
    apply in_pushed_if in H as [H | ->]; [| cbn; auto 8].
    apply in_pushed_if in H as [H | ->]; [| cbn; auto 8].
    apply in_pushed_if in H as [H | ->]; [| cbn; auto 8].
    apply in_pushed_if in H as [H | ->]; [| cbn; auto 8].
    apply in_pushed_if in H as [H | ->]; [| cbn; auto 8].
    apply in_pushed_if in H as [[] | ->]. cbn. auto 8.
Qed.

Lemma advisory_is_not_default (s : string) :
  In s [ "Avoid future interactions with flagged or suspicious addresses to improve reputation";
         "Cease using blacklisted programs and stick to verified DeFi protocols";
         "Consider staking SOL or tokens to demonstrate long-term commitment to the ecosystem";
         "Diversify transaction counterparties to show legitimate usage patterns";
         "Increase usage of verified DeFi protocols like Jupiter, Raydium, or Marinade";
         "Continue building transaction history over time to establish credibility";
         "Reduce frequency of large transfers to avoid triggering risk algorithms" ] ->
  ~ In s default_recommendations.
Proof.
  intros Hin Hd. cbn in Hin, Hd.
  repeat (destruct Hin as [Hin | Hin];
          [subst s; repeat (destruct Hd as [Hd | Hd]; [discriminate Hd |]); exact Hd |]).
  exact Hin.
Qed.

(** X7. The recommendation list is never empty and never longer than
    seven; it is the two default strings, in their fixed order, exactly when
    no advisory condition holds, and otherwise it contains neither
    default. *)
Theorem recommendations_default_iff_nothing_to_advise
    (analysis : Analysis) (score : Z) :
  (1 <= List.length (generateRecommendations analysis score) <= 7)%nat /\
  (generateRecommendations analysis score = default_recommendations <->
   nothing_to_advise analysis) /\
  (~ nothing_to_advise analysis ->
   forall s, In s (generateRecommendations analysis score) ->
             ~ In s default_recommendations).
Proof.
  remember ((flaggedInteractions analysis >? 0) ||
            (blacklistedProgramUsage analysis >? 0) ||
            Qltb (stakingActivityRatio analysis) (1 # 10) ||
            Qltb (counterpartyDiversity analysis) (3 # 10) ||
            (legitimateProgramUsage analysis <? 3) ||
            Qltb (walletAgeMonths analysis) 3 ||
            (largeTransfers analysis >? 10)) as advised eqn:Eadvised.
  assert (Hiff : nothing_to_advise analysis <-> advised = false).
  { subst advised. unfold nothing_to_advise. rewrite !orb_false_iff.
    rewrite !gtb_false, !Qltb_false, ltb_false. tauto. }
  pose proof (recommendations_by_tests
    (flaggedInteractions analysis >? 0)
    (blacklistedProgramUsage analysis >? 0)
    (Qltb (stakingActivityRatio analysis) (1 # 10))
    (Qltb (counterpartyDiversity analysis) (3 # 10))
    (legitimateProgramUsage analysis <? 3)
    (Qltb (walletAgeMonths analysis) 3)
    (largeTransfers analysis >? 10)
    "Avoid future interactions with flagged or suspicious addresses to improve reputation"
    "Cease using blacklisted programs and stick to verified DeFi protocols"
    "Consider staking SOL or tokens to demonstrate long-term commitment to the ecosystem"
    "Diversify transaction counterparties to show legitimate usage patterns"
    "Increase usage of verified DeFi protocols like Jupiter, Raydium, or Marinade"
    "Continue building transaction history over time to establish credibility"
    "Reduce frequency of large transfers to avoid triggering risk algorithms")
    as (Tnone & Tsome & Tin).
  rewrite <- Eadvised in Tnone, Tsome. clear Eadvised.
  revert Tnone Tsome Tin.
  unfold generateRecommendations. cbv zeta.
  match goal with
  | |- (_ -> ?r = []) -> _ => generalize r
  end.
  intros r Tnone Tsome Tin.
  destruct advised.
  - specialize (Tsome eq_refl).
    destruct r as [| h t]; [cbn in Tsome; lia |].
    split; [exact Tsome |]. split; [split |].
    + intro Hdef. exfalso.
      apply (advisory_is_not_default h).
      * apply Tin. left. reflexivity.
      * rewrite <- Hdef. left. reflexivity.
    + intro Hn. apply Hiff in Hn. discriminate Hn.
    + intros _ s Hs. apply advisory_is_not_default. apply Tin. exact Hs.
  - rewrite (Tnone eq_refl).
    split; [cbn; lia |]. split; [split |].
    + intros _. apply Hiff. reflexivity.
    + intros _. reflexivity.
    + intro Hn. exfalso. apply Hn. apply Hiff. reflexivity.
Qed.

End ScorerFacts.

(** ** The wallet analysis *)

Module WalletAnalysisFacts.
Import JS Reputability.

(** What the counters satisfy at every point of the loop over the
    transactions. *)
Definition counters_sound (now : Z) (c : Counters) : Prop :=
  0 <= c_flagged c /\ 0 <= c_blacklisted c /\ 0 <= c_legitimate c /\
  0 <= c_large c /\ 0 <= c_staking c /\ c_oldest c <= now.

Lemma fold_left_invariant {A B} (P : B -> Prop) (f : B -> A -> B) (xs : list A) :
  (forall b x, P b -> P (f b x)) ->
  forall b, P b -> P (fold_left f xs b).
Proof.
  intro Hf. induction xs as [| x rest IH]; intros b Hb; simpl; [exact Hb |].
  apply IH. apply Hf. exact Hb.
Qed.

Lemma visit_native_sound now address c t :
  counters_sound now c -> counters_sound now (visit_native address c t).
Proof.
  unfold counters_sound, visit_native.
  cbn [c_flagged c_blacklisted c_legitimate c_large c_staking c_oldest].
  destruct (has SCAM_ADDRESSES (fromUserAccount t) ||
            has SCAM_ADDRESSES (toUserAccount t));
    destruct (amount t >? 10 * 1000000000); lia.
Qed.

Lemma visit_token_sound now address c t :
  counters_sound now c -> counters_sound now (visit_token address c t).
Proof. unfold counters_sound, visit_token. cbn. tauto. Qed.

Lemma visit_instruction_sound now c i :
  counters_sound now c -> counters_sound now (visit_instruction c i).
Proof.
  unfold counters_sound, visit_instruction.
  destruct (truthy (programId i)); [| tauto].
  cbn [c_flagged c_blacklisted c_legitimate c_large c_staking c_oldest].
  destruct (has BLACKLISTED_PROGRAMS (programId i));
    destruct (has LEGITIMATE_PROGRAMS (programId i));
    destruct (is_staking i); lia.
Qed.

Lemma visit_tx_sound now address c tx :
  counters_sound now c -> counters_sound now (visit_tx address c tx).
Proof.
  intro H. unfold visit_tx.
  apply fold_left_invariant; [intros; apply visit_instruction_sound; assumption |].
  apply fold_left_invariant; [intros; apply visit_token_sound; assumption |].
  apply fold_left_invariant; [intros; apply visit_native_sound; assumption |].
  unfold counters_sound in *. cbn.
  destruct (timestamp tx * 1000 <? c_oldest c) eqn:E; [| tauto].
  apply Z.ltb_lt in E. lia.
Qed.

Lemma len_nonneg {A} (xs : list A) : 0 <= len xs.
Proof. unfold len. lia. Qed.

Lemma filter_len_le {A} (p : A -> bool) (xs : list A) : len (filter p xs) <= len xs.
Proof.
  unfold len. induction xs as [| x rest IH]; simpl; [lia |].
  destruct (p x); simpl; lia.
Qed.

Lemma Qdiv_nonneg (x y : Q) : (0 <= x)%Q -> (0 < y)%Q -> (0 <= x / y)%Q.
Proof.
  intros Hx Hy. unfold Qdiv. apply Qmult_le_0_compat; [exact Hx |].
  apply Qlt_le_weak. apply Qinv_lt_0_compat. exact Hy.
Qed.

Lemma inject_Z_nonneg (z : Z) : 0 <= z -> (0 <= inject_Z z)%Q.
Proof. intro H. change 0%Q with (inject_Z 0). rewrite <- Zle_Qle. exact H. Qed.

(** X8. Whatever the transactions, the balances and the clock, the
    analysis has counters that are not negative, a counterparty diversity
    between 0 and 1, a wallet age of at least 0.1 month, a staking ratio and
    a transaction frequency that are not negative, and no more recent
    transactions than transactions. *)
Theorem analysis_figures_in_range (now : Z) (transactions : list HeliusTransaction)
    (tokenBalances : list TokenBalance) (accountInfo : option AccountInfo)
    (walletAddress : string) :
  let analysis :=
    analyzeWalletData now transactions tokenBalances accountInfo walletAddress in
  0 <= flaggedInteractions analysis /\
  0 <= blacklistedProgramUsage analysis /\
  0 <= legitimateProgramUsage analysis /\
  0 <= largeTransfers analysis /\
  0 <= stakingTransactions analysis /\
  (0 <= counterpartyDiversity analysis <= 1)%Q /\
  (1 # 10 <= walletAgeMonths analysis)%Q /\
  (0 <= stakingActivityRatio analysis)%Q /\
  (0 <= transactionFrequency analysis)%Q /\
  0 <= recentTransactions analysis <= transactionCount analysis /\
  transactionCount analysis = Z.of_nat (List.length transactions).
Proof.
  cbv zeta.
  assert (Hc : counters_sound now
                 (fold_left (visit_tx walletAddress) transactions
                    {| c_flagged := 0; c_blacklisted := 0; c_legitimate := 0;
                       c_large := 0; c_volume := 0; c_counterparties := [];
                       c_programs := []; c_staking := 0; c_oldest := now |})).
  { apply fold_left_invariant; [intros; apply visit_tx_sound; assumption |].
    unfold counters_sound. cbn. lia. }
  destruct Hc as (H1 & H2 & H3 & H4 & H5 & H6).
  unfold analyzeWalletData.
  cbn [flaggedInteractions blacklistedProgramUsage legitimateProgramUsage
       largeTransfers stakingTransactions counterpartyDiversity walletAgeMonths
       stakingActivityRatio transactionFrequency recentTransactions
       transactionCount].
  repeat (split; [assumption |]).
  split; [| split; [| split; [| split; [| split]]]].
  - destruct (len transactions >? 0); [| split; discriminate].
    split.
    + apply Q.min_glb; [discriminate |].
      apply Qdiv_nonneg; [apply inject_Z_nonneg, len_nonneg |].
      apply Qlt_le_trans with 1%Q; [reflexivity | apply Q.le_max_l].
    + apply Q.le_min_l.
  - destruct (len transactions >? 0); [apply Q.le_max_l | apply Qle_refl].
  - destruct (len transactions >? 0) eqn:E; [| discriminate].
    apply Qdiv_nonneg; [apply inject_Z_nonneg; assumption |].
    change 0%Q with (inject_Z 0). rewrite <- Zlt_Qlt.
    apply Z.gtb_lt in E. exact E.
  - apply Qdiv_nonneg; [apply inject_Z_nonneg, len_nonneg | reflexivity].
  - split; [apply len_nonneg | apply filter_len_le].
  - reflexivity.
Qed.

End WalletAnalysisFacts.

(** ** Flows and their aggregation *)

Module FlowFacts.
Import JS Effects FundFlow.

(** The flows of a transaction in which the target is at [targetIndex]. *)
Lemma extracted_flows (tx : Transaction) (target : string) (targetIndex : nat) :
  findIndex (fun key => String.eqb (key_address key) target) (accountKeys tx)
    = Some targetIndex ->
  analyzeFundFlow tx target =
  map (ExtractorFacts.flow_at tx targetIndex)
      (filter (ExtractorFacts.moves_funds tx targetIndex)
              (seq 0 (List.length (accountKeys tx)))).
Proof.
  intro Hfind. unfold analyzeFundFlow. rewrite Hfind.
  rewrite (ExtractorFacts.fold_left_ext _
             (fun acc i => if ExtractorFacts.moves_funds tx targetIndex i
                           then push acc (ExtractorFacts.flow_at tx targetIndex i)
                           else acc)).
  - rewrite ExtractorFacts.fold_left_push. reflexivity.
  - intros acc i.
    unfold analyzeFundFlow_step, ExtractorFacts.moves_funds,
      ExtractorFacts.flow_at, ExtractorFacts.own_change.
    destruct (negb (Nat.eqb i targetIndex)); [| reflexivity].
    cbn [andb]. destruct (Z.abs _ >? 10000); reflexivity.
Qed.

(** X9. A transaction that does not list the target yields no flow.  All
    flows of one transaction carry the same direction, which is [incoming]
    or [outgoing] and never [both], and the same flow type; every amount
    exceeds 10000 lamports. *)
Theorem flows_of_one_transaction_agree (tx : Transaction) (target : string) :
  (findIndex (fun key => String.eqb (key_address key) target) (accountKeys tx)
     = None -> analyzeFundFlow tx target = []) /\
  exists direction type,
    direction <> both /\
    forall flow, In flow (analyzeFundFlow tx target) ->
      f_direction flow = direction /\ f_type flow = type /\ 10000 < f_amount flow.
Proof.
  split.
  - intro H. unfold analyzeFundFlow. rewrite H. reflexivity.
  - destruct (findIndex (fun key => String.eqb (key_address key) target)
                        (accountKeys tx)) as [targetIndex |] eqn:E.
    + rewrite (extracted_flows tx target targetIndex E).
      exists (if ExtractorFacts.own_change tx targetIndex >? 0
              then incoming else outgoing),
             (determineFundFlowType_loop (instructions tx)).
      split; [destruct (_ >? 0); discriminate |].
      intros flow Hin. apply in_map_iff in Hin as (i & <- & Hi).
      apply filter_In in Hi as [_ Hm].
      unfold ExtractorFacts.moves_funds in Hm. apply andb_prop in Hm as [_ Hm].
      apply Z.gtb_lt in Hm.
      repeat split. exact Hm.
    + exists incoming, flow_unknown. split; [discriminate |].
      unfold analyzeFundFlow. rewrite E. intros flow [].
Qed.

(** *** Recording one flow *)

Lemma map_get_modify key f (m : SourceMap) (k : string) :
  map_get k (map_modify key f m) =
  if String.eqb key k
  then match map_get k m with Some v => Some (f v) | None => None end
  else map_get k m.
Proof.
  induction m as [| [k0 v0] rest IH]; simpl.
  - destruct (String.eqb key k); reflexivity.
  - destruct (String.eqb_spec k0 key) as [-> | N]; simpl.
    + destruct (String.eqb key k); reflexivity.
    + rewrite IH. destruct (String.eqb_spec key k) as [E2 | N2].
      * subst k. destruct (String.eqb_spec k0 key); [contradiction | reflexivity].
      * reflexivity.
Qed.

Lemma map_get_push key v (m : SourceMap) (k : string) :
  map_get k (push m (key, v)) =
  match map_get k m with
  | Some e => Some e
  | None => if String.eqb key k then Some v else None
  end.
Proof.
  unfold push. induction m as [| [k0 v0] rest IH]; simpl; [reflexivity |].
  destruct (String.eqb k0 k); [reflexivity | exact IH].
Qed.

(** X10. Recording a flow leaves the entries of all other addresses as
    they were.  A first flow creates the entry of its address with the
    flow's amount, direction and type, count 1 and the risk level assessed
    from that flow.  A later flow adds its amount, adds 1 to the count,
    keeps type and risk level as first set, and turns the direction into
    [both] when it differs from the flow's, leaving it otherwise. *)
Theorem record_flow_updates_one_entry (sigBlockTime : Z) (t : Tally) (flow : Flow) :
  (forall k, k <> f_address flow ->
     map_get k (fundSources (record_flow sigBlockTime t flow)) =
     map_get k (fundSources t)) /\
  exists entry,
    map_get (f_address flow) (fundSources (record_flow sigBlockTime t flow))
      = Some entry /\
    match map_get (f_address flow) (fundSources t) with
    | None =>
        s_amount entry = f_amount flow /\ s_count entry = 1 /\
        s_direction entry = f_direction flow /\ s_type entry = f_type flow /\
        s_lastSeen entry = sigBlockTime /\
        s_riskLevel entry =
          assessAddressRisk (f_address flow) (f_amount flow) (f_type flow)
    | Some old =>
        s_amount entry = s_amount old + f_amount flow /\
        s_count entry = s_count old + 1 /\
        s_type entry = s_type old /\ s_riskLevel entry = s_riskLevel old /\
        s_lastSeen entry = Z.max (s_lastSeen old) sigBlockTime /\
        (s_direction old = f_direction flow -> s_direction entry = s_direction old) /\
        (s_direction old <> f_direction flow -> s_direction entry = both)
    end.
Proof.
  assert (Hsrc : forall a b,
            fundSources (if Direction_eqb (f_direction flow) incoming
                         then {| fundSources := a; t_received := t_received t + f_amount flow;
                                 t_sent := t_sent t |}
                         else {| fundSources := a; t_received := t_received t;
                                 t_sent := b |}) = a).
  { intros a b. destruct (Direction_eqb _ _); reflexivity. }
  unfold record_flow. rewrite Hsrc. clear Hsrc.
  destruct (map_get (f_address flow) (fundSources t)) as [old |] eqn:E.
  - split.
    + intros k Hk. rewrite map_get_modify.
      destruct (String.eqb_spec (f_address flow) k) as [<- | _];
        [contradiction | reflexivity].
    + rewrite map_get_modify, String.eqb_refl, E.
      eexists. split; [reflexivity |]. cbn.
      repeat split; try reflexivity.
      * intro Hd. rewrite Hd.
        replace (Direction_eqb (f_direction flow) (f_direction flow)) with true
          by (destruct (f_direction flow); reflexivity).
        reflexivity.
      * intro Hd.
        destruct (Direction_eqb (s_direction old) (f_direction flow)) eqn:Eq;
          [| reflexivity].
        apply DetectorFacts.Direction_eqb_eq in Eq. contradiction.
  - unfold map_set. rewrite E. split.
    + intros k Hk. rewrite map_get_push.
      destruct (map_get k (fundSources t)); [reflexivity |].
      destruct (String.eqb_spec (f_address flow) k) as [<- | _];
        [contradiction | reflexivity].
    + rewrite map_get_push, E, String.eqb_refl.
      eexists. split; [reflexivity |]. cbn. repeat split; reflexivity.
Qed.

(** *** What the aggregation loop keeps *)

Lemma flow_amount_exceeds_noise tx target flow :
  In flow (analyzeFundFlow tx target) -> 10000 < f_amount flow.
Proof.
  unfold analyzeFundFlow.
  destruct (findIndex _ (accountKeys tx)) as [targetIndex |] eqn:E; [| intros []].
  intro Hin.
  assert (Hin' : In flow (analyzeFundFlow tx target)).
  { unfold analyzeFundFlow. rewrite E. exact Hin. }
  rewrite (extracted_flows tx target targetIndex E) in Hin'.
  apply in_map_iff in Hin' as (i & <- & Hi).
  apply filter_In in Hi as [_ Hm].
  unfold ExtractorFacts.moves_funds in Hm. apply andb_prop in Hm as [_ Hm].
  apply Z.gtb_lt in Hm. exact Hm.
Qed.

(** The sum of the totals held in the map. *)
Definition total_amount (m : SourceMap) : Z :=
  fold_right (fun entry acc => s_amount (snd entry) + acc) 0 m.

(** An entry that has seen at least one flow, each above the noise
    threshold. *)
Definition entry_sound (entry : string * SourceData) : Prop :=
  1 <= s_count (snd entry) /\ 10000 * s_count (snd entry) < s_amount (snd entry).

Definition tally_sound (t : Tally) : Prop :=
  total_amount (fundSources t) = t_received t + t_sent t /\
  0 <= t_received t /\ 0 <= t_sent t /\
  Forall entry_sound (fundSources t).

Lemma total_amount_modify key f (m : SourceMap) old :
  map_get key m = Some old ->
  total_amount (map_modify key f m) =
  total_amount m - s_amount old + s_amount (f old).
Proof.
  induction m as [| [k v] rest IH]; simpl; [discriminate |].
  destruct (String.eqb k key); simpl.
  - intro H. injection H as ->. lia.
  - intro H. rewrite (IH H). lia.
Qed.

Lemma total_amount_push key v (m : SourceMap) :
  total_amount (push m (key, v)) = total_amount m + s_amount v.
Proof.
  unfold push. induction m as [| [k e] rest IH]; simpl; [lia |].
  rewrite IH. lia.
Qed.

Lemma Forall_modify (Q : string * SourceData -> Prop) key f (m : SourceMap) :
  (forall k v, Q (k, v) -> Q (k, f v)) ->
  Forall Q m -> Forall Q (map_modify key f m).
Proof.
  intros Hf H. induction H as [| [k v] rest Hx Hrest IH]; simpl; [constructor |].
  destruct (String.eqb k key); constructor; auto.
Qed.


Lemma record_flow_sound sigBlockTime (t : Tally) (flow : Flow) :
  10000 < f_amount flow -> tally_sound t ->
  tally_sound (record_flow sigBlockTime t flow).
Proof.
  intros Hflow (Hsum & Hr & Hs & Hall).
  unfold record_flow.
  destruct (map_get (f_address flow) (fundSources t)) as [old |] eqn:E.
  - assert (Hsum' : forall f,
              s_amount (f old) = s_amount old + f_amount flow ->
              total_amount (map_modify (f_address flow) f (fundSources t)) =
              total_amount (fundSources t) + f_amount flow).
    { intros f Hf. rewrite (total_amount_modify _ _ _ old E), Hf. lia. }
    assert (Hall' :
              Forall entry_sound
                (map_modify (f_address flow)
                   (fun existing =>
                      {| s_amount := s_amount existing + f_amount flow;
                         s_count := s_count existing + 1;
                         s_type := s_type existing;
                         s_lastSeen := Math_max (s_lastSeen existing) sigBlockTime;
                         s_direction :=
                           if negb (Direction_eqb (s_direction existing)
                                                  (f_direction flow))
                           then both else s_direction existing;
                         s_riskLevel := s_riskLevel existing |})
                   (fundSources t))).
    { apply Forall_modify; [| exact Hall].
      intros k v [H1 H2]. unfold entry_sound in *.
      cbn [snd s_count s_amount] in *. lia. }
    destruct (Direction_eqb (f_direction flow) incoming);
      unfold tally_sound; cbn [fundSources t_received t_sent];
      rewrite Hsum' by reflexivity; repeat split; try lia; exact Hall'.
  - unfold map_set. rewrite E.
    assert (Hall' : forall v, s_count v = 1 -> s_amount v = f_amount flow ->
              Forall entry_sound (push (fundSources t) (f_address flow, v))).
    { intros v Hc Ha. unfold push. apply Forall_app. split; [exact Hall |].
      constructor; [| constructor]. unfold entry_sound.
      cbn [snd]. rewrite Hc, Ha. lia. }
    destruct (Direction_eqb (f_direction flow) incoming);
      unfold tally_sound; cbn [fundSources t_received t_sent];
      rewrite total_amount_push; cbn [s_amount];
      repeat split; try lia; apply Hall'; reflexivity.
Qed.

Lemma record_flows_sound sigBlockTime (flows : list Flow) :
  (forall flow, In flow flows -> 10000 < f_amount flow) ->
  forall t, tally_sound t -> tally_sound (fold_left (record_flow sigBlockTime) flows t).
Proof.
  induction flows as [| flow rest IH]; intros Hflows t Ht; simpl; [exact Ht |].
  apply IH; [intros f Hf; apply Hflows; right; exact Hf |].
  apply record_flow_sound; [apply Hflows; left; reflexivity | exact Ht].
Qed.

Section Aggregation.
Context {W : Type} (up : Upstream W).

Lemma aggregate_sound dev sigs st :
  exists tally st',
    aggregate up dev sigs st = (Returned tally, st') /\ tally_sound tally.
Proof.
  unfold aggregate.
  apply (EffectsFacts.for_each_invariant tally_sound).
  - intros t sig st0 Ht. unfold try_catch, bind.
    destruct (getTransaction up (signature sig) st0) as [[[tx |] | e] st1]; cbn.
    + eexists. eexists. split; [reflexivity |].
      apply record_flows_sound; [| exact Ht].
      intros flow Hin. apply (flow_amount_exceeds_noise tx dev). exact Hin.
    + eexists. eexists. split; [reflexivity | exact Ht].
    + eexists. eexists. split; [reflexivity | exact Ht].
  - unfold tally_sound, tally0. cbn. repeat split; try lia. constructor.
Qed.

Lemma aggregated_sound dev st tally :
  AggregatorFacts.aggregated up dev st tally -> tally_sound tally.
Proof.
  intros (signatures & st1 & sigs & st2 & st3 & _ & _ & Hagg).
  destruct (aggregate_sound dev sigs st2) as (t & st' & E & Hs).
  rewrite E in Hagg. injection Hagg as -> _. exact Hs.
Qed.


End Aggregation.


End FlowFacts.

(** ** The fund-flow result *)

Module ResultFacts.
Import JS Effects FundFlow.

Lemma slice0_length {A} (n : nat) (xs : list A) : (List.length (slice0 n xs) <= n)%nat.
Proof. unfold slice0. apply firstn_le_length. Qed.

Lemma risk_score_in_range nodes links totalReceived totalSent patterns :
  0 <= calculateFundFlowRiskScore nodes links totalReceived totalSent patterns <= 100.
Proof. unfold calculateFundFlowRiskScore, Math_max, Math_min. lia. Qed.

(** *** The patterns *)

(** A list built by a run of tests, each pushing its string when it
    succeeds. *)
Definition collect_step (p : list string) (t : bool * string) : list string :=
  if fst t then push p (snd t) else p.

Definition collect (tests : list (bool * string)) : list string :=
  fold_left collect_step tests [].

Lemma collect_from_In (s : string) (tests : list (bool * string)) :
  forall acc,
    In s (fold_left collect_step tests acc) <->
    In s acc \/ In (true, s) tests.
Proof.
  induction tests as [| [b x] rest IH]; intro acc; simpl.
  - tauto.
  - rewrite IH. unfold collect_step. destruct b; cbn [fst snd].
    + unfold push. rewrite in_app_iff. simpl. split.
      * intros [[H | [H | []]] | H].
        -- left. exact H.
        -- right. left. rewrite H. reflexivity.
        -- right. right. exact H.
      * intros [H | [H | H]].
        -- left. left. exact H.
        -- left. right. left. injection H as E. exact E.
        -- right. exact H.
    + split.
      * intros [H | H]; [left; exact H | right; right; exact H].
      * intros [H | [H | H]];
          [left; exact H | discriminate H | right; exact H].
Qed.

Lemma collect_In (s : string) (tests : list (bool * string)) :
  In s (collect tests) <-> In (true, s) tests.
Proof. unfold collect. rewrite collect_from_In. simpl. tauto. Qed.

Lemma collect_from_length (tests : list (bool * string)) :
  forall acc,
    (List.length (fold_left collect_step tests acc)
     <= List.length acc + List.length tests)%nat.
Proof.
  induction tests as [| [b x] rest IH]; intro acc; simpl; [lia |].
  etransitivity; [apply IH |]. unfold collect_step. destruct b; cbn [fst snd]; [| lia].
  unfold push. rewrite length_app. simpl. lia.
Qed.

Lemma collect_from_NoDup (tests : list (bool * string)) :
  forall acc,
    NoDup (acc ++ map snd tests) ->
    NoDup (fold_left collect_step tests acc).
Proof.
  induction tests as [| [b x] rest IH]; intro acc; simpl.
  - rewrite app_nil_r. auto.
  - intro H. apply IH. unfold collect_step. destruct b; cbn [fst snd].
    + unfold push. rewrite <- app_assoc. exact H.
    + apply NoDup_remove_1 in H. exact H.
Qed.

Definition circular_funding : string := "Circular funding detected".
Definition wash_trading : string := "Potential wash trading".
Definition unknown_sources : string := "Multiple unknown funding sources".
Definition high_frequency : string := "High frequency transactions".
Definition no_exchange : string := "No exchange funding detected".

(** The five tests of [detectSuspiciousPatterns] with their strings. *)
Definition pattern_tests (nodes : list FundFlowNode) (links : list FundFlowLink)
    (totalReceived totalSent : Z) : list (bool * string) :=
  [ (DetectorFacts.overlap_found nodes, circular_funding);
    (double_gtb (double_of_Z totalSent)
                (double_mul (double_of_Z totalReceived) double_0_8) &&
     (totalSent >? 5 * SOL), wash_trading);
    ((3 <? List.length
             (filter (fun n => NodeType_eqb (type n) unknown && (amount n >? 1 * SOL))
                     nodes))%nat, unknown_sources);
    ((2 <? List.length (filter (fun l => frequency l >? 20) links))%nat, high_frequency);
    ((List.length (filter (fun n => NodeType_eqb (type n) exchange) nodes) =? 0)%nat &&
     (totalReceived >? 10 * SOL), no_exchange) ].

Lemma detect_as_collect nodes links totalReceived totalSent :
  detectSuspiciousPatterns nodes links totalReceived totalSent =
  collect (pattern_tests nodes links totalReceived totalSent).
Proof.
  unfold detectSuspiciousPatterns, collect, pattern_tests, collect_step. cbv zeta.
  rewrite DetectorFacts.filter_nonempty, DetectorFacts.existsb_filter.
  replace (existsb _ nodes) with (DetectorFacts.overlap_found nodes).
  2:{ unfold DetectorFacts.overlap_found. apply DetectorFacts.existsb_pointwise.
      intro n1. rewrite DetectorFacts.existsb_filter. reflexivity. }
  reflexivity.
Qed.

Lemma pattern_strings_differ :
  NoDup [circular_funding; wash_trading; unknown_sources; high_frequency; no_exchange].
Proof.
  repeat constructor; cbn; intro H;
    repeat (destruct H as [H | H]; [discriminate H |]); exact H.
Qed.

Lemma test_decides (b : bool) (s : string) (tests : list (bool * string)) :
  NoDup (map snd tests) -> In (b, s) tests ->
  (In s (collect tests) <-> b = true).
Proof.
  intros Hnd Hin. rewrite collect_In. split.
  - intro Ht.
    assert (E : (true, s) = (b, s)).
    { apply (AggregatorFacts.NoDup_map_injective snd tests Hnd); auto. }
    injection E as <-. reflexivity.
  - intros ->. exact Hin.
Qed.

(** The exact value of a finite double. *)
Definition double_value (x : double) : Q :=
  match x with
  | SpecFloat.S754_finite s m e =>
      let magnitude :=
        if 0 <=? e then inject_Z (Z.pos m * 2 ^ e)
        else Z.pos m # Pos.pow 2 (Z.to_pos (- e)) in
      if s then - magnitude else magnitude
  | _ => 0
  end.

(** The literal 0.8 lies above 8/10, by less than half a unit in the last
    place: 4/10 of 2^-53 against 5/10. *)
Lemma double_0_8_value :
  (double_value double_0_8 - (8 # 10) == 4 # (10 * 2 ^ 53))%Q.
Proof. reflexivity. Qed.

(** The product with 0.8 is rounded: with 3601976.484413752 SOL received
    and 2881581.187531002 SOL sent, the funds sent exceed 8/10 of the funds
    received, but not the double product, which is the funds sent
    themselves; the source reports no wash trading there.  One lamport more
    sent, and it does. *)
Lemma wash_trading_test_is_rounded :
  (inject_Z 3601976484413752 * (8 # 10) < inject_Z 2881581187531002)%Q /\
  double_mul (double_of_Z 3601976484413752) double_0_8 =
    double_of_Z 2881581187531002 /\
  detectSuspiciousPatterns [] [] 3601976484413752 2881581187531002 =
    ["No exchange funding detected"] /\
  detectSuspiciousPatterns [] [] 3601976484413752 2881581187531003 =
    ["Potential wash trading"; "No exchange funding detected"].
Proof. repeat split; vm_compute; reflexivity. Qed.

(** X12. The pattern list has no repeated entry and at most five
    entries, so cutting it to five leaves it whole.  Each of the last four
    patterns is reported exactly when its own condition holds: wash trading
    when the funds sent exceed both the product of the funds received and
    0.8, computed in double arithmetic as the source computes it, and 5 SOL;
    unknown sources when more than 3 nodes are of type [unknown] with more
    than 1 SOL; high frequency when more than 2 links have a frequency above
    20; no exchange funding when no node is of type [exchange] and more than
    10 SOL were received. *)
Theorem patterns_reported_by_own_condition
    (nodes : list FundFlowNode) (links : list FundFlowLink)
    (totalReceived totalSent : Z) :
  let patterns := detectSuspiciousPatterns nodes links totalReceived totalSent in
  NoDup patterns /\
  (List.length patterns <= 5)%nat /\
  slice0 5 patterns = patterns /\
  (In "Potential wash trading" patterns <->
   double_gtb (double_of_Z totalSent)
              (double_mul (double_of_Z totalReceived) double_0_8) = true /\
   5 * SOL < totalSent) /\
  (In "Multiple unknown funding sources" patterns <->
   3 < count (fun n => NodeType_eqb (type n) unknown && (amount n >? 1 * SOL)) nodes) /\
  (In "High frequency transactions" patterns <->
   2 < count (fun l => frequency l >? 20) links) /\
  (In "No exchange funding detected" patterns <->
   count (fun n => NodeType_eqb (type n) exchange) nodes = 0 /\
   10 * SOL < totalReceived).
Proof.
  cbv zeta. rewrite detect_as_collect.
  assert (Hnd : NoDup (map snd (pattern_tests nodes links totalReceived totalSent)))
    by exact pattern_strings_differ.
  assert (Hlen : (List.length (collect (pattern_tests nodes links totalReceived totalSent))
                  <= 5)%nat).
  { unfold collect. etransitivity; [apply collect_from_length | reflexivity]. }
  split; [apply collect_from_NoDup; exact Hnd |].
  split; [exact Hlen |].
  split; [unfold slice0; apply firstn_all2; exact Hlen |].
  split; [| split; [| split]].
  - change "Potential wash trading" with wash_trading.
    rewrite (test_decides _ wash_trading _ Hnd
               ltac:(right; left; reflexivity)).
    rewrite andb_true_iff, Z.gtb_lt. reflexivity.
  - change "Multiple unknown funding sources" with unknown_sources.
    rewrite (test_decides _ unknown_sources _ Hnd
               ltac:(right; right; left; reflexivity)).
    rewrite Nat.ltb_lt. unfold count. lia.
  - change "High frequency transactions" with high_frequency.
    rewrite (test_decides _ high_frequency _ Hnd
               ltac:(right; right; right; left; reflexivity)).
    rewrite Nat.ltb_lt. unfold count. lia.
  - change "No exchange funding detected" with no_exchange.
    rewrite (test_decides _ no_exchange _ Hnd
               ltac:(right; right; right; right; left; reflexivity)).
    rewrite andb_true_iff, Nat.eqb_eq, Z.gtb_lt. unfold count. lia.
Qed.

(** *** The nodes handed to the detector *)

Lemma classifyFundSource_type address flowType amount :
  In (classifyFundSource address flowType amount)
     [exchange; whale; contract; fund_source].
Proof.
  unfold classifyFundSource.
  repeat match goal with
         | |- context [if ?b then _ else _] => destruct b
         end; cbn; auto 6.
Qed.

(** No node built from the aggregation map is of type [unknown]. *)
Lemma emit_sources_known dev (entries : SourceMap) :
  forall g,
    Forall (fun n => type n <> unknown) (g_nodes g) ->
    Forall (fun n => type n <> unknown)
           (g_nodes (fold_left (emit_source dev) entries g)).
Proof.
  induction entries as [| entry rest IH]; intros g Hg; simpl; [exact Hg |].
  apply IH. unfold emit_source.
  destruct (material dev entry); cbn [g_nodes]; [| exact Hg].
  unfold push. apply Forall_app. split; [exact Hg |].
  constructor; [| constructor]. cbn [type].
  pose proof (classifyFundSource_type (fst entry) (s_type (snd entry))
                (s_amount (snd entry))) as H.
  intro E. rewrite E in H. cbn in H.
  repeat (destruct H as [H | H]; [discriminate H |]). exact H.
Qed.

Lemma update_found_Forall (Q : FundFlowNode -> Prop) pred f (ns : list FundFlowNode) :
  (forall n, Q n -> Q (f n)) -> Forall Q ns -> Forall Q (update_found pred f ns).
Proof.
  intros Hf H. induction H as [| n rest Hn Hrest IH]; simpl; [constructor |].
  destruct (pred n); constructor; auto.
Qed.

Lemma primary_nodes_known dev n (tally : Tally) :
  Forall (fun node => type node <> unknown) (p_nodes (primary_graph dev n tally)).
Proof.
  unfold primary_graph. cbn [p_nodes].
  apply update_found_Forall; [intros node H; exact H |].
  apply emit_sources_known. constructor; [discriminate | constructor].
Qed.

Lemma filter_none {A} (p : A -> bool) (xs : list A) :
  Forall (fun x => p x = false) xs -> filter p xs = [].
Proof.
  intro H. induction H as [| x rest Hx Hrest IH]; simpl; [reflexivity |].
  rewrite Hx. exact IH.
Qed.

Lemma primary_patterns dev n (tally : Tally) :
  NoDup (AggregatorFacts.keys (fundSources tally)) ->
  forall s, In s (p_suspiciousPatterns (primary_graph dev n tally)) ->
            In s [wash_trading; high_frequency; no_exchange].
Proof.
  intros Hkeys s Hin.
  change (p_suspiciousPatterns (primary_graph dev n tally))
    with (detectSuspiciousPatterns (p_nodes (primary_graph dev n tally))
            (p_links (primary_graph dev n tally))
            (t_received tally) (t_sent tally)) in Hin.
  rewrite detect_as_collect in Hin. apply collect_In in Hin.
  unfold pattern_tests in Hin. cbn [In] in Hin.
  destruct Hin as [H | [H | [H | [H | [H | []]]]]]; injection H as Hb <-.
  - exfalso.
    apply (AggregatorFacts.unique_ids_not_circular
             (p_nodes (primary_graph dev n tally)) [] 0 0).
    + apply AggregatorFacts.primary_ids_NoDup. exact Hkeys.
    + apply DetectorFacts.circular_reported_iff_test. exact Hb.
  - left. reflexivity.
  - exfalso. rewrite filter_none in Hb; [discriminate Hb |].
    eapply Forall_impl; [| apply primary_nodes_known].
    intros node Hn. cbn beta in *.
    destruct (type node); try reflexivity. contradiction.
  - right. left. reflexivity.
  - right. right. left. reflexivity.
Qed.

Section Results.
Context {W : Type} (up : Upstream W).

(** What the [try] block returns, in terms of the aggregation map of the
    run and the graph after the secondary pass. *)
Lemma body_form dev st d st' :
  analyzeFundFlows_body up dev st = (Returned d, st') ->
  exists signatures tally graph,
    AggregatorFacts.aggregated up dev st tally /\
    AggregatorFacts.extends
      (p_nodes (primary_graph dev (signatures_length signatures) tally)) (fst graph) /\
    d = {| nodes := slice0 30 (fst graph);
           links := slice0 50 (snd graph);
           totalFundsReceived := t_received tally;
           totalFundsSent := t_sent tally;
           fundingSources :=
             p_fundingSources (primary_graph dev (signatures_length signatures) tally);
           riskScore :=
             p_riskScore (primary_graph dev (signatures_length signatures) tally);
           suspiciousPatterns :=
             slice0 5 (p_suspiciousPatterns
                         (primary_graph dev (signatures_length signatures) tally)) |}.
Proof.
  unfold analyzeFundFlows_body. intro H.
  apply EffectsFacts.bind_returned in H as (signatures & st1 & Hsig & H).
  apply EffectsFacts.bind_returned in H as (sigs & st2 & Hslice & H).
  apply EffectsFacts.bind_returned in H as (tally & st3 & Hagg & H).
  apply EffectsFacts.bind_returned in H as (graph & st4 & Hsec & H).
  injection H as <- _.
  destruct (AggregatorFacts.expand_secondary_returns up
              (p_nodes (primary_graph dev (signatures_length signatures) tally))
              (p_links (primary_graph dev (signatures_length signatures) tally))
              st3) as (graph' & st4' & E & Hext & _).
  rewrite E in Hsec. injection Hsec as -> _.
  exists signatures, tally, graph. split; [| split; [exact Hext | reflexivity]].
  exists signatures, st1, sigs, st2, st3. repeat split; assumption.
Qed.

(** X13. Whatever the provider answers, every pattern of the result is
    one of wash trading, high frequency, no exchange funding, or the
    sentinel of the minimal result: neither the circular-funding pattern nor
    the unknown-sources pattern is ever reported, because the detector only
    sees the developer node and nodes typed by [classifyFundSource], which
    never yields [unknown]. *)
Theorem result_patterns_are_among_four (dev : string) (st : State W) :
  exists d st',
    analyzeFundFlows up dev st = (Returned d, st') /\
    forall s, In s (suspiciousPatterns d) ->
      In s [ "Potential wash trading"; "High frequency transactions";
             "No exchange funding detected"; "Unable to analyze fund flows" ].
Proof.
  destruct (AggregatorFacts.analyzeFundFlows_returns up dev st) as (d & st' & E).
  exists d, st'. split; [exact E |].
  apply AggregatorFacts.analyzeFundFlows_cases in E as [H | (e & _ & ->)].
  - apply body_form in H as (signatures & tally & graph & Hagg & _ & ->).
    cbn [suspiciousPatterns]. intros s Hin.
    apply PipelineFacts.In_slice0 in Hin.
    apply primary_patterns in Hin;
      [| apply (AggregatorFacts.aggregated_keys_NoDup up dev st); exact Hagg].
    cbn in Hin. cbn. tauto.
  - cbn. tauto.
Qed.

Lemma emit_sources_funding dev (entries : SourceMap) :
  forall g, 0 <= g_fundingSources g ->
            0 <= g_fundingSources (fold_left (emit_source dev) entries g).
Proof.
  induction entries as [| entry rest IH]; intros g Hg; simpl; [exact Hg |].
  apply IH. unfold emit_source.
  destruct (material dev entry); cbn [g_fundingSources]; [| exact Hg].
  destruct (Direction_eqb _ incoming); lia.
Qed.

Lemma primary_funding dev n (tally : Tally) :
  0 <= p_fundingSources (primary_graph dev n tally).
Proof.
  unfold primary_graph. cbn [p_fundingSources].
  apply emit_sources_funding. cbn. lia.
Qed.

(** The developer node after its update, at the head of the node list. *)
Lemma primary_developer_node dev n (tally : Tally) :
  exists rest,
    p_nodes (primary_graph dev n tally) =
    {| id := dev; group := 0;
       value := p_fundingSources (primary_graph dev n tally);
       label := "Developer"; type := developer;
       amount := t_received tally + t_sent tally;
       transactionCount := n; fundDirection := both; riskLevel := medium |} :: rest.
Proof.
  unfold primary_graph. cbn [p_nodes p_fundingSources].
  destruct (DegradedFacts.emit_sources_append dev (fundSources tally)
              {| g_nodes := [developer_node dev]; g_links := [];
                 g_nodeIndex := 1; g_fundingSources := 0 |}) as [rest E].
  rewrite E. cbn. rewrite String.eqb_refl. exists rest. reflexivity.
Qed.

(** X14. Whatever the provider answers, the result has at most 30 nodes,
    50 links and 5 patterns, a risk score between 0 and 100, and funds
    received, funds sent and a number of funding sources that are not
    negative. *)
Theorem result_within_bounds (dev : string) (st : State W) :
  exists d st',
    analyzeFundFlows up dev st = (Returned d, st') /\
    (List.length (nodes d) <= 30)%nat /\
    (List.length (links d) <= 50)%nat /\
    (List.length (suspiciousPatterns d) <= 5)%nat /\
    0 <= riskScore d <= 100 /\
    0 <= totalFundsReceived d /\ 0 <= totalFundsSent d /\
    0 <= fundingSources d.
Proof.
  destruct (AggregatorFacts.analyzeFundFlows_returns up dev st) as (d & st' & E).
  exists d, st'. split; [exact E |].
  apply AggregatorFacts.analyzeFundFlows_cases in E as [H | (e & _ & ->)].
  - apply body_form in H as (signatures & tally & graph & Hagg & _ & ->).
    cbn [nodes links suspiciousPatterns riskScore totalFundsReceived totalFundsSent
         fundingSources].
    destruct (FlowFacts.aggregated_sound up dev st tally Hagg) as (_ & Hr & Hs & _).
    repeat split; try apply slice0_length; try assumption.
    + apply risk_score_in_range.
    + apply risk_score_in_range.
    + apply primary_funding.
  - cbn. repeat split; lia.
Qed.

(** X15. In every result the first node is the developer; its amount is
    the funds received plus the funds sent, and its value the number of
    funding sources. *)
Theorem developer_node_carries_totals (dev : string) (st : State W) :
  exists d st' node rest,
    analyzeFundFlows up dev st = (Returned d, st') /\
    nodes d = node :: rest /\
    id node = dev /\ type node = developer /\ label node = "Developer" /\
    amount node = totalFundsReceived d + totalFundsSent d /\
    value node = fundingSources d.
Proof.
  destruct (AggregatorFacts.analyzeFundFlows_returns up dev st) as (d & st' & E).
  exists d, st'.
  pose proof E as E'.
  apply AggregatorFacts.analyzeFundFlows_cases in E as [H | (e & _ & ->)].
  - apply body_form in H as (signatures & tally & graph & Hagg & Hext & ->).
    destruct Hext as [[extra Hextra] _].
    destruct (primary_developer_node dev (signatures_length signatures) tally)
      as [rest Hhead].
    rewrite Hhead in Hextra.
    eexists. exists (slice0 29 (rest ++ extra)).
    split; [exact E' |]. cbn [nodes totalFundsReceived totalFundsSent fundingSources].
    rewrite Hextra. split; [reflexivity |]. repeat split.
  - eexists. eexists. split; [exact E' |]. cbn. repeat split.
Qed.

Lemma primary_graph_empty dev :
  primary_graph dev 0 tally0 =
  {| p_nodes := [developer_node dev]; p_links := []; p_fundingSources := 0;
     p_suspiciousPatterns := []; p_riskScore := 30 |}.
Proof.
  unfold primary_graph, tally0.
  cbn -[String.eqb detectSuspiciousPatterns calculateFundFlowRiskScore].
  rewrite String.eqb_refl. reflexivity.
Qed.

(** A signatures reply that brings nothing: a failure, no [result], or an
    empty array. *)
Definition no_signatures (reply : Reply (option Signatures)) : Prop :=
  match reply with
  | Failed _ | Ok None | Ok (Some (SigArray [])) => True
  | _ => False
  end.

(** X16. When the signatures request for the developer fails, or brings
    no signature, the analysis returns the developer node alone with no
    links, zero totals, risk score 30 and no pattern, after this single
    request; this is not the minimal result of the [catch] block, whose
    risk score is 50. *)
Theorem no_signatures_gives_bare_graph (dev : string) (st : State W) :
  no_signatures (fst (rpc_signatures up dev 200 (world st))) ->
  analyzeFundFlows up dev st =
  (Returned {| nodes := [developer_node dev];
               links := [];
               totalFundsReceived := 0;
               totalFundsSent := 0;
               fundingSources := 0;
               riskScore := 30;
               suspiciousPatterns := [] |},
   {| world := snd (rpc_signatures up dev 200 (world st));
      calls := push (calls st) (RpcGetSignaturesForAddress dev 200) |}).
Proof.
  intro H.
  unfold analyzeFundFlows, analyzeFundFlows_body, getSignaturesForAddress,
    try_catch, bind, request, ret.
  destruct (rpc_signatures up dev 200 (world st)) as [[[[[| sig sigs] | text |] |] | e] w];
    cbn in H; try contradiction;
    cbn -[primary_graph tally0];
    change (slice0 100 (@nil SignatureInfo)) with (@nil SignatureInfo);
    cbn -[primary_graph tally0]; rewrite primary_graph_empty; reflexivity.
Qed.

End Results.


Lemma no_signatures_gives_bare_graph_witness :
  analyzeFundFlows ValidationFacts.silent_upstream "Dev" (start tt) =
  (Returned {| nodes := [developer_node "Dev"];
               links := [];
               totalFundsReceived := 0;
               totalFundsSent := 0;
               fundingSources := 0;
               riskScore := 30;
               suspiciousPatterns := [] |},
   {| world := snd (rpc_signatures ValidationFacts.silent_upstream "Dev" 200
                      (world (start tt)));
      calls := push (calls (start tt)) (RpcGetSignaturesForAddress "Dev" 200) |}).
Proof.
  apply (no_signatures_gives_bare_graph ValidationFacts.silent_upstream "Dev" (start tt)).
  vm_compute. exact I.
Defined.

End ResultFacts.

(** ** How many requests a run sends *)

Module RequestFacts.
Import JS Effects.

(** [c] adds at most [n] requests to the log, and what it returns
    satisfies [P]. *)
Definition within {W A} (n : nat) (P : A -> Prop) (c : M W A) : Prop :=
  forall st,
    (List.length (calls (snd (c st))) <= List.length (calls st) + n)%nat /\
    forall a, fst (c st) = Returned a -> P a.

Definition any {A} (a : A) : Prop := True.

Lemma within_ret {W A} (P : A -> Prop) (a : A) : P a -> within (W := W) 0 P (ret a).
Proof.
  intros Ha st. cbn. split; [lia |]. intros a' E. injection E as <-. exact Ha.
Qed.

Lemma within_throw {W A} (P : A -> Prop) (e : string) : within (W := W) 0 P (throw e).
Proof. intro st. cbn. split; [lia |]. intros a E. discriminate E. Qed.

Lemma within_request {W A} (c : Call) (f : W -> Reply A * W) :
  within 1 any (request c f).
Proof.
  intro st. unfold request.
  destruct (f (world st)) as [[a | e] w]; cbn; unfold push; rewrite length_app; cbn;
    (split; [lia | intros; exact I]).
Qed.

Lemma within_weaken {W A} (n m : nat) (P Q : A -> Prop) (c : M W A) :
  (n <= m)%nat -> (forall a, P a -> Q a) -> within n P c -> within m Q c.
Proof.
  intros Hn HP H st. destruct (H st) as [H1 H2]. split; [lia |].
  intros a E. apply HP, H2, E.
Qed.

Lemma within_bind {W A B} (n m : nat) (P : A -> Prop) (Q : B -> Prop)
    (c : M W A) (k : A -> M W B) :
  within n P c -> (forall a, P a -> within m Q (k a)) ->
  within (n + m) Q (bind c k).
Proof.
  intros Hc Hk st. unfold bind. destruct (Hc st) as [H1 H2].
  destruct (c st) as [[a | e] st1]; cbn in *.
  - destruct (Hk a (H2 a eq_refl) st1) as [H3 H4]. split; [lia | exact H4].
  - split; [lia |]. intros b E. discriminate E.
Qed.

Lemma within_try_catch {W A} (n m : nat) (P Q : A -> Prop)
    (body : M W A) (handler : string -> M W A) :
  within n P body -> (forall e, within m Q (handler e)) ->
  (forall a, P a -> Q a) ->
  within (n + m) Q (try_catch body handler).
Proof.
  intros Hb Hh HPQ st. unfold try_catch. destruct (Hb st) as [H1 H2].
  destruct (body st) as [[a | e] st1]; cbn in *.
  - split; [lia |]. intros a' E. injection E as <-. apply HPQ, H2. reflexivity.
  - destruct (Hh e st1) as [H3 H4]. split; [lia | exact H4].
Qed.

Lemma within_for_each {W A S} (n : nat) (body : S -> A -> M W S) (xs : list A) :
  (forall s x, within n any (body s x)) ->
  forall s, within (List.length xs * n) any (for_each xs body s).
Proof.
  intro Hbody. induction xs as [| x rest IH]; intro s; simpl.
  - apply within_ret. exact I.
  - apply (within_bind n (List.length rest * n) any any).
    + apply Hbody.
    + intros s' _. apply IH.
Qed.

Section FundFlowRuns.
Import FundFlow.
Context {W : Type} (up : Upstream W).

Lemma getSignaturesForAddress_within address limit :
  within 1 any (getSignaturesForAddress up address limit).
Proof.
  unfold getSignaturesForAddress.
  apply (within_try_catch 1 0 any any); [| intro e; apply within_ret; exact I | auto].
  apply (within_bind 1 0 any any); [apply within_request |].
  intros a _. apply within_ret. exact I.
Qed.

Lemma getTransaction_within signature :
  within 1 any (getTransaction up signature).
Proof.
  unfold getTransaction.
  apply (within_try_catch 1 0 any any);
    [apply within_request | intro e; apply within_ret; exact I | auto].
Qed.

Lemma slice_signatures_within n signatures :
  within 0 (fun sigs => (List.length sigs <= n)%nat)
         (slice_signatures (W := W) n signatures).
Proof.
  unfold slice_signatures. destruct signatures as [sigs | text |].
  - apply within_ret. apply ResultFacts.slice0_length.
  - apply within_ret. apply ResultFacts.slice0_length.
  - apply within_throw.
Qed.

Lemma aggregate_within dev sigs :
  within (List.length sigs) any (aggregate up dev sigs).
Proof.
  unfold aggregate.
  apply (within_weaken (List.length sigs * 1) _ any any); [lia | auto |].
  apply within_for_each. intros tally sig.
  apply (within_try_catch 1 0 any any); [| intro e; apply within_ret; exact I | auto].
  apply (within_bind 1 0 any any); [apply getTransaction_within |].
  intros [tx |] _; apply within_ret; exact I.
Qed.

Lemma getSecondaryFundFlows_within address limit :
  within 4 any (getSecondaryFundFlows up address limit).
Proof.
  unfold getSecondaryFundFlows.
  apply (within_try_catch 4 0 any any); [| intro e; apply within_ret; exact I | auto].
  apply (within_bind 1 3 any any); [apply getSignaturesForAddress_within |].
  intros signatures _.
  apply (within_bind 0 3 (fun sigs => (List.length sigs <= 3)%nat) any);
    [apply slice_signatures_within |].
  intros sigs Hsigs.
  apply (within_bind 3 0 any any); [| intros flows _; apply within_ret; exact I].
  apply (within_weaken (List.length sigs * 1) _ any any); [lia | auto |].
  apply within_for_each. intros flows sig.
  apply (within_try_catch 1 0 any any); [| intro e; apply within_ret; exact I | auto].
  apply (within_bind 1 0 any any); [apply getTransaction_within |].
  intros [tx |] _; apply within_ret; exact I.
Qed.

Lemma expand_secondary_within nodes links :
  within 12 any (expand_secondary up nodes links).
Proof.
  unfold expand_secondary.
  match goal with
  | |- within _ _ (for_each ?xs _ _) =>
      assert (Hlen : (List.length xs <= 3)%nat) by apply ResultFacts.slice0_length;
      apply (within_weaken (List.length xs * 4) _ any any); [lia | auto |]
  end.
  apply within_for_each. intros graph source.
  apply (within_try_catch 4 0 any any); [| intro e; apply within_ret; exact I | auto].
  apply (within_bind 4 0 any any); [apply getSecondaryFundFlows_within |].
  intros flows _.
  destruct (fold_left _ flows _) as [[ns ls] k]. apply within_ret. exact I.
Qed.

Lemma analyzeFundFlows_within dev : within 113 any (analyzeFundFlows up dev).
Proof.
  unfold analyzeFundFlows.
  apply (within_try_catch 113 0 any any); [| intro e; apply within_ret; exact I | auto].
  unfold analyzeFundFlows_body.
  apply (within_bind 1 112 any any); [apply getSignaturesForAddress_within |].
  intros signatures _.
  apply (within_bind 0 112 (fun sigs => (List.length sigs <= 100)%nat) any);
    [apply slice_signatures_within |].
  intros sigs Hsigs.
  apply (within_bind 100 12 any any).
  - apply (within_weaken (List.length sigs) _ any any); [lia | auto |].
    apply aggregate_within.
  - intros tally _.
    apply (within_bind 12 0 any any); [apply expand_secondary_within |].
    intros graph _. apply within_ret. exact I.
Qed.

(** X17. Whatever the request and whatever the provider answers, one call
    of the fund-flow route sends at most 113 requests: one for the
    developer's signatures, at most 100 for transactions, and at most 4 for
    each of at most 3 major sources. *)
Theorem fund_flow_route_sends_at_most_113_requests (req : Request) (st : State W) :
  (List.length (calls (snd (POST up req st))) <= List.length (calls st) + 113)%nat.
Proof.
  assert (H : within 113 any (POST up req)).
  { unfold POST.
    apply (within_try_catch 113 0 any any); [| intro e; apply within_ret; exact I | auto].
    apply (within_bind 0 113 any any).
    - unfold request_json. destruct req; [apply within_throw | apply within_ret; exact I].
    - intros address _. destruct (negb (truthy address)).
      + apply (within_weaken 0 _ any any); [lia | auto | apply within_ret; exact I].
      + apply (within_bind 113 0 any any); [apply analyzeFundFlows_within |].
        intros d _. apply within_ret. exact I. }
  apply H.
Qed.

End FundFlowRuns.

End RequestFacts.

(** ** The developer-network result *)

Module DeveloperNetworkFacts.
Import JS Effects DeveloperNetwork.

(** *** One transaction *)

Definition change_at (tx : FundFlow.Transaction) (i : nat) : Z :=
  FundFlow.balance_at (FundFlow.postBalances tx) i -
  FundFlow.balance_at (FundFlow.preBalances tx) i.

Lemma first_changed_spec tx targetIndex (indices : list nat) address :
  first_changed tx targetIndex indices = Some address ->
  exists before i after,
    indices = (before ++ i :: after)%list /\
    i <> targetIndex /\ change_at tx i <> 0 /\
    address = FundFlow.key_address
                (nth i (FundFlow.accountKeys tx) (FundFlow.KeyString "")) /\
    forall j, In j before -> j <> targetIndex -> change_at tx j = 0.
Proof.
  induction indices as [| i rest IH]; simpl; [discriminate |].
  destruct (negb (Nat.eqb i targetIndex)) eqn:Ei; cbn [andb].
  - destruct (Z.abs _ >? 0) eqn:Ec.
    + intro H. injection H as <-.
      exists [], i, rest. split; [reflexivity |].
      apply negb_true_iff, Nat.eqb_neq in Ei. apply Z.gtb_lt in Ec.
      split; [exact Ei |]. split; [unfold change_at; lia |].
      split; [reflexivity | intros j []].
    + intro H. destruct (IH H) as (before & k & after & -> & Hk & Hc & Ha & Hb).
      exists (i :: before), k, after. split; [reflexivity |].
      repeat split; try assumption.
      intros j [E | Hj] Hne; [subst j | apply Hb; assumption].
      assert (~ 0 < Z.abs (FundFlow.balance_at (FundFlow.preBalances tx) i -
                           FundFlow.balance_at (FundFlow.postBalances tx) i)).
      { intro Hlt. apply Z.gtb_lt in Hlt. rewrite Hlt in Ec. discriminate Ec. }
      unfold change_at. lia.
  - intro H. destruct (IH H) as (before & k & after & -> & Hk & Hc & Ha & Hb).
    exists (i :: before), k, after. split; [reflexivity |].
    repeat split; try assumption.
    intros j [E | Hj] Hne; [subst j | apply Hb; assumption].
    apply negb_false_iff, Nat.eqb_eq in Ei. contradiction.
Qed.

Lemma seq_split (before after : list nat) (i : nat) :
  forall start len,
    seq start len = (before ++ i :: after)%list ->
    i = (start + List.length before)%nat /\
    before = seq start (List.length before).
Proof.
  induction before as [| b rest IH]; intros start len H; simpl in *.
  - destruct len as [| len]; [discriminate H |]. simpl in H.
    injection H as <- _. split; [lia | reflexivity].
  - destruct len as [| len]; [discriminate H |]. simpl in H.
    injection H as <- H. destruct (IH _ _ H) as [Ei Er].
    split; [lia |]. rewrite <- Er. reflexivity.
Qed.

(** X18. The connection read off one transaction never has a negative
    amount, and has amount 0 with an empty source when the target is not
    listed or its balance did not change.  When the amount is positive, it
    is the absolute change of the target's balance, and the source is the
    first other account of the transaction whose own balance changed. *)
Theorem connection_is_first_changed_account
    (tx : FundFlow.Transaction) (target : string) :
  let connection := analyzeConnectionTransaction tx target in
  0 <= c_amount connection /\
  (c_amount connection = 0 -> c_source connection = "") /\
  (FundFlow.findIndex (fun key => String.eqb (FundFlow.key_address key) target)
     (FundFlow.accountKeys tx) = None -> c_amount connection = 0) /\
  (0 < c_amount connection ->
   exists targetIndex i,
     FundFlow.findIndex (fun key => String.eqb (FundFlow.key_address key) target)
       (FundFlow.accountKeys tx) = Some targetIndex /\
     c_amount connection = Z.abs (change_at tx targetIndex) /\
     (i < List.length (FundFlow.accountKeys tx))%nat /\ i <> targetIndex /\
     change_at tx i <> 0 /\
     c_source connection =
       FundFlow.key_address (nth i (FundFlow.accountKeys tx) (FundFlow.KeyString "")) /\
     forall j, (j < i)%nat -> j <> targetIndex -> change_at tx j = 0).
Proof.
  cbv zeta. unfold analyzeConnectionTransaction.
  destruct (FundFlow.findIndex _ (FundFlow.accountKeys tx)) as [targetIndex |] eqn:Ef.
  2:{ cbn. split; [lia |]. split; [intros _; reflexivity |].
      split; [intros _; reflexivity | intro H; lia]. }
  destruct (Z.abs _ >? 0) eqn:Ec.
  2:{ cbn. split; [lia |]. split; [intros _; reflexivity |].
      split; [intros _; reflexivity | intro H; lia]. }
  destruct (first_changed tx targetIndex _) as [address |] eqn:Efirst.
  2:{ cbn. split; [lia |]. split; [intros _; reflexivity |].
      split; [intros _; reflexivity | intro H; lia]. }
  apply Z.gtb_lt in Ec. cbn [c_amount c_source].
  split; [lia |]. split; [intro H; lia |]. split; [discriminate |].
  intros _.
  destruct (first_changed_spec _ _ _ _ Efirst)
    as (before & i & after & Hseq & Hi & Hc & Ha & Hb).
  exists targetIndex, i. split; [reflexivity |].
  split; [reflexivity |].
  assert (Hin : In i (seq 0 (List.length (FundFlow.accountKeys tx)))).
  { rewrite Hseq. apply in_or_app. right. left. reflexivity. }
  apply in_seq in Hin.
  split; [lia |]. split; [exact Hi |]. split; [exact Hc |]. split; [exact Ha |].
  intros j Hj Hne. apply Hb; [| exact Hne].
  destruct (seq_split _ _ _ _ _ Hseq) as [Ei Ebefore].
  rewrite Ebefore. apply in_seq. lia.
Qed.

(** *** The connections of a run *)

Lemma add_connection_addresses (sources : list ConnectionSource) (info : Connection) :
  map cs_address (add_connection sources info) =
  if existsb (fun a => String.eqb a (c_source info)) (map cs_address sources)
  then map cs_address sources
  else (map cs_address sources ++ [c_source info])%list.
Proof.
  induction sources as [| existing rest IH]; simpl; [reflexivity |].
  destruct (String.eqb (cs_address existing) (c_source info)); simpl; [reflexivity |].
  rewrite IH. destruct (existsb _ (map cs_address rest)); reflexivity.
Qed.

Lemma add_connection_NoDup (sources : list ConnectionSource) (info : Connection) :
  NoDup (map cs_address sources) ->
  NoDup (map cs_address (add_connection sources info)).
Proof.
  intro H. rewrite add_connection_addresses.
  destruct (existsb _ (map cs_address sources)) eqn:E; [exact H |].
  apply NoDup_app; [exact H | constructor; [intros [] | constructor] |].
  intros a Ha [<- | []].
  assert (T : existsb (fun a => String.eqb a (c_source info))
                      (map cs_address sources) = true).
  { apply existsb_exists. exists (c_source info).
    split; [exact Ha | apply String.eqb_refl]. }
  rewrite T in E. discriminate E.
Qed.

Definition sum (xs : list Z) : Z := fold_right Z.add 0 xs.

Lemma sum_app (xs ys : list Z) : sum (xs ++ ys) = sum xs + sum ys.
Proof. unfold sum. induction xs as [| x rest IH]; simpl; [reflexivity | lia]. Qed.

(** What the loop over the connections builds on top of what it starts
    from. *)
Lemma add_sources_shape dev (found : list ConnectionSource) :
  forall d index,
    let r := fst (fold_left (add_source dev) found (d, index)) in
    map id (nodes r) = (map id (nodes d) ++ map cs_address found)%list /\
    map source (links r) = (map source (links d) ++ map cs_address found)%list /\
    map l_amount (links r) = (map l_amount (links d) ++ map cs_amount found)%list /\
    (Forall (fun l => target l = dev /\ l_type l = funding) (links d) ->
     Forall (fun l => target l = dev /\ l_type l = funding) (links r)) /\
    totalFunding r = totalFunding d + sum (map cs_amount found) /\
    fundingSources r = fundingSources d + Z.of_nat (List.length found).
Proof.
  induction found as [| source rest IH]; intros d index; cbv zeta.
  - cbn [fold_left fst map List.length sum fold_right]. rewrite !app_nil_r.
    repeat split; try lia. auto.
  - cbn [fold_left].
    destruct (add_source dev (d, index) source) as [d1 i1] eqn:E.
    unfold add_source in E. injection E as Ed _.
    destruct (IH d1 i1) as (Hn & Hs & Ha & Hf & Ht & Hc).
    cbv zeta in Hn, Hs, Ha, Hf, Ht, Hc. subst d1.
    cbn [nodes links totalFunding fundingSources] in Hn, Hs, Ha, Hf, Ht, Hc.
    unfold push in Hn, Hs, Ha, Hf.
    rewrite map_app, <- app_assoc in Hn, Hs, Ha.
    split; [exact Hn |]. split; [exact Hs |]. split; [exact Ha |].
    split; [| split].
    + intro Hall. apply Hf. apply Forall_app. split; [exact Hall |].
      constructor; [split; reflexivity | constructor].
    + rewrite Ht. cbn [map sum fold_right]. unfold sum. lia.
    + rewrite Hc. cbn [List.length]. lia.
Qed.

Section Runs.
Context {W : Type} (up : FundFlow.Upstream W).

(** The connections a run finds have pairwise different addresses and
    are at most ten. *)
Lemma getDeveloperConnections_sound dev st :
  exists found st',
    getDeveloperConnections up dev st = (Returned found, st') /\
    NoDup (map cs_address (sources found)) /\
    (List.length (sources found) <= 10)%nat.
Proof.
  unfold getDeveloperConnections.
  match goal with
  | |- exists _ _, try_catch ?b ?h ?s = _ /\ _ =>
      destruct (EffectsFacts.try_catch_outcome b h s)
        as [(a & st1 & Hb & Ht) | (e & st1 & Hb & Ht)]; rewrite Ht
  end.
  - exists a, st1. split; [reflexivity |].
    apply EffectsFacts.bind_returned in Hb as (signatures & st2 & _ & Hb).
    apply EffectsFacts.bind_returned in Hb as (sigs & st3 & _ & Hb).
    apply EffectsFacts.bind_returned in Hb as (found & st4 & Hloop & Hb).
    injection Hb as <- _. cbn [sources].
    split; [| apply ResultFacts.slice0_length].
    rewrite PipelineFacts.map_slice0. apply PipelineFacts.NoDup_slice0.
    revert Hloop.
    match goal with
    | |- for_each ?items ?body ?s0 ?st0 = _ -> _ =>
        destruct (fun Hbody =>
                    EffectsFacts.for_each_invariant
                      (fun f => NoDup (map cs_address (sources f))) body
                      Hbody items s0 st0 ltac:(constructor))
          as (f' & st' & E & Hnd)
    end.
    + intros f sig st0 Hf. unfold try_catch, bind.
      destruct (FundFlow.getTransaction up (FundFlow.signature sig) st0)
        as [[[tx |] | e] st5]; cbn.
      * destruct (c_amount (analyzeConnectionTransaction tx dev) >? 0); cbn;
          eexists; eexists; (split; [reflexivity |]).
        -- cbn [sources]. apply add_connection_NoDup. exact Hf.
        -- exact Hf.
      * eexists. eexists. split; [reflexivity | exact Hf].
      * eexists. eexists. split; [reflexivity | exact Hf].
    + rewrite E. intro H. injection H as <- _. exact Hnd.
  - cbn. eexists. eexists. split; [reflexivity |].
    split; [apply NoDup_nil | cbn; lia].
Qed.

(** X19. Whatever the provider answers, the developer-network analysis
    returns the developer node followed by at most ten connection nodes with
    pairwise different ids, and one link per connection node, in the same
    order, of type [funding], from that node to the developer; the number
    of funding sources and the value of the developer node are the number
    of connection nodes, and the total funding is the sum of the link
    amounts. *)
Theorem developer_network_links_match_nodes (dev : string) (st : State W) :
  exists d st' node rest,
    analyzeDeveloperNetwork up dev st = (Returned d, st') /\
    nodes d = node :: rest /\
    id node = dev /\ type node = developer /\
    (List.length rest <= 10)%nat /\
    NoDup (map id rest) /\
    map source (links d) = map id rest /\
    Forall (fun l => target l = dev /\ l_type l = funding) (links d) /\
    fundingSources d = Z.of_nat (List.length rest) /\
    value node = Z.of_nat (List.length rest) /\
    totalFunding d = sum (map l_amount (links d)).
Proof.
  unfold analyzeDeveloperNetwork, try_catch, analyzeDeveloperNetwork_body, bind.
  destruct (getDeveloperConnections_sound dev st) as (found & st1 & E & Hnd & Hlen).
  rewrite E.
  destruct (add_sources_shape dev (sources found)
              {| nodes := [developer_node dev]; links := [];
                 totalFunding := 0; fundingSources := 0 |} 0)
    as (Hn & Hs & Ha & Hf & Ht & Hc).
  destruct (DegradedFacts.add_sources_append dev (sources found)
              ({| nodes := [developer_node dev]; links := [];
                  totalFunding := 0; fundingSources := 0 |}, 0))
    as [others Hothers].
  cbv zeta in Hn, Hs, Ha, Hf, Ht, Hc.
  destruct (fold_left (add_source dev) (sources found) _) as [d index].
  cbn [fst nodes links totalFunding fundingSources map app] in Hn, Hs, Ha, Hf, Ht, Hc,
    Hothers.
  rewrite Hothers in Hn. cbn [map id developer_node] in Hn. injection Hn as Hids.
  assert (Hlen' : List.length others = List.length (sources found)).
  { rewrite <- (length_map id others), Hids, length_map. reflexivity. }
  cbn [ret]. eexists. exists st1. eexists. exists others.
  split; [reflexivity |].
  cbn [nodes links totalFunding fundingSources].
  rewrite Hothers. cbn [update_found id developer_node]. rewrite String.eqb_refl.
  split; [reflexivity |]. cbn [id type value].
  split; [reflexivity |]. split; [reflexivity |].
  split; [rewrite Hlen'; exact Hlen |].
  split; [rewrite Hids; exact Hnd |].
  split; [rewrite Hs, Hids; reflexivity |].
  split; [apply Hf; constructor |].
  split; [rewrite Hc, Hlen'; lia |].
  split; [rewrite Hlen'; reflexivity |].
  rewrite Ht, Ha. lia.
Qed.

End Runs.

End DeveloperNetworkFacts.

(** ** The deployer-network graph *)

Module DeployerGraphFacts.
Import JS DeployerNetwork.

Lemma key_eqb_eq (a b : option string) : key_eqb a b = true <-> a = b.
Proof.
  destruct a as [x |], b as [y |]; simpl; try (split; [discriminate | discriminate]);
    try (split; reflexivity).
  rewrite String.eqb_eq. split; [intros ->; reflexivity | intro E; injection E; auto].
Qed.

Lemma append_cancel (s a b : string) : (s ++ a = s ++ b)%string -> a = b.
Proof.
  induction s as [| c s IH]; simpl; intro E; [exact E |].
  injection E as E. apply IH, E.
Qed.

(** Link ids of two addresses that are both present differ when the
    addresses do. *)
Lemma linkId_inj (dep a b : string) :
  linkId dep (Some a) = linkId dep (Some b) -> a = b.
Proof.
  unfold linkId, render. intro E.
  apply append_cancel in E. apply (append_cancel "-") in E. exact E.
Qed.

Section MapFacts.
Context {K V : Type} (eqb : K -> K -> bool).
Hypothesis eqb_eq : forall a b, eqb a b = true <-> a = b.

Lemma entry_of_get (k : K) (m : list (K * V)) (v : V) :
  map_get eqb k m = Some v -> In (k, v) m.
Proof.
  induction m as [| [k' v'] rest IH]; simpl; [discriminate |].
  destruct (eqb k' k) eqn:E.
  - apply eqb_eq in E. subst k'. intro H. injection H as ->. left. reflexivity.
  - intro H. right. apply IH, H.
Qed.

Lemma get_None_iff (k : K) (m : list (K * V)) :
  map_get eqb k m = None <-> ~ In k (map fst m).
Proof.
  induction m as [| [k' v'] rest IH]; simpl; [tauto |].
  destruct (eqb k' k) eqn:E.
  - apply eqb_eq in E. split; [discriminate | intro H; exfalso; apply H; left; exact E].
  - rewrite IH. split; [| tauto].
    intros H [E' | H']; [| tauto].
    apply eqb_eq in E'. rewrite E' in E. discriminate E.
Qed.

Lemma set_new_key (k : K) (v : V) (m : list (K * V)) :
  map_get eqb k m = None -> map_set eqb k v m = (m ++ [(k, v)])%list.
Proof.
  induction m as [| [k' v'] rest IH]; simpl; [reflexivity |].
  destruct (eqb k' k); [discriminate |]. intro H. rewrite (IH H). reflexivity.
Qed.

Lemma set_old_key_keys (k : K) (v old : V) (m : list (K * V)) :
  map_get eqb k m = Some old -> map fst (map_set eqb k v m) = map fst m.
Proof.
  induction m as [| [k' v'] rest IH]; simpl; [discriminate |].
  destruct (eqb k' k); [reflexivity |]. intro H. simpl. rewrite (IH H). reflexivity.
Qed.

Lemma set_Forall (P : K * V -> Prop) (k : K) (v : V) (m : list (K * V)) :
  Forall P m -> P (k, v) -> Forall P (map_set eqb k v m).
Proof.
  intros Hm Hv. induction Hm as [| [k' v'] rest Hx Hrest IH]; simpl.
  - constructor; [exact Hv | constructor].
  - destruct (eqb k' k) eqn:E.
    + apply eqb_eq in E. subst k'. constructor; assumption.
    + constructor; assumption.
Qed.

Lemma set_old_key_same {B} (f : V -> B) (k : K) (v old : V) (m : list (K * V)) :
  map_get eqb k m = Some old -> f v = f old ->
  map (fun e => f (snd e)) (map_set eqb k v m) = map (fun e => f (snd e)) m.
Proof.
  intros H Hf. induction m as [| [k' v'] rest IH]; simpl in *; [discriminate |].
  destruct (eqb k' k).
  - injection H as ->. simpl. rewrite Hf. reflexivity.
  - simpl. rewrite (IH H). reflexivity.
Qed.

End MapFacts.

(** The addresses that have a node, the deployer apart. *)
Definition leaves (g : Maps) : list (option string) := map fst (tl (m_nodes g)).

(** An entry of the node map for an account other than the deployer. *)
Definition leaf (dep : string) (e : option string * Node) : Prop :=
  id (snd e) = fst e /\ fst e <> Some dep /\ label (snd e) = None /\
  (group (snd e) = 2 /\ value (snd e) = 3 \/ group (snd e) = 3 /\ value (snd e) = 5).

(** An entry of the link map: a link from the deployer to an account that
    has a node, stored under its link id. *)
Definition spoke (dep : string) (K : list (option string)) (e : string * Link) : Prop :=
  fst e = linkId dep (target (snd e)) /\ source (snd e) = dep /\
  In (target (snd e)) K /\ 1 <= l_value (snd e).

Definition links_ok (dep : string) (K : list (option string))
    (ls : list (string * Link)) : Prop :=
  Forall (spoke dep K) ls /\ NoDup (map fst ls).

(** What the two maps satisfy at every point of [buildNetworkGraph]. *)
Definition star (dep : string) (g : Maps) : Prop :=
  (exists rest, m_nodes g = (Some dep, deployer_node dep) :: rest) /\
  NoDup (leaves g) /\ Forall (leaf dep) (tl (m_nodes g)) /\
  links_ok dep (leaves g) (m_links g).

Lemma spoke_incl dep (K K' : list (option string)) e :
  incl K K' -> spoke dep K e -> spoke dep K' e.
Proof. intros HK (H1 & H2 & H3 & H4). repeat split; auto. Qed.

Lemma links_ok_incl dep (K K' : list (option string)) ls :
  incl K K' -> links_ok dep K ls -> links_ok dep K' ls.
Proof.
  intros HK [H1 H2]. split; [| exact H2].
  eapply Forall_impl; [| exact H1]. intro e. apply spoke_incl, HK.
Qed.

(** What [add_account] does to the maps when it does not skip the
    account. *)
Lemma add_account_new dep g a rest :
  m_nodes g = (Some dep, deployer_node dep) :: rest ->
  key_eqb (pubkey a) (Some dep) || map_has key_eqb (pubkey a) (m_nodes g) = false ->
  pubkey a <> Some dep /\ ~ In (pubkey a) (leaves g) /\
  exists n,
    leaf dep (pubkey a, n) /\
    m_nodes (add_account dep g a) =
      (Some dep, deployer_node dep) :: (rest ++ [(pubkey a, n)])%list.
Proof.
  intros Hn E. apply orb_false_iff in E. destruct E as [E1 E2].
  assert (N1 : pubkey a <> Some dep).
  { intro X. apply key_eqb_eq in X. rewrite X in E1. discriminate E1. }
  assert (G : map_get key_eqb (pubkey a) (m_nodes g) = None).
  { unfold map_has in E2. destruct (map_get key_eqb (pubkey a) (m_nodes g));
      [discriminate E2 | reflexivity]. }
  assert (N2 : ~ In (pubkey a) (map fst (m_nodes g))).
  { apply (get_None_iff key_eqb key_eqb_eq). exact G. }
  split; [exact N1 |]. split.
  { unfold leaves. rewrite Hn in *. simpl in *. tauto. }
  unfold add_account. rewrite E1, E2. cbn [orb m_nodes].
  rewrite (set_new_key key_eqb (pubkey a) _ (m_nodes g) G), Hn.
  eexists. split; [| reflexivity].
  unfold leaf. cbn [fst snd id label group value].
  repeat split; [exact N1 |].
  destruct (is_false (signer a) && is_false (writable a)); [right | left]; split; reflexivity.
Qed.

Lemma add_account_star dep g a :
  star dep g ->
  star dep (add_account dep g a) /\
  incl (leaves g) (leaves (add_account dep g a)) /\
  (pubkey a = Some dep \/ In (pubkey a) (leaves (add_account dep g a))).
Proof.
  intros ([rest Hn] & Hnd & Hleaf & Hlinks).
  destruct (key_eqb (pubkey a) (Some dep) || map_has key_eqb (pubkey a) (m_nodes g))
    eqn:E.
  - assert (Same : add_account dep g a = g) by (unfold add_account; rewrite E; reflexivity).
    rewrite Same. split; [| split; [apply incl_refl |]].
    + split; [exists rest; exact Hn | auto].
    + apply orb_true_iff in E. destruct E as [E | E].
      * left. apply key_eqb_eq, E.
      * unfold map_has in E.
        destruct (map_get key_eqb (pubkey a) (m_nodes g)) as [n |] eqn:G;
          [| discriminate E].
        apply (entry_of_get key_eqb key_eqb_eq) in G.
        rewrite Hn in G. destruct G as [G | G].
        -- left. injection G as G _. symmetry. exact G.
        -- right. unfold leaves. rewrite Hn. simpl.
           apply (in_map fst) in G. exact G.
  - destruct (add_account_new dep g a rest Hn E) as (N1 & N2 & n & Hn_leaf & Hnodes).
    assert (L : leaves (add_account dep g a) = (leaves g ++ [pubkey a])%list).
    { unfold leaves. rewrite Hnodes, Hn. simpl. rewrite map_app. reflexivity. }
    assert (I : incl (leaves g) (leaves (add_account dep g a))).
    { rewrite L. apply incl_appl, incl_refl. }
    split; [| split; [exact I |]].
    + split; [eexists; exact Hnodes |]. split; [| split].
      * rewrite L. apply NoDup_app; [exact Hnd | repeat constructor; simpl; tauto |].
        intros x Hx [<- | []]. apply N2, Hx.
      * rewrite Hnodes, Hn in *. simpl in *. apply Forall_app. split; [exact Hleaf |].
        constructor; [exact Hn_leaf | constructor].
      * unfold add_account at 2. rewrite E.
        cbn [m_links].
        destruct (map_get String.eqb (linkId dep (pubkey a)) (m_links g)) as [l |] eqn:G.
        -- unfold map_has. rewrite G. cbn [negb].
           apply (links_ok_incl dep (leaves g)); [exact I | exact Hlinks].
        -- unfold map_has. rewrite G. cbn [negb].
           rewrite (set_new_key String.eqb _ _ _ G).
           destruct Hlinks as [H1 H2]. split.
           ++ apply Forall_app. split.
              ** eapply Forall_impl; [| exact H1]. intro e. apply spoke_incl, I.
              ** constructor; [| constructor].
                 unfold spoke. cbn [fst snd target source l_value].
                 repeat split; [| lia]. rewrite L. apply in_or_app. right. left. reflexivity.
           ++ rewrite map_app. simpl. apply NoDup_app; [exact H2 | repeat constructor; simpl; tauto |].
              intros x Hx [<- | []].
              apply (get_None_iff String.eqb String.eqb_eq) in G. apply G, Hx.
    + right. rewrite L. apply in_or_app. right. left. reflexivity.
Qed.

Lemma add_accounts_star dep accounts :
  forall g, star dep g ->
    star dep (fold_left (add_account dep) accounts g) /\
    incl (leaves g) (leaves (fold_left (add_account dep) accounts g)) /\
    Forall (fun a => pubkey a = Some dep \/
                     In (pubkey a) (leaves (fold_left (add_account dep) accounts g)))
           accounts.
Proof.
  induction accounts as [| a rest IH]; intros g Hg; simpl.
  - split; [exact Hg |]. split; [apply incl_refl | constructor].
  - destruct (add_account_star dep g a Hg) as (H1 & H2 & H3).
    destruct (IH _ H1) as (I1 & I2 & I3).
    split; [exact I1 |]. split; [eapply incl_tran; eassumption |].
    constructor; [| exact I3].
    destruct H3 as [H3 | H3]; [left; exact H3 | right; apply I2, H3].
Qed.

(** Under a key there is one entry. *)
Lemma unique_entry {K V} (m : list (K * V)) (k : K) (v v' : V) :
  NoDup (map fst m) -> In (k, v) m -> In (k, v') m -> v = v'.
Proof.
  induction m as [| [k0 v0] rest IH]; simpl; intros Hnd H1 H2; [destruct H1 |].
  apply NoDup_cons_iff in Hnd. destruct Hnd as [Hk Hnd].
  destruct H1 as [E1 | H1], H2 as [E2 | H2].
  - congruence.
  - exfalso. apply Hk. apply (in_map fst) in H2. injection E1 as -> _. exact H2.
  - exfalso. apply Hk. apply (in_map fst) in H1. injection E2 as -> _. exact H1.
  - apply IH; assumption.
Qed.

(** An account that has a node has its link already. *)
Lemma spoke_present dep K ls address :
  links_ok dep K ls -> In address (map (fun e => target (snd e)) ls) ->
  exists link, map_get String.eqb (linkId dep address) ls = Some link /\
               target link = address.
Proof.
  intros [H1 H2] Hin. apply in_map_iff in Hin. destruct Hin as ([k l] & Et & Hin).
  simpl in Et. subst address.
  pose proof (proj1 (Forall_forall _ _) H1 _ Hin) as (Hk & _). simpl in Hk. subst k.
  destruct (map_get String.eqb (linkId dep (target l)) ls) as [link |] eqn:G.
  - exists link. split; [reflexivity |].
    apply (entry_of_get String.eqb String.eqb_eq) in G.
    rewrite (unique_entry _ _ _ _ H2 G Hin). reflexivity.
  - exfalso. apply (get_None_iff String.eqb String.eqb_eq) in G. apply G.
    apply (in_map fst) in Hin. exact Hin.
Qed.

Lemma link_pair_ok dep K ls a :
  links_ok dep K ls -> (pubkey a = Some dep \/ In (pubkey a) K) ->
  links_ok dep K (link_pair dep ls a).
Proof.
  intros Hok Ha. unfold link_pair.
  destruct (key_eqb (pubkey a) (Some dep)) eqn:E; cbn [negb]; [exact Hok |].
  destruct Ha as [Ha | Ha]; [apply key_eqb_eq in Ha; rewrite Ha in E; discriminate E |].
  destruct Hok as [H1 H2].
  destruct (map_get String.eqb (linkId dep (pubkey a)) ls) as [link |] eqn:G.
  - pose proof (entry_of_get String.eqb String.eqb_eq _ _ _ G) as Hin.
    pose proof (proj1 (Forall_forall _ _) H1 _ Hin) as (S1 & S2 & S3 & S4).
    cbn [fst snd] in *. split.
    + apply (set_Forall String.eqb String.eqb_eq); [exact H1 |].
      unfold spoke. cbn [fst snd target source l_value].
      repeat split; [exact S1 | exact S2 | exact S3 | lia].
    + rewrite (set_old_key_keys String.eqb _ _ link _ G). exact H2.
  - rewrite (set_new_key String.eqb _ _ _ G). split.
    + apply Forall_app. split; [exact H1 |]. constructor; [| constructor].
      unfold spoke. cbn [fst snd target source l_value]. repeat split; [exact Ha | lia].
    + rewrite map_app. simpl. apply NoDup_app; [exact H2 | repeat constructor; simpl; tauto |].
      intros x Hx [<- | []].
      apply (get_None_iff String.eqb String.eqb_eq) in G. apply G, Hx.
Qed.

Lemma fold_link_pair_ok dep K accounts :
  Forall (fun a => pubkey a = Some dep \/ In (pubkey a) K) accounts ->
  forall ls, links_ok dep K ls -> links_ok dep K (fold_left (link_pair dep) accounts ls).
Proof.
  induction 1 as [| a rest Ha _ IH]; intros ls Hok; simpl; [exact Hok |].
  apply IH, link_pair_ok; assumption.
Qed.

Lemma link_pairs_ok dep K accounts :
  Forall (fun a => pubkey a = Some dep \/ In (pubkey a) K) accounts ->
  forall ls, links_ok dep K ls -> links_ok dep K (link_pairs dep accounts ls).
Proof.
  induction 1 as [| a rest Ha Hrest IH]; intros ls Hok; simpl; [exact Hok |].
  apply IH. destruct (key_eqb (pubkey a) (Some dep)); [| exact Hok].
  apply fold_link_pair_ok; assumption.
Qed.

Lemma visit_transaction_star dep g tx :
  star dep g -> star dep (visit_transaction dep g tx).
Proof.
  intro Hg. destruct tx as [accounts |]; [| exact Hg]. simpl.
  destruct (add_accounts_star dep accounts g Hg) as ((Hn & Hnd & Hleaf & Hlinks) & _ & Hall).
  split; [exact Hn |]. split; [exact Hnd |]. split; [exact Hleaf |].
  cbn [m_links]. unfold leaves at 1. cbn [m_nodes].
  apply link_pairs_ok; [exact Hall | exact Hlinks].
Qed.

Lemma star_initially dep :
  star dep {| m_nodes := map_set key_eqb (Some dep) (deployer_node dep) [];
              m_links := [] |}.
Proof.
  split; [exists []; reflexivity |]. split; [constructor |]. split; [constructor |].
  split; constructor.
Qed.

Lemma build_star dep transactions :
  forall g, star dep g -> star dep (fold_left (visit_transaction dep) transactions g).
Proof.
  induction transactions as [| tx rest IH]; intros g Hg; simpl; [exact Hg |].
  apply IH, visit_transaction_star, Hg.
Qed.

Lemma NoDup_of_map {A B} (f : A -> B) (xs : list A) :
  NoDup (map f xs) -> NoDup xs.
Proof.
  induction xs as [| x rest IH]; simpl; intro H; [constructor |].
  apply NoDup_cons_iff in H. destruct H as [H1 H2].
  constructor; [| apply IH, H2]. intro Hx. apply H1, in_map, Hx.
Qed.

(** X21. The graph built from any list of transactions is a star around
    the deployer.  Its first node is the deployer's, with group 1, value 10
    and the label Deployer; node ids are pairwise different; every other
    node has no label and is a wallet (group 2, value 3) or a program
    (group 3, value 5).  Every link starts at the deployer, ends at one of
    the other nodes of the graph and has a value of at least 1, and no two
    links end at the same node. *)
Theorem deployer_graph_is_a_star (deployerAddress : string)
    (transactions : list Transaction) :
  let graph := buildNetworkGraph deployerAddress transactions in
  exists others,
    nodes graph = deployer_node deployerAddress :: others /\
    NoDup (map id (nodes graph)) /\
    Forall (fun n => id n <> Some deployerAddress /\ label n = None /\
                     (group n = 2 /\ value n = 3 \/ group n = 3 /\ value n = 5))
           others /\
    Forall (fun l => source l = deployerAddress /\ In (target l) (map id others) /\
                     1 <= l_value l)
           (links graph) /\
    NoDup (map target (links graph)) /\
    (List.length (links graph) <= List.length others)%nat.
Proof.
  cbv zeta. unfold buildNetworkGraph.
  pose proof (build_star deployerAddress transactions _ (star_initially deployerAddress))
    as ([rest Hn] & Hnd & Hleaf & Hok & Hkeys).
  set (g := fold_left (visit_transaction deployerAddress) transactions _) in *.
  cbn [nodes links]. unfold leaves in *. rewrite Hn in *. cbn [tl map snd] in *.
  assert (Ids : map id (map snd rest) = map fst rest).
  { rewrite map_map. apply map_ext_in. intros e He.
    apply (proj1 (Forall_forall _ _) Hleaf e He). }
  assert (Targets : NoDup (map target (map snd (m_links g)))).
  { apply (NoDup_of_map (linkId deployerAddress)).
    rewrite !map_map.
    replace (map (fun e => linkId deployerAddress (target (snd e))) (m_links g))
      with (map fst (m_links g)); [exact Hkeys |].
    apply map_ext_in. intros e He. apply (proj1 (Forall_forall _ _) Hok e He). }
  exists (map snd rest). split; [reflexivity |]. split; [| split; [| split; [| split]]].
  - cbn [map id deployer_node]. rewrite Ids. constructor; [| exact Hnd].
    intro Hin. apply in_map_iff in Hin. destruct Hin as (e & E & He).
    apply (proj1 (Forall_forall _ _) Hleaf e He). exact E.
  - apply Forall_map. eapply Forall_impl; [| exact Hleaf].
    intros e (H1 & H2 & H3 & H4). rewrite H1. auto.
  - apply Forall_map. eapply Forall_impl; [| exact Hok].
    intros e (H1 & H2 & H3 & H4). rewrite Ids. auto.
  - exact Targets.
  - rewrite <- (length_map target (map snd (m_links g))).
    rewrite <- (length_map id (map snd rest)). rewrite Ids.
    apply NoDup_incl_length; [exact Targets |].
    intros t Ht. rewrite map_map in Ht. apply in_map_iff in Ht.
    destruct Ht as (e & <- & He).
    apply (proj1 (Forall_forall _ _) Hok e He).
Qed.

(** *** When every account key carries its address *)

Definition present (a : Account) : bool :=
  match pubkey a with Some _ => true | None => false end.

(** Every account of every transaction has a [pubkey]. *)
Definition all_present (transactions : list Transaction) : bool :=
  forallb (fun tx => match tx with
                     | Some accounts => forallb present accounts
                     | None => true
                     end) transactions.

(** The links are those of the nodes, in the order of the nodes. *)
Definition matched (g : Maps) : Prop :=
  map (fun e => target (snd e)) (m_links g) = leaves g /\
  Forall (fun k => k <> None) (leaves g).

Lemma add_account_matched dep g a :
  star dep g -> matched g -> present a = true -> matched (add_account dep g a).
Proof.
  intros ([rest Hn] & Hnd & Hleaf & Hok & Hkeys) [Ht Hsome] Ha.
  destruct (key_eqb (pubkey a) (Some dep) || map_has key_eqb (pubkey a) (m_nodes g))
    eqn:E.
  - unfold add_account. rewrite E. split; assumption.
  - destruct (add_account_new dep g a rest Hn E) as (N1 & N2 & n & Hn_leaf & Hnodes).
    assert (L : leaves (add_account dep g a) = (leaves g ++ [pubkey a])%list).
    { unfold leaves. rewrite Hnodes, Hn. simpl. rewrite map_app. reflexivity. }
    assert (G : map_get String.eqb (linkId dep (pubkey a)) (m_links g) = None).
    { destruct (map_get String.eqb (linkId dep (pubkey a)) (m_links g)) as [l |] eqn:G;
        [| reflexivity].
      exfalso. apply (entry_of_get String.eqb String.eqb_eq) in G.
      pose proof (proj1 (Forall_forall _ _) Hok _ G) as (S1 & _ & S3 & _).
      cbn [fst snd] in S1, S3.
      pose proof (proj1 (Forall_forall _ _) Hsome _ S3) as S5.
      unfold present in Ha. destruct (pubkey a) as [s |]; [| discriminate Ha].
      destruct (target l) as [t |]; [| congruence].
      apply linkId_inj in S1. subst t. apply N2, S3. }
    split.
    + rewrite L. unfold add_account. rewrite E. cbn [m_links].
      unfold map_has. rewrite G. cbn [negb].
      rewrite (set_new_key String.eqb _ _ _ G), map_app, Ht. reflexivity.
    + rewrite L. apply Forall_app. split; [exact Hsome |].
      constructor; [| constructor]. unfold present in Ha.
      destruct (pubkey a); [discriminate | discriminate Ha].
Qed.

Lemma add_accounts_matched dep accounts :
  forallb present accounts = true ->
  forall g, star dep g -> matched g ->
    matched (fold_left (add_account dep) accounts g).
Proof.
  induction accounts as [| a rest IH]; simpl; intros Hall g Hg Hm; [exact Hm |].
  apply andb_true_iff in Hall. destruct Hall as [Ha Hrest].
  apply (IH Hrest).
  - apply add_account_star, Hg.
  - apply add_account_matched; assumption.
Qed.

Lemma link_pair_matched dep K ls a :
  links_ok dep K ls -> map (fun e => target (snd e)) ls = K ->
  (pubkey a = Some dep \/ In (pubkey a) K) ->
  map (fun e => target (snd e)) (link_pair dep ls a) = K.
Proof.
  intros Hok Ht Ha. unfold link_pair.
  destruct (key_eqb (pubkey a) (Some dep)) eqn:E; cbn [negb]; [exact Ht |].
  destruct Ha as [Ha | Ha]; [apply key_eqb_eq in Ha; rewrite Ha in E; discriminate E |].
  rewrite <- Ht in Ha.
  destruct (spoke_present dep K ls (pubkey a) Hok Ha) as (link & G & _).
  rewrite G. rewrite <- Ht.
  apply (set_old_key_same String.eqb target _ _ link _ G). reflexivity.
Qed.

Lemma fold_link_pair_matched dep K accounts :
  Forall (fun a => pubkey a = Some dep \/ In (pubkey a) K) accounts ->
  forall ls, links_ok dep K ls -> map (fun e => target (snd e)) ls = K ->
    map (fun e => target (snd e)) (fold_left (link_pair dep) accounts ls) = K.
Proof.
  induction 1 as [| a rest Ha _ IH]; intros ls Hok Ht; simpl; [exact Ht |].
  apply IH; [apply link_pair_ok | apply link_pair_matched]; assumption.
Qed.

Lemma link_pairs_matched dep K accounts :
  Forall (fun a => pubkey a = Some dep \/ In (pubkey a) K) accounts ->
  forall ls, links_ok dep K ls -> map (fun e => target (snd e)) ls = K ->
    map (fun e => target (snd e)) (link_pairs dep accounts ls) = K.
Proof.
  induction 1 as [| a rest Ha Hrest IH]; intros ls Hok Ht; simpl; [exact Ht |].
  destruct (key_eqb (pubkey a) (Some dep)); [| apply IH; assumption].
  apply IH; [apply fold_link_pair_ok | apply fold_link_pair_matched]; assumption.
Qed.

Lemma build_matched dep transactions :
  all_present transactions = true ->
  forall g, star dep g -> matched g ->
    matched (fold_left (visit_transaction dep) transactions g).
Proof.
  unfold all_present.
  induction transactions as [| tx rest IH]; simpl; intros Hall g Hg Hm; [exact Hm |].
  apply andb_true_iff in Hall. destruct Hall as [Htx Hrest].
  apply (IH Hrest); [apply visit_transaction_star, Hg |].
  destruct tx as [accounts |]; [| exact Hm]. simpl.
  destruct (add_accounts_star dep accounts g Hg) as ((_ & _ & _ & Hok) & _ & Hall).
  destruct (add_accounts_matched dep accounts Htx g Hg Hm) as [Ht Hsome].
  split; [| exact Hsome].
  cbn [m_links]. unfold leaves at 1. cbn [m_nodes].
  apply link_pairs_matched; assumption.
Qed.

(** X22. When every account key of every transaction carries its address,
    the graph has exactly one link for each node other than the deployer,
    in the order of the nodes: the link from the deployer to that node. *)
Theorem deployer_graph_links_every_node (deployerAddress : string)
    (transactions : list Transaction) :
  all_present transactions = true ->
  let graph := buildNetworkGraph deployerAddress transactions in
  map target (links graph) = map id (tl (nodes graph)) /\
  Forall (fun l => source l = deployerAddress) (links graph).
Proof.
  intro Hall. cbv zeta. unfold buildNetworkGraph.
  pose proof (build_star deployerAddress transactions _ (star_initially deployerAddress))
    as ([rest Hn] & Hnd & Hleaf & Hok & Hkeys).
  assert (M0 : matched {| m_nodes := map_set key_eqb (Some deployerAddress)
                                        (deployer_node deployerAddress) [];
                          m_links := [] |}).
  { split; [reflexivity | constructor]. }
  pose proof (build_matched deployerAddress transactions Hall _
                (star_initially deployerAddress) M0) as [Ht _].
  set (g := fold_left (visit_transaction deployerAddress) transactions _) in *.
  cbn [nodes links]. unfold leaves in *. rewrite Hn in *. cbn [tl map snd] in *.
  split.
  - rewrite !map_map. rewrite Ht. symmetry. apply map_ext_in. intros e He.
    apply (proj1 (Forall_forall _ _) Hleaf e He).
  - apply Forall_map. eapply Forall_impl; [| exact Hok].
    intros e (_ & H2 & _). exact H2.
Qed.

(** The deployer D pays A and B in one transaction, and appears after A in
    another. *)
Definition two_transactions : list Transaction :=
  let account address :=
    {| pubkey := Some address; signer := Some false; writable := Some true |} in
  [ Some [account "D"; account "A"; account "B"];
    Some [account "A"; account "D"; account "B"] ].

Lemma deployer_graph_links_every_node_witness :
  let graph := buildNetworkGraph "D" two_transactions in
  map target (links graph) = map id (tl (nodes graph)) /\
  Forall (fun l => source l = "D") (links graph).
Proof.
  apply (deployer_graph_links_every_node "D" two_transactions). reflexivity.
Defined.

(** *** What the value of a link counts *)

(** The number of accounts of the list that carry the address. *)
Definition occurrences (address : option string) (accounts : list Account) : Z :=
  Z.of_nat (List.length (filter (fun a => key_eqb (pubkey a) address) accounts)).

(** The number of pairs of positions of an account list with the deployer
    at the first position and the address at a later one. *)
Fixpoint follows (dep : string) (address : option string) (accounts : list Account)
    : Z :=
  match accounts with
  | [] => 0
  | a :: rest =>
      (if key_eqb (pubkey a) (Some dep) then occurrences address rest else 0) +
      follows dep address rest
  end.

(** The same, over all transactions that have a message. *)
Definition follows_in (dep : string) (address : option string)
    (transactions : list Transaction) : Z :=
  fold_right (fun tx acc => match tx with
                            | Some accounts => follows dep address accounts + acc
                            | None => acc
                            end) 0 transactions.

Definition bump (n : Z) (l : Link) : Link :=
  {| source := source l; target := target l; l_value := l_value l + n |}.

Definition bump_entry (n : string -> Z) (e : string * Link) : string * Link :=
  (fst e, bump (n (fst e)) (snd e)).

Lemma bump_entry_zero (n : string -> Z) (ls : list (string * Link)) :
  (forall e, In e ls -> n (fst e) = 0) -> map (bump_entry n) ls = ls.
Proof.
  intro H. induction ls as [| [k l] rest IH]; simpl; [reflexivity |].
  rewrite IH by (intros e He; apply H; right; exact He).
  pose proof (H (k, l) (or_introl eq_refl)) as Hk. cbn [fst] in Hk.
  unfold bump_entry, bump. cbn [fst snd]. rewrite Hk.
  destruct l as [s t v]. cbn. rewrite Z.add_0_r. reflexivity.
Qed.

Lemma bump_entry_keys (n : string -> Z) (ls : list (string * Link)) :
  map fst (map (bump_entry n) ls) = map fst ls.
Proof. rewrite map_map. reflexivity. Qed.

Lemma bump_entry_twice (n m : string -> Z) (ls : list (string * Link)) :
  map (bump_entry m) (map (bump_entry n) ls) =
  map (bump_entry (fun k => n k + m k)) ls.
Proof.
  rewrite map_map. apply map_ext. intros [k [s t v]].
  unfold bump_entry, bump. cbn. rewrite Z.add_assoc. reflexivity.
Qed.

(** Setting the entry of a key that is there to its link with one more. *)
Lemma set_bumps (k : string) (link : Link) (ls : list (string * Link)) :
  NoDup (map fst ls) -> map_get String.eqb k ls = Some link ->
  map_set String.eqb k (bump 1 link) ls =
  map (bump_entry (fun k' => if String.eqb k' k then 1 else 0)) ls.
Proof.
  induction ls as [| [k' l'] rest IH]; simpl; intros Hnd Hget; [discriminate Hget |].
  apply NoDup_cons_iff in Hnd. destruct Hnd as [Hk Hnd].
  unfold bump_entry at 1. cbn [fst snd].
  destruct (String.eqb k' k) eqn:E.
  - injection Hget as ->. f_equal. symmetry. apply bump_entry_zero.
    intros e He. apply String.eqb_eq in E. subst k'.
    destruct (String.eqb (fst e) k) eqn:E2; [| reflexivity].
    apply String.eqb_eq in E2. exfalso. apply Hk. rewrite <- E2. apply in_map, He.
  - rewrite (IH Hnd Hget). f_equal. unfold bump. destruct l' as [s t v]. cbn.
    rewrite Z.add_0_r. reflexivity.
Qed.

(** What one account of the inner loop adds to the link under a key. *)
Definition hit (dep : string) (a : Account) (k : string) : Z :=
  if negb (key_eqb (pubkey a) (Some dep)) && String.eqb k (linkId dep (pubkey a))
  then 1 else 0.

Definition hits (dep : string) (accounts : list Account) (k : string) : Z :=
  fold_right (fun a acc => hit dep a k + acc) 0 accounts.

Fixpoint pair_hits (dep : string) (accounts : list Account) (k : string) : Z :=
  match accounts with
  | [] => 0
  | a :: rest =>
      (if key_eqb (pubkey a) (Some dep) then hits dep rest k else 0) +
      pair_hits dep rest k
  end.

(** The account is the deployer, or has its link. *)
Definition linked (dep : string) (ls : list (string * Link)) (a : Account) : Prop :=
  pubkey a = Some dep \/ In (linkId dep (pubkey a)) (map fst ls).

Lemma link_pair_bumps dep ls a :
  NoDup (map fst ls) -> linked dep ls a ->
  link_pair dep ls a = map (bump_entry (hit dep a)) ls.
Proof.
  intros Hnd Ha. unfold link_pair.
  destruct (key_eqb (pubkey a) (Some dep)) eqn:E; cbn [negb].
  - symmetry. apply bump_entry_zero. intros e _. unfold hit. rewrite E. reflexivity.
  - destruct Ha as [Ha | Ha]; [apply key_eqb_eq in Ha; rewrite Ha in E; discriminate E |].
    destruct (map_get String.eqb (linkId dep (pubkey a)) ls) as [link |] eqn:G.
    + change {| source := source link; target := target link;
                l_value := l_value link + 1 |} with (bump 1 link).
      rewrite (set_bumps _ _ _ Hnd G). apply map_ext. intro e.
      unfold bump_entry, hit. rewrite E. reflexivity.
    + exfalso. apply (get_None_iff String.eqb String.eqb_eq) in G. apply G, Ha.
Qed.

Lemma fold_link_pair_bumps dep accounts :
  forall ls, NoDup (map fst ls) -> Forall (linked dep ls) accounts ->
    fold_left (link_pair dep) accounts ls = map (bump_entry (hits dep accounts)) ls.
Proof.
  induction accounts as [| a rest IH]; intros ls Hnd Hall; simpl.
  - symmetry. apply bump_entry_zero. reflexivity.
  - apply Forall_cons_iff in Hall. destruct Hall as [Ha Hrest].
    rewrite (link_pair_bumps dep ls a Hnd Ha).
    rewrite IH.
    + rewrite bump_entry_twice. reflexivity.
    + rewrite bump_entry_keys. exact Hnd.
    + eapply Forall_impl; [| exact Hrest]. intros b [Hb | Hb]; [left; exact Hb |].
      right. rewrite bump_entry_keys. exact Hb.
Qed.

Lemma link_pairs_bumps dep accounts :
  forall ls, NoDup (map fst ls) -> Forall (linked dep ls) accounts ->
    link_pairs dep accounts ls = map (bump_entry (pair_hits dep accounts)) ls.
Proof.
  induction accounts as [| a rest IH]; intros ls Hnd Hall; simpl.
  - symmetry. apply bump_entry_zero. reflexivity.
  - apply Forall_cons_iff in Hall. destruct Hall as [Ha Hrest].
    destruct (key_eqb (pubkey a) (Some dep)).
    + rewrite (fold_link_pair_bumps dep rest ls Hnd Hrest).
      rewrite IH.
      * rewrite bump_entry_twice. reflexivity.
      * rewrite bump_entry_keys. exact Hnd.
      * eapply Forall_impl; [| exact Hrest]. intros b [Hb | Hb]; [left; exact Hb |].
        right. rewrite bump_entry_keys. exact Hb.
    + rewrite (IH ls Hnd Hrest). apply map_ext. intro e. reflexivity.
Qed.

(** Under the key of an address other than the deployer's, the hits are
    the occurrences of the address. *)
Lemma hits_occurrences dep (s : string) accounts :
  s <> dep -> forallb present accounts = true ->
  hits dep accounts (linkId dep (Some s)) = occurrences (Some s) accounts.
Proof.
  intros Hs. unfold occurrences.
  induction accounts as [| a rest IH]; simpl; intro Hall; [reflexivity |].
  apply andb_true_iff in Hall. destruct Hall as [Ha Hrest].
  rewrite (IH Hrest). unfold hit, present in *.
  destruct (pubkey a) as [p |]; [| discriminate Ha]. cbn [key_eqb].
  destruct (String.eqb p s) eqn:E.
  - apply String.eqb_eq in E. subst p.
    assert (Ed : String.eqb s dep = false) by (apply String.eqb_neq; exact Hs).
    rewrite Ed, String.eqb_refl. cbn [negb andb List.length]. lia.
  - assert (En : String.eqb (linkId dep (Some s)) (linkId dep (Some p)) = false).
    { apply String.eqb_neq. intro X. apply linkId_inj in X. subst p.
      rewrite String.eqb_refl in E. discriminate E. }
    rewrite En, andb_false_r. lia.
Qed.

Lemma pair_hits_follows dep (s : string) accounts :
  s <> dep -> forallb present accounts = true ->
  pair_hits dep accounts (linkId dep (Some s)) = follows dep (Some s) accounts.
Proof.
  intros Hs. induction accounts as [| a rest IH]; simpl; intro Hall; [reflexivity |].
  apply andb_true_iff in Hall. destruct Hall as [Ha Hrest].
  rewrite (IH Hrest), (hits_occurrences dep s rest Hs Hrest). reflexivity.
Qed.

(** An address that no account carries follows nothing. *)
Lemma follows_absent dep (t : option string) accounts :
  (forall a, In a accounts -> pubkey a <> t) -> follows dep t accounts = 0.
Proof.
  intro H.
  assert (O : forall xs, (forall a, In a xs -> pubkey a <> t) -> occurrences t xs = 0).
  { intros xs Hxs. unfold occurrences. induction xs as [| x rest IH]; [reflexivity |].
    simpl. destruct (key_eqb (pubkey x) t) eqn:E.
    - apply key_eqb_eq in E. exfalso. apply (Hxs x); [left; reflexivity | exact E].
    - apply IH. intros a Ha. apply Hxs. right. exact Ha. }
  induction accounts as [| a rest IH]; simpl; [reflexivity |].
  rewrite IH by (intros b Hb; apply H; right; exact Hb).
  rewrite O by (intros b Hb; apply H; right; exact Hb).
  destruct (key_eqb (pubkey a) (Some dep)); reflexivity.
Qed.

Lemma follows_in_app dep t (xs ys : list Transaction) :
  follows_in dep t (xs ++ ys) = follows_in dep t xs + follows_in dep t ys.
Proof.
  unfold follows_in. induction xs as [| [accounts |] rest IH]; simpl; [reflexivity | |];
    rewrite IH; lia.
Qed.

Lemma leaf_not_deployer dep g t :
  star dep g -> In t (leaves g) -> t <> Some dep.
Proof.
  intros (_ & _ & Hleaf & _) Ht. unfold leaves in Ht.
  apply in_map_iff in Ht. destruct Ht as (e & <- & He).
  apply (proj1 (Forall_forall _ _) Hleaf e He).
Qed.

(** A link that the first loop creates has value 1 and ends at an address
    that had no node before. *)
Definition fresh (dep : string) (g : Maps) (e : string * Link) : Prop :=
  l_value (snd e) = 1 /\ ~ In (target (snd e)) (leaves g) /\
  target (snd e) <> Some dep.

Lemma add_account_links dep g a :
  star dep g ->
  exists news, m_links (add_account dep g a) = (m_links g ++ news)%list /\
               Forall (fresh dep g) news.
Proof.
  intros ([rest Hn] & _).
  destruct (key_eqb (pubkey a) (Some dep) || map_has key_eqb (pubkey a) (m_nodes g))
    eqn:E.
  - exists []. unfold add_account. rewrite E, app_nil_r. split; [reflexivity | constructor].
  - destruct (add_account_new dep g a rest Hn E) as (N1 & N2 & _).
    unfold add_account. rewrite E. cbn [m_links]. unfold map_has.
    destruct (map_get String.eqb (linkId dep (pubkey a)) (m_links g)) as [l |] eqn:G;
      cbn [negb].
    + exists []. rewrite app_nil_r. split; [reflexivity | constructor].
    + rewrite (set_new_key String.eqb _ _ _ G). eexists. split; [reflexivity |].
      constructor; [| constructor]. unfold fresh. cbn [snd l_value target]. auto.
Qed.

Lemma add_accounts_links dep accounts :
  forall g, star dep g ->
    exists news,
      m_links (fold_left (add_account dep) accounts g) = (m_links g ++ news)%list /\
      Forall (fresh dep g) news.
Proof.
  induction accounts as [| a rest IH]; intros g Hg; simpl.
  - exists []. rewrite app_nil_r. split; [reflexivity | constructor].
  - destruct (add_account_links dep g a Hg) as (news1 & E1 & F1).
    destruct (add_account_star dep g a Hg) as (Hg1 & Hincl & _).
    destruct (IH _ Hg1) as (news2 & E2 & F2).
    exists (news1 ++ news2)%list. split; [rewrite E2, E1, app_assoc; reflexivity |].
    apply Forall_app. split; [exact F1 |].
    eapply Forall_impl; [| exact F2]. intros e (H1 & H2 & H3).
    split; [exact H1 |]. split; [| exact H3]. intro X. apply H2, Hincl, X.
Qed.

(** Every link counts the pairs of the transactions done so far. *)
Definition valued (dep : string) (g : Maps) (done : list Transaction) : Prop :=
  Forall (fun e => l_value (snd e) = 1 + follows_in dep (target (snd e)) done)
         (m_links g).

(** Every account of the transactions done so far is the deployer or has
    a node. *)
Definition seen (dep : string) (K : list (option string)) (done : list Transaction)
    : Prop :=
  Forall (fun tx => match tx with
                    | Some accounts =>
                        Forall (fun a => pubkey a = Some dep \/ In (pubkey a) K) accounts
                    | None => True
                    end) done.

Lemma seen_incl dep K K' done : incl K K' -> seen dep K done -> seen dep K' done.
Proof.
  intros HK H. eapply Forall_impl; [| exact H]. intros [accounts |] Htx; [| exact I].
  eapply Forall_impl; [| exact Htx]. intros a [Ha | Ha]; [left | right; apply HK]; exact Ha.
Qed.

Lemma follows_in_unseen dep K t done :
  seen dep K done -> ~ In t K -> t <> Some dep -> follows_in dep t done = 0.
Proof.
  intros H Ht Hd. unfold follows_in.
  induction H as [| [accounts |] rest Htx _ IH]; simpl; [reflexivity | |]; rewrite IH;
    [| reflexivity].
  rewrite follows_absent; [reflexivity |].
  intros a Ha X. subst t.
  destruct (proj1 (Forall_forall _ _) Htx a Ha) as [Y | Y]; [apply Hd, Y | apply Ht, Y].
Qed.

Lemma follows_in_one dep t (tx : Transaction) :
  follows_in dep t [tx] =
  match tx with Some accounts => follows dep t accounts | None => 0 end.
Proof. destruct tx as [accounts |]; cbn; lia. Qed.

Definition present_in (tx : Transaction) : bool :=
  match tx with Some accounts => forallb present accounts | None => true end.

Lemma visit_transaction_valued dep g tx done :
  star dep g -> matched g -> present_in tx = true ->
  valued dep g done -> seen dep (leaves g) done ->
  valued dep (visit_transaction dep g tx) (done ++ [tx]) /\
  seen dep (leaves (visit_transaction dep g tx)) (done ++ [tx]).
Proof.
  intros Hg Hm Htx Hv Hs. destruct tx as [accounts |].
  2:{ simpl. split.
      - eapply Forall_impl; [| exact Hv]. intros e He.
        cbv beta in He. rewrite follows_in_app, follows_in_one. lia.
      - apply Forall_app. split; [exact Hs | constructor; [exact I | constructor]]. }
  simpl in Htx. cbn [visit_transaction].
  destruct (add_accounts_star dep accounts g Hg) as (Hg1 & Hincl & Hall).
  pose proof (add_accounts_matched dep accounts Htx g Hg Hm) as [Ht Hsome].
  destruct (add_accounts_links dep accounts g Hg) as (news & Elinks & Hnews).
  set (g1 := fold_left (add_account dep) accounts g) in *.
  destruct Hg1 as (Hn1 & Hnd1 & Hleaf1 & Hok1 & Hkeys1).
  assert (Hlinked : Forall (linked dep (m_links g1)) accounts).
  { eapply Forall_impl; [| exact Hall]. intros a [Ha | Ha]; [left; exact Ha | right].
    rewrite <- Ht in Ha. apply in_map_iff in Ha. destruct Ha as (e & Et & He).
    pose proof (proj1 (Forall_forall _ _) Hok1 e He) as (Hk & _).
    rewrite <- Et, <- Hk. apply in_map, He. }
  split.
  - unfold valued. cbn [m_links].
    rewrite (link_pairs_bumps dep accounts (m_links g1) Hkeys1 Hlinked).
    apply Forall_map, Forall_forall. intros e He.
    pose proof (proj1 (Forall_forall _ _) Hok1 e He) as (Hk & _ & Hin & _).
    pose proof (proj1 (Forall_forall _ _) Hsome _ Hin) as Hnone.
    assert (Hdep : target (snd e) <> Some dep).
    { unfold leaves in Hin. apply in_map_iff in Hin. destruct Hin as (n & En & Hn).
      rewrite <- En. apply (proj1 (Forall_forall _ _) Hleaf1 n Hn). }
    unfold bump_entry, bump. cbn [fst snd l_value target].
    rewrite follows_in_app, follows_in_one.
    destruct (target (snd e)) as [s |] eqn:Et; [| congruence].
    rewrite Hk, pair_hits_follows; [| congruence | exact Htx].
    enough (l_value (snd e) = 1 + follows_in dep (Some s) done) by lia.
    rewrite Elinks in He. apply in_app_or in He. destruct He as [He | He].
    + pose proof (proj1 (Forall_forall _ _) Hv e He) as V. cbv beta in V.
      rewrite Et in V. exact V.
    + pose proof (proj1 (Forall_forall _ _) Hnews e He) as (V1 & V2 & V3).
      rewrite Et in V2, V3.
      rewrite (follows_in_unseen dep (leaves g) (Some s) done Hs V2 V3). lia.
  - apply Forall_app. split.
    + apply (seen_incl dep (leaves g)); [exact Hincl | exact Hs].
    + constructor; [exact Hall | constructor].
Qed.

Lemma build_valued dep transactions :
  forall g done,
    star dep g -> matched g -> all_present transactions = true ->
    valued dep g done -> seen dep (leaves g) done ->
    valued dep (fold_left (visit_transaction dep) transactions g)
               (done ++ transactions).
Proof.
  unfold all_present.
  induction transactions as [| tx rest IH]; intros g done Hg Hm Hall Hv Hs; simpl.
  - rewrite app_nil_r. exact Hv.
  - simpl in Hall. apply andb_true_iff in Hall. destruct Hall as [Htx Hrest].
    destruct (visit_transaction_valued dep g tx done Hg Hm Htx Hv Hs) as [V S].
    replace (done ++ tx :: rest)%list with ((done ++ [tx]) ++ rest)%list
      by (rewrite <- app_assoc; reflexivity).
    apply IH; [apply visit_transaction_star, Hg | | exact Hrest | exact V | exact S].
    assert (One : all_present [tx] = true) by (unfold all_present; simpl; rewrite Htx; reflexivity).
    apply (build_matched dep [tx] One g Hg Hm).
Qed.

(** X28. When every account key of every transaction carries its address,
    the value of the link to an account is 1 plus the number of times the
    account follows the deployer in the account list of a transaction:
    the number of pairs of positions, over all transactions, with the
    deployer at the first and the account at a later one. *)
Theorem deployer_link_value_counts_followers (deployerAddress : string)
    (transactions : list Transaction) :
  all_present transactions = true ->
  Forall (fun l => l_value l =
                   1 + follows_in deployerAddress (target l) transactions)
         (links (buildNetworkGraph deployerAddress transactions)).
Proof.
  intro Hall. unfold buildNetworkGraph. cbn [links].
  apply Forall_map.
  apply (build_valued deployerAddress transactions _ [] (star_initially deployerAddress)).
  - split; [reflexivity | constructor].
  - exact Hall.
  - constructor.
  - constructor.
Qed.

Lemma deployer_link_value_counts_followers_witness :
  Forall (fun l => l_value l = 1 + follows_in "D" (target l) two_transactions)
         (links (buildNetworkGraph "D" two_transactions)) /\
  map l_value (links (buildNetworkGraph "D" two_transactions)) = [2; 3].
Proof.
  split.
  - apply (deployer_link_value_counts_followers "D" two_transactions). reflexivity.
  - reflexivity.
Defined.

End DeployerGraphFacts.

(** ** The fund-sources route *)

Module FundSourcesFacts.
Import JS Effects FundSources.

(** *** One transaction *)

(** What the account at [i] paid in the transaction. *)
Definition paid_at (tx : FundFlow.Transaction) (i : nat) : Z :=
  FundFlow.balance_at (FundFlow.preBalances tx) i -
  FundFlow.balance_at (FundFlow.postBalances tx) i.

(** The account at [i] paid the amount, up to a fee below 1000 lamports. *)
Definition pays (tx : FundFlow.Transaction) (amount : Z) (i : nat) : Prop :=
  0 < paid_at tx i /\ Z.abs (paid_at tx i - amount) < 1000.

Lemma first_payer_spec tx targetIndex amount (indices : list nat) address :
  first_payer tx targetIndex amount indices = Some address ->
  exists before i after,
    indices = (before ++ i :: after)%list /\
    i <> targetIndex /\ pays tx amount i /\
    address = FundFlow.key_address
                (nth i (FundFlow.accountKeys tx) (FundFlow.KeyString "")) /\
    forall j, In j before -> j <> targetIndex -> ~ pays tx amount j.
Proof.
  induction indices as [| i rest IH]; simpl; [discriminate |].
  fold (paid_at tx i).
  destruct (negb (Nat.eqb i targetIndex) &&
            ((paid_at tx i >? 0) && (Z.abs (paid_at tx i - amount) <? 1000))) eqn:E.
  - intro H. injection H as <-.
    apply andb_true_iff in E. destruct E as [Ei E].
    apply andb_true_iff in E. destruct E as [E1 E2].
    apply negb_true_iff, Nat.eqb_neq in Ei. apply Z.gtb_lt in E1. apply Z.ltb_lt in E2.
    exists [], i, rest. split; [reflexivity |]. split; [exact Ei |].
    split; [split; [lia | exact E2] |]. split; [reflexivity | intros j []].
  - intro H. destruct (IH H) as (before & k & after & -> & Hk & Hc & Ha & Hb).
    exists (i :: before), k, after. split; [reflexivity |].
    repeat split; try assumption; try apply Hc.
    intros j [Ej | Hj] Hne; [subst j | apply Hb; assumption].
    intros [P1 P2].
    apply andb_false_iff in E. destruct E as [E | E].
    + apply negb_false_iff, Nat.eqb_eq in E. contradiction.
    + apply andb_false_iff in E. destruct E as [E | E].
      * apply Z.gtb_lt in P1. rewrite P1 in E. discriminate E.
      * apply Z.ltb_lt in P2. rewrite P2 in E. discriminate E.
Qed.

(** X23. The funding read off one transaction has amount 0 and an empty
    source unless the target's balance rose; a fall of the balance is not a
    funding.  When the amount is positive, it is the rise of the target's
    balance, and the source is the first other account of the transaction
    that paid the amount up to a fee: its balance fell, by an amount that
    differs from the target's rise by less than 1000 lamports. *)
Theorem funding_is_from_first_payer_within_fee
    (tx : FundFlow.Transaction) (target : string) :
  let info := analyzeFundingTransaction tx target in
  0 <= fi_amount info /\
  (fi_amount info = 0 -> fi_source info = "") /\
  (0 < fi_amount info ->
   exists targetIndex i,
     FundFlow.findIndex (fun key => String.eqb (FundFlow.key_address key) target)
       (FundFlow.accountKeys tx) = Some targetIndex /\
     fi_amount info = - paid_at tx targetIndex /\
     (i < List.length (FundFlow.accountKeys tx))%nat /\ i <> targetIndex /\
     pays tx (fi_amount info) i /\
     fi_source info =
       FundFlow.key_address (nth i (FundFlow.accountKeys tx) (FundFlow.KeyString "")) /\
     forall j, (j < i)%nat -> j <> targetIndex -> ~ pays tx (fi_amount info) j).
Proof.
  cbv zeta. unfold analyzeFundingTransaction.
  destruct (FundFlow.findIndex _ (FundFlow.accountKeys tx)) as [targetIndex |] eqn:Ef.
  2:{ cbn. split; [lia |]. split; [intros _; reflexivity | intro H; lia]. }
  destruct (_ >? 0) eqn:Ec.
  2:{ cbn. split; [lia |]. split; [intros _; reflexivity | intro H; lia]. }
  destruct (first_payer tx targetIndex _ _) as [address |] eqn:Efirst.
  2:{ cbn. split; [lia |]. split; [intros _; reflexivity | intro H; lia]. }
  apply Z.gtb_lt in Ec. cbn [fi_amount fi_source].
  split; [lia |]. split; [intro H; lia |].
  intros _.
  destruct (first_payer_spec _ _ _ _ _ Efirst)
    as (before & i & after & Hseq & Hi & Hc & Ha & Hb).
  exists targetIndex, i. split; [reflexivity |].
  split; [unfold paid_at; lia |].
  assert (Hin : In i (seq 0 (List.length (FundFlow.accountKeys tx)))).
  { rewrite Hseq. apply in_or_app. right. left. reflexivity. }
  apply in_seq in Hin.
  split; [lia |]. split; [exact Hi |]. split; [exact Hc |]. split; [exact Ha |].
  intros j Hj Hne. apply Hb; [| exact Hne].
  destruct (DeveloperNetworkFacts.seq_split _ _ _ _ _ Hseq) as [Ei Ebefore].
  rewrite Ebefore. apply in_seq. lia.
Qed.

(** *** The funding sources of a run *)

Definition total (xs : list Z) : Z := fold_right Z.add 0 xs.


(** A funding source that stands for at least one transaction, each with
    a positive amount. *)
Definition funded (s : FundingSource) : Prop :=
  0 < s_amount s /\ 1 <= s_transactionCount s.

(** What a list of funding sources satisfies together with the total
    received. *)
Definition sources_sound (sources : list FundingSource) (totalReceived : Z) : Prop :=
  Forall funded sources /\ NoDup (map s_address sources) /\
  total (map s_amount sources) <= totalReceived.

Lemma add_funding_addresses (sources : list FundingSource) (info : FundingInfo) :
  map s_address (add_funding sources info) =
  if existsb (fun a => String.eqb a (fi_source info)) (map s_address sources)
  then map s_address sources
  else (map s_address sources ++ [fi_source info])%list.
Proof.
  induction sources as [| existing rest IH]; simpl; [reflexivity |].
  destruct (String.eqb (s_address existing) (fi_source info)); simpl; [reflexivity |].
  rewrite IH. destruct (existsb _ (map s_address rest)); reflexivity.
Qed.

Lemma add_funding_NoDup (sources : list FundingSource) (info : FundingInfo) :
  NoDup (map s_address sources) ->
  NoDup (map s_address (add_funding sources info)).
Proof.
  intro H. rewrite add_funding_addresses.
  destruct (existsb _ (map s_address sources)) eqn:E; [exact H |].
  apply NoDup_app; [exact H | constructor; [intros [] | constructor] |].
  intros a Ha [<- | []].
  assert (T : existsb (fun a => String.eqb a (fi_source info))
                      (map s_address sources) = true).
  { apply existsb_exists. exists (fi_source info).
    split; [exact Ha | apply String.eqb_refl]. }
  rewrite T in E. discriminate E.
Qed.

Lemma add_funding_funded (sources : list FundingSource) (info : FundingInfo) :
  0 < fi_amount info -> Forall funded sources ->
  Forall funded (add_funding sources info).
Proof.
  intros Hpos H. induction H as [| existing rest [H1 H2] Hrest IH]; simpl.
  - constructor; [| constructor]. split; cbn; lia.
  - destruct (String.eqb (s_address existing) (fi_source info)).
    + constructor; [| exact Hrest]. split; cbn; lia.
    + constructor; [split; assumption | exact IH].
Qed.

Lemma add_funding_sum (sources : list FundingSource) (info : FundingInfo) :
  total (map s_amount (add_funding sources info)) =
  total (map s_amount sources) + fi_amount info.
Proof.
  induction sources as [| existing rest IH]; simpl; [lia |].
  destruct (String.eqb (s_address existing) (fi_source info)); simpl; [lia |].
  fold (total (map s_amount (add_funding rest info))). fold (total (map s_amount rest)).
  rewrite IH. lia.
Qed.

Lemma slice0_sound (n : nat) (sources : list FundingSource) (totalReceived : Z) :
  sources_sound sources totalReceived ->
  sources_sound (slice0 n sources) totalReceived.
Proof.
  intros (H1 & H2 & H3). split; [| split].
  - apply Forall_forall. intros s Hs.
    apply (proj1 (Forall_forall _ _) H1), (PipelineFacts.In_slice0 n), Hs.
  - rewrite PipelineFacts.map_slice0. apply PipelineFacts.NoDup_slice0, H2.
  - apply Z.le_trans with (total (map s_amount sources)); [| exact H3].
    clear H2 H3. unfold slice0. revert n.
    induction H1 as [| s rest [Hs _] Hrest IH]; intros [| n]; simpl; try lia.
    + fold (total (map s_amount rest)).
      assert (0 <= total (map s_amount rest)) by (specialize (IH 0%nat); simpl in IH; exact IH).
      lia.
    + specialize (IH n). fold (total (map s_amount (firstn n rest))).
      fold (total (map s_amount rest)). lia.
Qed.

(** *** Computations that return *)

(** [c] returns a value that satisfies [P], after at most [n] requests. *)
Definition runs {W A} (n : nat) (P : A -> Prop) (c : M W A) : Prop :=
  forall st, exists a st',
    c st = (Returned a, st') /\ P a /\
    (List.length (calls st') <= List.length (calls st) + n)%nat.

Lemma runs_ret {W A} (P : A -> Prop) (a : A) : P a -> runs (W := W) 0 P (ret a).
Proof. intros Ha st. exists a, st. split; [reflexivity |]. split; [exact Ha | lia]. Qed.

Lemma runs_weaken {W A} (n m : nat) (P Q : A -> Prop) (c : M W A) :
  (n <= m)%nat -> (forall a, P a -> Q a) -> runs n P c -> runs m Q c.
Proof.
  intros Hn HP H st. destruct (H st) as (a & st' & E & Ha & Hc).
  exists a, st'. split; [exact E |]. split; [apply HP, Ha | lia].
Qed.

Lemma runs_bind {W A B} (n m : nat) (P : A -> Prop) (Q : B -> Prop)
    (c : M W A) (k : A -> M W B) :
  runs n P c -> (forall a, P a -> runs m Q (k a)) -> runs (n + m) Q (bind c k).
Proof.
  intros Hc Hk st. destruct (Hc st) as (a & st1 & E & Ha & H1).
  destruct (Hk a Ha st1) as (b & st2 & E2 & Hb & H2).
  exists b, st2. unfold bind. rewrite E. split; [exact E2 |]. split; [exact Hb | lia].
Qed.

Lemma runs_within {W A} (n : nat) (P : A -> Prop) (c : M W A) :
  runs n P c -> RequestFacts.within n P c.
Proof.
  intros H st. destruct (H st) as (a & st' & E & Ha & Hc). rewrite E. cbn.
  split; [exact Hc |]. intros a' Ea. injection Ea as <-. exact Ha.
Qed.

(** A [try] block whose handler returns. *)
Lemma runs_try_catch {W A} (n m : nat) (P Q : A -> Prop)
    (body : M W A) (handler : string -> M W A) :
  RequestFacts.within n P body -> (forall e, runs m Q (handler e)) ->
  (forall a, P a -> Q a) ->
  runs (n + m) Q (try_catch body handler).
Proof.
  intros Hb Hh HPQ st. unfold try_catch. destruct (Hb st) as [H1 H2].
  destruct (body st) as [[a | e] st1]; cbn in *.
  - exists a, st1. split; [reflexivity |]. split; [apply HPQ, H2; reflexivity | lia].
  - destruct (Hh e st1) as (a & st2 & E & Ha & H3).
    exists a, st2. split; [exact E |]. split; [exact Ha | lia].
Qed.

Lemma runs_for_each {W A S} (n : nat) (I : S -> Prop) (body : S -> A -> M W S)
    (xs : list A) :
  (forall s x, I s -> runs n I (body s x)) ->
  forall s, I s -> runs (List.length xs * n) I (for_each xs body s).
Proof.
  intro Hbody. induction xs as [| x rest IH]; intros s Hs; simpl.
  - apply runs_ret, Hs.
  - apply (runs_bind n (List.length rest * n) I I); [apply Hbody, Hs |].
    intros s' Hs'. apply IH, Hs'.
Qed.

Section Runs.
Context {W : Type} (up : FundFlow.Upstream W).

Definition found_sound (found : Found) : Prop :=
  sources_sound (f_sources found) (f_totalReceived found).

Lemma collect_funding_runs target sigs :
  runs (List.length sigs) found_sound (collect_funding up target sigs).
Proof.
  unfold collect_funding.
  apply (runs_weaken (List.length sigs * 1) _ found_sound found_sound); [lia | auto |].
  apply runs_for_each.
  2:{ split; [constructor |]. split; [constructor | cbn; lia]. }
  intros found sig Hfound.
  apply (runs_try_catch 1 0 found_sound found_sound);
    [| intro e; apply runs_ret, Hfound | auto].
  apply (RequestFacts.within_bind 1 0 RequestFacts.any found_sound);
    [apply RequestFacts.getTransaction_within |].
  intros [tx |] _; [| apply RequestFacts.within_ret, Hfound].
  destruct (fi_amount (analyzeFundingTransaction tx target) >? 0) eqn:E;
    [| apply RequestFacts.within_ret, Hfound].
  apply RequestFacts.within_ret. apply Z.gtb_lt in E.
  destruct Hfound as (H1 & H2 & H3). split; [| split]; cbn [f_sources f_totalReceived].
  - apply add_funding_funded; assumption.
  - apply add_funding_NoDup, H2.
  - rewrite add_funding_sum. lia.
Qed.

Definition deployer_funding_sound (f : DeployerFunding) : Prop :=
  (List.length (d_sources f) <= 10)%nat /\
  sources_sound (d_sources f) (d_totalReceived f) /\
  0 <= d_deploymentCost f.

Definition mint_funding_sound (f : MintFunding) : Prop :=
  (List.length (m_sources f) <= 5)%nat /\
  sources_sound (m_sources f) (m_totalReceived f).

Lemma sources_sound_nil : sources_sound [] 0.
Proof. split; [constructor |]. split; [constructor | cbn; lia]. Qed.

Lemma getDeployerFunding_runs dep :
  runs 21 deployer_funding_sound (getDeployerFunding up dep).
Proof.
  unfold getDeployerFunding.
  apply (runs_try_catch 21 0 deployer_funding_sound deployer_funding_sound); [| | auto].
  2:{ intro e. apply runs_ret. split; [cbn; lia |].
      split; [apply sources_sound_nil | cbn; lia]. }
  apply (RequestFacts.within_bind 1 20 RequestFacts.any deployer_funding_sound);
    [apply RequestFacts.getSignaturesForAddress_within |].
  intros signatures _.
  apply (RequestFacts.within_bind 0 20 (fun sigs => (List.length sigs <= 20)%nat)
           deployer_funding_sound);
    [apply RequestFacts.slice_signatures_within |].
  intros sigs Hsigs.
  apply (RequestFacts.within_bind 20 0 found_sound deployer_funding_sound).
  - apply runs_within.
    apply (runs_weaken (List.length sigs) _ found_sound found_sound); [lia | auto |].
    apply collect_funding_runs.
  - intros found Hfound. apply RequestFacts.within_ret.
    split; [apply ResultFacts.slice0_length |].
    split; [apply slice0_sound, Hfound | cbn; lia].
Qed.

Lemma slice_last_length {A} (n : nat) (xs : list A) :
  (List.length (slice_last n xs) <= n)%nat.
Proof. unfold slice_last. rewrite length_skipn. lia. Qed.

Lemma getMintFunding_runs mintAddress :
  runs 11 mint_funding_sound (getMintFunding up mintAddress).
Proof.
  unfold getMintFunding.
  apply (runs_try_catch 11 0 mint_funding_sound mint_funding_sound); [| | auto].
  2:{ intro e. apply runs_ret. split; [cbn; lia | apply sources_sound_nil]. }
  apply (RequestFacts.within_bind 1 10 RequestFacts.any mint_funding_sound);
    [apply RequestFacts.getSignaturesForAddress_within |].
  intros signatures _.
  apply (RequestFacts.within_bind 0 10 (fun sigs => (List.length sigs <= 10)%nat)
           mint_funding_sound).
  { unfold slice_last_signatures. destruct signatures as [sigs | text |].
    - apply RequestFacts.within_ret, slice_last_length.
    - apply RequestFacts.within_ret, slice_last_length.
    - apply RequestFacts.within_throw. }
  intros sigs Hsigs.
  apply (RequestFacts.within_bind 10 0 found_sound mint_funding_sound).
  - apply runs_within.
    apply (runs_weaken (List.length sigs) _ found_sound found_sound); [lia | auto |].
    apply collect_funding_runs.
  - intros found Hfound. apply RequestFacts.within_ret.
    split; [apply ResultFacts.slice0_length | apply slice0_sound, Hfound].
Qed.

End Runs.

(** *** The graph of a run *)

Definition funding_link (deployerAddress : string) (s : FundingSource) : FundLink :=
  {| source := s_address s; target := deployerAddress;
     l_value := s_transactionCount s; l_amount := s_amount s; l_type := funding |}.

Definition creation_link (mintAddress : string) (s : FundingSource) : FundLink :=
  {| source := s_address s; target := mintAddress;
     l_value := s_transactionCount s; l_amount := s_amount s; l_type := creation |}.

Definition deployment_link (mintAddress deployerAddress : string) (cost : Z) : FundLink :=
  {| source := deployerAddress; target := mintAddress;
     l_value := 1; l_amount := cost; l_type := deployment |}.

Lemma set_totals_ids address received count (ns : list FundNode) :
  map id (set_totals address received count ns) = map id ns.
Proof.
  unfold set_totals. induction ns as [| n rest IH]; simpl; [reflexivity |].
  destruct (String.eqb (id n) address); simpl; [reflexivity | rewrite IH; reflexivity].
Qed.

Lemma set_totals_length address received count (ns : list FundNode) :
  List.length (set_totals address received count ns) = List.length ns.
Proof.
  rewrite <- (length_map id), set_totals_ids, length_map. reflexivity.
Qed.

Lemma add_deployer_sources_shape dep (sources : list FundingSource) :
  forall d index,
    let r := fst (fold_left (add_deployer_source dep) sources (d, index)) in
    (exists extra, nodes r = (nodes d ++ extra)%list /\
                   map id extra = map s_address sources) /\
    links r = (links d ++ map (funding_link dep) sources)%list /\
    totalFunding r = totalFunding d + total (map s_amount sources) /\
    fundingSources r = fundingSources d + Z.of_nat (List.length sources).
Proof.
  induction sources as [| s rest IH]; intros d index.
  - cbn. split; [exists []; rewrite app_nil_r; split; reflexivity |].
    rewrite app_nil_r. repeat split; lia.
  - cbv zeta. cbn [fold_left].
    remember (add_deployer_source dep (d, index) s) as step eqn:Hstep.
    destruct step as [d1 i1]. unfold add_deployer_source in Hstep.
    injection Hstep as Hd1 _.
    specialize (IH d1 i1). cbv zeta in IH. subst d1.
    cbn [nodes links totalFunding fundingSources] in IH.
    destruct IH as ((extra & E1 & E2) & E3 & E4 & E5).
    split; [| split; [| split]].
    + eexists. split.
      * rewrite E1. unfold push. rewrite <- app_assoc. reflexivity.
      * cbn. rewrite E2. reflexivity.
    + rewrite E3. unfold push. rewrite <- app_assoc. reflexivity.
    + rewrite E4. cbn [map]. unfold total at 2. cbn [fold_right].
      fold (total (map s_amount rest)). lia.
    + rewrite E5. cbn [List.length]. lia.
Qed.

Lemma add_mint_sources_shape mintAddress (sources : list FundingSource) :
  forall d index,
    let r := fst (fold_left (add_mint_source mintAddress) sources (d, index)) in
    (exists extra, nodes r = (nodes d ++ extra)%list /\
                   (List.length extra <= List.length sources)%nat) /\
    incl (map s_address sources) (map id (nodes r)) /\
    links r = (links d ++ map (creation_link mintAddress) sources)%list /\
    totalFunding r = totalFunding d + total (map s_amount sources) /\
    fundingSources r = fundingSources d + Z.of_nat (List.length sources).
Proof.
  induction sources as [| s rest IH]; intros d index.
  - cbn. split; [exists []; rewrite app_nil_r; split; [reflexivity | cbn; lia] |].
    rewrite app_nil_r. split; [intros x [] |]. repeat split; lia.
  - cbv zeta. cbn [fold_left].
    set (step := add_mint_source mintAddress (d, index) s).
    specialize (IH (fst step) (snd step)). rewrite <- surjective_pairing in IH.
    cbv zeta in IH.
    destruct IH as ((extra & E1 & E2) & E3 & E4 & E5 & E6).
    assert (L : links (fst step) = push (links d) (creation_link mintAddress s))
      by reflexivity.
    assert (T : totalFunding (fst step) = totalFunding d + s_amount s) by reflexivity.
    assert (F : fundingSources (fst step) = fundingSources d + 1) by reflexivity.
    assert (Hfirst : exists first, nodes (fst step) = (nodes d ++ first)%list /\
                                   (List.length first <= 1)%nat /\
                                   In (s_address s) (map id (nodes (fst step)))).
    { unfold step, add_mint_source. cbn [fst nodes].
      destruct (existsb (fun n => String.eqb (id n) (s_address s)) (nodes d)) eqn:Ex.
      - exists []. rewrite app_nil_r. split; [reflexivity |]. split; [cbn; lia |].
        apply existsb_exists in Ex. destruct Ex as (n & Hn & En).
        apply String.eqb_eq in En. rewrite <- En. apply in_map, Hn.
      - eexists. split; [reflexivity |]. split; [cbn; lia |].
        unfold push. rewrite map_app. apply in_or_app. right. left. reflexivity. }
    destruct Hfirst as (first & F1 & F2 & F3).
    clearbody step.
    split; [| split; [| split; [| split]]].
    + exists (first ++ extra)%list. split.
      * rewrite E1, F1, <- app_assoc. reflexivity.
      * rewrite length_app. cbn [List.length]. lia.
    + intros a [<- | Ha]; [| apply E3, Ha].
      rewrite E1, map_app. apply in_or_app. left. exact F3.
    + rewrite E4, L. unfold push. rewrite <- app_assoc. reflexivity.
    + rewrite E5, T. cbn [map]. unfold total at 2. cbn [fold_right].
      fold (total (map s_amount rest)). lia.
    + rewrite E6, F. cbn [List.length]. lia.
Qed.

(** The first node is the mint's. *)
Definition mint_first (mintAddress : string) (ns : list FundNode) : Prop :=
  exists node rest,
    ns = node :: rest /\ id node = mintAddress /\ type node = mint /\
    group node = 0 /\ label node = [Lit "Mint Address"].

Lemma mint_first_app mintAddress ns extra :
  mint_first mintAddress ns -> mint_first mintAddress (ns ++ extra).
Proof.
  intros (node & rest & -> & H). exists node, (rest ++ extra)%list.
  split; [reflexivity | exact H].
Qed.

Lemma mint_first_set_totals mintAddress address received count ns :
  mint_first mintAddress ns ->
  mint_first mintAddress (set_totals address received count ns).
Proof.
  intros (node & rest & -> & H1 & H2 & H3 & H4). unfold set_totals. simpl.
  destruct (String.eqb (id node) address); eexists; eexists;
    (split; [reflexivity |]); cbn; auto.
Qed.

(** The graph with the deployer's funding, before the mint's own. *)
Definition deployer_part (mintAddress deployerAddress : string)
    (deployerFunding : DeployerFunding) : FundFlowData :=
  if truthy deployerAddress
  then with_deployer mintAddress deployerAddress deployerFunding
         (minimal_data mintAddress)
  else minimal_data mintAddress.

Definition deployer_links (mintAddress deployerAddress : string)
    (deployerFunding : DeployerFunding) : list FundLink :=
  if truthy deployerAddress
  then (map (funding_link deployerAddress) (d_sources deployerFunding) ++
        [deployment_link mintAddress deployerAddress
           (d_deploymentCost deployerFunding)])%list
  else [].

Lemma deployer_part_shape mintAddress deployerAddress df :
  let d := deployer_part mintAddress deployerAddress df in
  mint_first mintAddress (nodes d) /\
  map id (nodes d) =
    (mintAddress ::
     if truthy deployerAddress
     then deployerAddress :: map s_address (d_sources df) else [])%list /\
  links d = deployer_links mintAddress deployerAddress df /\
  totalFunding d =
    (if truthy deployerAddress then total (map s_amount (d_sources df)) else 0) /\
  fundingSources d =
    (if truthy deployerAddress then Z.of_nat (List.length (d_sources df)) else 0).
Proof.
  cbv zeta. unfold deployer_part, deployer_links.
  destruct (truthy deployerAddress).
  2:{ cbn. split; [| auto]. eexists; eexists; split; [reflexivity |]. cbn. auto. }
  unfold with_deployer.
  match goal with
  | |- context [fold_left _ _ (?d0, ?i0)] =>
      pose proof (add_deployer_sources_shape deployerAddress (d_sources df) d0 i0) as H;
      destruct (fold_left (add_deployer_source deployerAddress) (d_sources df) (d0, i0))
        as [r k]
  end.
  cbv zeta in H. cbn [fst nodes links totalFunding fundingSources minimal_data] in H.
  destruct H as ((extra & E1 & E2) & E3 & E4 & E5).
  cbn [nodes links totalFunding fundingSources].
  split; [| split; [| split; [| split]]].
  - apply mint_first_set_totals. rewrite E1. apply mint_first_app.
    eexists; eexists; split; [reflexivity |]. cbn. auto.
  - rewrite set_totals_ids, E1, map_app, E2. reflexivity.
  - rewrite E3. reflexivity.
  - rewrite E4. lia.
  - rewrite E5. lia.
Qed.

(** The graph [analyzeFundSources] builds from the two fundings. *)
Definition graph_of (mintAddress deployerAddress : string)
    (df : DeployerFunding) (mf : MintFunding) : FundFlowData :=
  with_mint mintAddress mf (deployer_part mintAddress deployerAddress df).

Lemma graph_shape mintAddress deployerAddress df mf :
  let d := graph_of mintAddress deployerAddress df mf in
  (exists node rest,
     nodes d = node :: rest /\ id node = mintAddress /\ type node = mint /\
     group node = 0 /\ label node = [Lit "Mint Address"] /\
     value node = Z.of_nat (List.length (m_sources mf)) /\
     amount node = m_totalReceived mf) /\
  incl (mintAddress ::
        if truthy deployerAddress
        then deployerAddress :: map s_address (d_sources df) else [])%list
       (map id (nodes d)) /\
  incl (map s_address (m_sources mf)) (map id (nodes d)) /\
  (List.length (nodes d) <=
   1 + (if truthy deployerAddress then 1 + List.length (d_sources df) else 0) +
   List.length (m_sources mf))%nat /\
  links d = (deployer_links mintAddress deployerAddress df ++
             map (creation_link mintAddress) (m_sources mf))%list /\
  totalFunding d =
    (if truthy deployerAddress then total (map s_amount (d_sources df)) else 0) +
    total (map s_amount (m_sources mf)) /\
  fundingSources d =
    (if truthy deployerAddress then Z.of_nat (List.length (d_sources df)) else 0) +
    Z.of_nat (List.length (m_sources mf)).
Proof.
  cbv zeta. unfold graph_of.
  pose proof (deployer_part_shape mintAddress deployerAddress df) as P.
  cbv zeta in P. destruct P as (P1 & P2 & P3 & P4 & P5).
  set (d1 := deployer_part mintAddress deployerAddress df) in *.
  unfold with_mint.
  pose proof (add_mint_sources_shape mintAddress (m_sources mf) d1 0) as H.
  destruct (fold_left (add_mint_source mintAddress) (m_sources mf) (d1, 0)) as [r k].
  cbv zeta in H. cbn [fst] in H.
  destruct H as ((extra & E1 & E2) & E3 & E4 & E5 & E6).
  cbn [nodes links totalFunding fundingSources].
  split; [| split; [| split; [| split; [| split; [| split]]]]].
  - destruct P1 as (node & rest & N1 & N2 & N3 & N4 & N5).
    rewrite E1, N1. unfold set_totals. cbn [app update_found].
    rewrite N2, String.eqb_refl.
    eexists; eexists. split; [reflexivity |]. cbn. repeat split; assumption.
  - rewrite set_totals_ids, E1, map_app, P2. apply incl_appl, incl_refl.
  - rewrite set_totals_ids. exact E3.
  - rewrite set_totals_length, E1, length_app.
    rewrite <- (length_map id (nodes d1)), P2.
    destruct (truthy deployerAddress); cbn [List.length]; rewrite ?length_map; lia.
  - rewrite E4, P3. reflexivity.
  - rewrite E5, P4. reflexivity.
  - rewrite E6, P5. reflexivity.
Qed.

Section Results.
Context {W : Type} (up : FundFlow.Upstream W).

(** A run of [analyzeFundSources] returns the graph of the deployer's
    funding, when a deployer is given, and of the mint's. *)
Lemma analyzeFundSources_runs mintAddress deployerAddress :
  runs (if truthy deployerAddress then 32 else 11)
       (fun d => exists df mf,
                   d = graph_of mintAddress deployerAddress df mf /\
                   deployer_funding_sound df /\ mint_funding_sound mf)
       (analyzeFundSources up mintAddress deployerAddress).
Proof.
  set (Q := fun d : FundFlowData => exists df mf, _).
  assert (Hbody : runs (if truthy deployerAddress then 32 else 11) Q
                       (analyzeFundSources_body up mintAddress deployerAddress)).
  { unfold analyzeFundSources_body.
    set (P := fun d : FundFlowData =>
                exists df, d = deployer_part mintAddress deployerAddress df /\
                           deployer_funding_sound df).
    apply (runs_weaken ((if truthy deployerAddress then 21 else 0) + 11) _ Q Q);
      [destruct (truthy deployerAddress); lia | auto |].
    apply (runs_bind _ 11 P Q).
    - destruct (truthy deployerAddress) eqn:Et.
      + apply (runs_weaken (21 + 0) _ P P); [lia | auto |].
        apply (runs_bind 21 0 deployer_funding_sound P);
          [apply getDeployerFunding_runs |].
        intros df Hdf. apply runs_ret. exists df. unfold deployer_part. rewrite Et.
        split; [reflexivity | exact Hdf].
      + apply runs_ret.
        exists {| d_sources := []; d_totalReceived := 0; d_deploymentCost := 0 |}.
        unfold deployer_part. rewrite Et. split; [reflexivity |].
        split; [cbn; lia |]. split; [apply sources_sound_nil | cbn; lia].
    - intros d (df & -> & Hdf).
      apply (runs_weaken (11 + 0) _ Q Q); [lia | auto |].
      apply (runs_bind 11 0 mint_funding_sound Q); [apply getMintFunding_runs |].
      intros mf Hmf. apply runs_ret. exists df, mf.
      split; [reflexivity |]. split; assumption. }
  intro st. destruct (Hbody st) as (d & st' & E & Hd & Hc).
  exists d, st'. unfold analyzeFundSources, try_catch. rewrite E.
  split; [reflexivity |]. split; assumption.
Qed.

(** X24. Whatever the provider answers, the fund-sources analysis returns
    a graph whose first node is the mint's and in which every link runs
    between two nodes of the graph.  A funding link ends at the deployer, a
    creation link at the mint, and a deployment link runs from the deployer
    to the mint; funding and deployment links only occur when a deployer
    address was given, and no transfer link occurs.  The graph has at most
    17 nodes and 16 links. *)
Theorem fund_sources_links_resolve (mintAddress deployerAddress : string)
    (st : State W) :
  exists d st',
    analyzeFundSources up mintAddress deployerAddress st = (Returned d, st') /\
    (exists node rest,
       nodes d = node :: rest /\ id node = mintAddress /\ type node = mint /\
       label node = [Lit "Mint Address"]) /\
    Forall (fun l => In (source l) (map id (nodes d)) /\
                     In (target l) (map id (nodes d))) (links d) /\
    Forall (fun l =>
              match l_type l with
              | funding => truthy deployerAddress = true /\ target l = deployerAddress
              | deployment => truthy deployerAddress = true /\
                              source l = deployerAddress /\ target l = mintAddress
              | creation => target l = mintAddress
              | transfer => False
              end) (links d) /\
    (List.length (nodes d) <= 17)%nat /\ (List.length (links d) <= 16)%nat.
Proof.
  destruct (analyzeFundSources_runs mintAddress deployerAddress st)
    as (d & st' & E & (df & mf & -> & (Hd & _) & (Hm & _)) & _).
  eexists; eexists. split; [exact E |].
  pose proof (graph_shape mintAddress deployerAddress df mf) as S. cbv zeta in S.
  destruct S as ((node & rest & N1 & N2 & N3 & _ & N5 & _) & I1 & I2 & Hlen & L & _).
  split; [exists node, rest; auto |].
  rewrite L. unfold deployer_links.
  split; [| split; [| split]].
  - apply Forall_app. split.
    + destruct (truthy deployerAddress); [| constructor].
      apply Forall_app. split.
      * apply Forall_map, Forall_forall. intros s Hs. cbn [funding_link source target].
        split; apply I1; [right; right; apply in_map, Hs | right; left; reflexivity].
      * constructor; [| constructor]. cbn [deployment_link source target].
        split; apply I1; [right; left; reflexivity | left; reflexivity].
    + apply Forall_map, Forall_forall. intros s Hs. cbn [creation_link source target].
      split; [apply I2, in_map, Hs |].
      apply I1. left. reflexivity.
  - apply Forall_app. split.
    + destruct (truthy deployerAddress); [| constructor].
      apply Forall_app. split.
      * apply Forall_map, Forall_forall. intros s _. cbn. auto.
      * constructor; [cbn; auto | constructor].
    + apply Forall_map, Forall_forall. intros s _. reflexivity.
  - destruct (truthy deployerAddress); lia.
  - rewrite length_app, length_map.
    destruct (truthy deployerAddress); [rewrite length_app, length_map |]; cbn; lia.
Qed.






(** X26. One call of the fund-sources route sends at most 32 requests: at
    most 21 for the deployer's funding and at most 11 for the mint's.
    Without a deployer address it sends at most 11, and without a mint
    address, or with a body that cannot be parsed, none. *)
Theorem fund_sources_route_sends_at_most_32_requests (req : Request) (st : State W) :
  let bound :=
    match req with
    | Unparsable _ => 0%nat
    | Body mintAddress deployerAddress =>
        if truthy mintAddress
        then if truthy deployerAddress then 32%nat else 11%nat
        else 0%nat
    end in
  (bound <= 32)%nat /\
  exists response st',
    POST up req st = (Returned response, st') /\
    (List.length (calls st') <= List.length (calls st) + bound)%nat.
Proof.
  cbv zeta. split.
  { destruct req as [message | m d]; [lia |].
    destruct (truthy m), (truthy d); lia. }
  unfold POST, try_catch, bind, request_json.
  destruct req as [message | m d].
  - cbn. eexists; eexists. split; [reflexivity | lia].
  - cbn [ret]. destruct (truthy m); cbn [negb].
    + destruct (analyzeFundSources_runs m d st) as (r & st' & E & _ & Hc).
      rewrite E. eexists; eexists. split; [reflexivity | exact Hc].
    + eexists; eexists. split; [reflexivity | lia].
Qed.

(** *** Which transactions a run reads *)

(** The items of a signatures reply that the route can iterate over: the
    records of a list, or the characters of a string. *)
Definition listed (reply : Reply (option FundFlow.Signatures))
    : list FundFlow.SignatureInfo :=
  match reply with
  | Ok (Some (FundFlow.SigArray sigs)) => sigs
  | Ok (Some (FundFlow.SigString text)) => FundFlow.string_items text
  | _ => []
  end.

Definition transaction_requests (sigs : list FundFlow.SignatureInfo) : list Call :=
  map (fun sig => RpcGetTransaction (FundFlow.signature sig)) sigs.

Lemma collect_funding_calls target sigs st :
  exists found w,
    collect_funding up target sigs st =
    (Returned found,
     {| world := w; calls := (calls st ++ transaction_requests sigs)%list |}).
Proof.
  unfold collect_funding.
  generalize {| f_sources := []; f_totalReceived := 0 |}. revert st.
  induction sigs as [| sig rest IH]; intros st found.
  - exists found, (world st). cbn. rewrite app_nil_r. destruct st; reflexivity.
  - cbn [for_each]. unfold bind at 1. unfold try_catch at 1. unfold bind at 1.
    unfold FundFlow.getTransaction at 1.
    rewrite ScoringRouteFacts.guarded_request.
    match goal with
    | |- context [for_each rest ?body _ _] =>
        assert (Step : forall found' st', exists found'' w,
                   for_each rest body found' st' =
                   (Returned found'',
                    {| world := w;
                       calls := (calls st' ++ transaction_requests rest)%list |}))
          by (intros found' st'; apply IH)
    end.
    destruct (fst (FundFlow.rpc_transaction up (FundFlow.signature sig) (world st)))
      as [[tx |] | e].
    + destruct (fi_amount (analyzeFundingTransaction tx target) >? 0);
        cbn [ret];
        match goal with
        | |- context [for_each rest _ ?f ?s] => destruct (Step f s) as (r & w & E)
        end;
        exists r, w; rewrite E; cbn [calls]; unfold push;
        rewrite <- app_assoc; reflexivity.
    + cbn [ret].
      match goal with
      | |- context [for_each rest _ ?f ?s] => destruct (Step f s) as (r & w & E)
      end.
      exists r, w. rewrite E. cbn [calls]. unfold push.
      rewrite <- app_assoc. reflexivity.
    + cbn [ret].
      match goal with
      | |- context [for_each rest _ ?f ?s] => destruct (Step f s) as (r & w & E)
      end.
      exists r, w. rewrite E. cbn [calls]. unfold push.
      rewrite <- app_assoc. reflexivity.
Qed.

(** X27. The deployer's funding is read from the first 20 signatures of a
    reply to a request for 50, the mint's from the last 10 signatures of a
    reply to a request for 20, which are the earliest transactions of that
    reply.  When the reply is a list of signature records, each of these
    gets one transaction request, in the order of the reply, whatever the
    transactions contain and whether or not the requests succeed.  A reply
    that is a non-empty string (without surrogate pairs) is read in the
    same way, character by character: each of its first 20 characters, or
    of its last 10, gets one transaction request, which carries no
    signature.  A failed signatures
    request, and a reply that is neither a list nor a string (a number,
    true, an object), get no transaction request. *)
Theorem funding_reads_first_20_and_last_10 (address : string) (st : State W) :
  calls (snd (getDeployerFunding up address st)) =
    (calls st ++
     RpcGetSignaturesForAddress address 50 ::
     transaction_requests
       (slice0 20 (listed (fst (FundFlow.rpc_signatures up address 50 (world st))))))%list /\
  calls (snd (getMintFunding up address st)) =
    (calls st ++
     RpcGetSignaturesForAddress address 20 ::
     transaction_requests
       (slice_last 10
          (listed (fst (FundFlow.rpc_signatures up address 20 (world st))))))%list.
Proof.
  split.
  - unfold getDeployerFunding, FundFlow.getSignaturesForAddress, try_catch, bind,
      request, ret.
    destruct (FundFlow.rpc_signatures up address 50 (world st))
      as [[[[sigs | text |] |] | e] w]; cbn [fst listed FundFlow.slice_signatures ret throw];
      unfold ret, throw;
      try (match goal with
           | |- context [collect_funding up address ?xs ?s] =>
               destruct (collect_funding_calls address xs s) as (found & w' & E);
               rewrite E
           end);
      cbn [snd calls transaction_requests map]; unfold push;
      rewrite <- ?app_assoc; reflexivity.
  - unfold getMintFunding, FundFlow.getSignaturesForAddress, try_catch, bind,
      request, ret.
    destruct (FundFlow.rpc_signatures up address 20 (world st))
      as [[[[sigs | text |] |] | e] w]; cbn [fst listed slice_last_signatures ret throw];
      unfold ret, throw;
      try (match goal with
           | |- context [collect_funding up address ?xs ?s] =>
               destruct (collect_funding_calls address xs s) as (found & w' & E);
               rewrite E
           end);
      cbn [snd calls transaction_requests map]; unfold push;
      rewrite <- ?app_assoc; reflexivity.
Qed.

End Results.

End FundSourcesFacts.

(** ** The reputability dashboard *)

Module DashboardFacts.
Import JS Effects Reputability Dashboard.

(** X29. Whenever the scoring route answers with a result, the dashboard
    shows the score and the risk badge in the same colour: the classes of
    the badge for the risk level of the answer contain the text colour
    chosen for its score, which is green for a low risk, yellow for a medium
    risk and red for a high risk, and never the gray of an unknown risk
    level. *)
Theorem dashboard_colours_agree {W} (up : Upstream W) (req : Request)
    (st st' : State W) (body : ScoreResult) :
  POST up req st = (Returned (Json body), st') ->
  let colour := getScoreColor (score body) in
  let badge := getRiskBadgeColor (Some (riskLevel_text (riskLevel body))) in
  includes colour badge = true /\
  includes "gray" badge = false /\
  colour = match riskLevel body with
           | low => "text-green-400"
           | medium => "text-yellow-400"
           | high => "text-red-400"
           end.
Proof.
  intro H. apply ReputabilityFacts.POST_json in H as (analysis & _ & _ & _ & Hr & _).
  cbv zeta. rewrite Hr. unfold getScoreColor, riskLevelOf.
  destruct (score body >=? 80); [repeat split; reflexivity |].
  destruct (score body >=? 60); repeat split; reflexivity.
Qed.

Lemma dashboard_colours_agree_witness :
  exists body st',
    POST ReputabilityFacts.quiet_upstream (Body ReputabilityFacts.some_wallet)
         (start tt) = (Returned (Json body), st') /\
    let colour := getScoreColor (score body) in
    let badge := getRiskBadgeColor (Some (riskLevel_text (riskLevel body))) in
    includes colour badge = true /\
    includes "gray" badge = false /\
    colour = match riskLevel body with
             | low => "text-green-400"
             | medium => "text-yellow-400"
             | high => "text-red-400"
             end.
Proof.
  eexists. eexists. split.
  - vm_compute. reflexivity.
  - eapply (dashboard_colours_agree ReputabilityFacts.quiet_upstream
              (Body ReputabilityFacts.some_wallet) (start tt)).
    vm_compute. reflexivity.
Defined.

End DashboardFacts.
